(** * Pick-3 baseball: scoring, boost allocation, time gate, persistence, history

    A shallow embedding of the scoring and state-lifecycle core of the
    application, with the properties of its specification stated and proved
    (or refuted) against it.

    Modelling conventions, used throughout:
    - a JavaScript [number] that holds an integer is a [Z] (doubles are exact
      on the integers the application handles); a number that may be
      fractional (a boost factor, a quotient) is a [Q], the rational that
      the double is;
    - the product of a score and a boost factor is the product of doubles:
      the exact product rounded to the nearest double, ties to even
      ([JS.mul]); results beyond the largest double are not modelled;
    - [Math.round x] is [floor (x + 1/2)] (ties go up), [Math.floor] is the
      floor;
    - an optional field, or a property read that may yield [undefined], is an
      [option];
    - a time value is a number of milliseconds since the epoch, as a [Z],
      without the bound that [Date] puts on it; an invalid [Date] (time
      value [NaN]) is [None];
    - the key/value store is a finite map from keys to what [JSON.parse]
      makes of the text held there; it is reliable, so that a read that
      fails, which the wrapper turns into [null], is a missing key;
    - [JSON.stringify] followed by [JSON.parse] gives back every value that
      the application stores, with one exception that the model does not
      follow: a [NaN] is written as [null]. The only [NaN] that can be
      stored is the average score of a history in which no game has a
      player, and [None] stands for both the [NaN] and the [null] there;
    - an asynchronous function is the function from its inputs, the clock
      reading and the store before to its result and the store after. *)

From Stdlib Require Import ZArith QArith Qround Qpower Lia Lqa.
From stdpp Require Import gmap strings list pretty sorting.

Open Scope Z_scope.

(** ** JavaScript arithmetic *)

Module JS.

(** [Math.round]: the nearest integer, ties towards +infinity. *)
Definition Math_round (x : Q) : Z := Qfloor (x + (1 # 2))%Q.

(** [Math.floor]. *)
Definition Math_floor (x : Q) : Z := Qfloor x.

(** [x || 0] on an optional integer field: [undefined] and [0] both give 0. *)
Definition or0 (x : option Z) : Z := default 0 x.

(** Rounding of the fraction [num / den], [den] positive, to the nearest
    integer, ties to the even one. *)
Definition round_half_even (num den : Z) : Z :=
  let fl := num / den in
  match 2 * (num mod den) ?= den with
  | Lt => fl
  | Gt => fl + 1
  | Eq => if Z.even fl then fl else fl + 1
  end.

(** [floor (log2 (a / b))] for positive [a] and [b]. *)
Definition ilog2 (a b : Z) : Z :=
  let e0 := Z.log2 a - Z.log2 b in
  if (if 0 <=? e0 then b * 2 ^ e0 <=? a else b <=? a * 2 ^ (- e0))
  then e0 else e0 - 1.

(** The double nearest to a rational, ties to even (IEEE 754 binary64,
    round to nearest): 53 significant bits, and multiples of [2^-1074] in the
    subnormal range. Results beyond the largest double, which are
    [Infinity], are not modelled. *)
Definition to_double (q : Q) : Q :=
  let a := Z.abs (Qnum q) in
  let b := Zpos (Qden q) in
  if a =? 0 then 0%Q
  else
    let s := Z.max (ilog2 a b - 52) (-1074) in
    let m := if 0 <=? s then round_half_even a (b * 2 ^ s)
             else round_half_even (a * 2 ^ (- s)) b in
    let v := (inject_Z m * 2 ^ s)%Q in
    if Qnum q <? 0 then (- v)%Q else v.

(** [x * y] on doubles. *)
Definition mul (x y : Q) : Q := to_double (x * y)%Q.

End JS.

(** ** ScoringEngine (utils/scoringUtils.ts) *)

Inductive OutcomeCode :=
  | OUT | C1B | C2B | C3B | HR | BB | HBP | K | GIDP | FC | RBI | R.

Record ScoreBreakdown := {
  singles : Z;
  doubles : Z;
  triples : Z;
  hr_solo : Z;
  hr_2r : Z;
  hr_3r : Z;
  hr_gs : Z;
  walks : Z;
  hbp : Z;
  rbi_non_hr : Z;
  runs_non_hr : Z;
  strikeouts : Z;
  gidp : Z;
  fielders_choice : Z
}.

(** The point table [PTS]. *)
Module PTS.
Definition SINGLE : Z := 10.
Definition DOUBLE : Z := 20.
Definition TRIPLE : Z := 30.
Definition HR_SOLO : Z := 40.
Definition HR_2R : Z := 45.
Definition HR_3R : Z := 50.
Definition HR_GS : Z := 80.
Definition WALK : Z := 5.
Definition HBP : Z := 5.
Definition RBI_NON_HR : Z := 15.
Definition RUN_NON_HR : Z := 15.
Definition K : Z := -5.
Definition GIDP : Z := -10.
Definition FC : Z := 2.
End PTS.

(** [applyBoost]: base points are integers, the factor is any number; the
    product is the product of doubles. *)
Definition applyBoost (basePoints : Z) (boostPercent : Q) : Z :=
  if 0 <? basePoints
  then JS.Math_round (JS.mul (inject_Z basePoints) boostPercent)
  else basePoints.

Definition calculateBasePoints (breakdown : ScoreBreakdown) : Z :=
  singles breakdown * PTS.SINGLE +
  doubles breakdown * PTS.DOUBLE +
  triples breakdown * PTS.TRIPLE +
  hr_solo breakdown * PTS.HR_SOLO +
  hr_2r breakdown * PTS.HR_2R +
  hr_3r breakdown * PTS.HR_3R +
  hr_gs breakdown * PTS.HR_GS +
  walks breakdown * PTS.WALK +
  hbp breakdown * PTS.HBP +
  rbi_non_hr breakdown * PTS.RBI_NON_HR +
  runs_non_hr breakdown * PTS.RUN_NON_HR +
  strikeouts breakdown * PTS.K +
  gidp breakdown * PTS.GIDP +
  fielders_choice breakdown * PTS.FC.

(** Field assignments [breakdown.f = v] on the breakdown object, which
    [buildScoreFromStatsAndPlays] fills in place. *)

Definition set_singles (v : Z) (b : ScoreBreakdown) : ScoreBreakdown :=
  {| singles := v; doubles := doubles b; triples := triples b;
     hr_solo := hr_solo b; hr_2r := hr_2r b; hr_3r := hr_3r b;
     hr_gs := hr_gs b; walks := walks b; hbp := hbp b;
     rbi_non_hr := rbi_non_hr b; runs_non_hr := runs_non_hr b;
     strikeouts := strikeouts b; gidp := gidp b;
     fielders_choice := fielders_choice b |}.

Definition set_doubles (v : Z) (b : ScoreBreakdown) : ScoreBreakdown :=
  {| singles := singles b; doubles := v; triples := triples b;
     hr_solo := hr_solo b; hr_2r := hr_2r b; hr_3r := hr_3r b;
     hr_gs := hr_gs b; walks := walks b; hbp := hbp b;
     rbi_non_hr := rbi_non_hr b; runs_non_hr := runs_non_hr b;
     strikeouts := strikeouts b; gidp := gidp b;
     fielders_choice := fielders_choice b |}.

Definition set_triples (v : Z) (b : ScoreBreakdown) : ScoreBreakdown :=
  {| singles := singles b; doubles := doubles b; triples := v;
     hr_solo := hr_solo b; hr_2r := hr_2r b; hr_3r := hr_3r b;
     hr_gs := hr_gs b; walks := walks b; hbp := hbp b;
     rbi_non_hr := rbi_non_hr b; runs_non_hr := runs_non_hr b;
     strikeouts := strikeouts b; gidp := gidp b;
     fielders_choice := fielders_choice b |}.

Definition set_walks (v : Z) (b : ScoreBreakdown) : ScoreBreakdown :=
  {| singles := singles b; doubles := doubles b; triples := triples b;
     hr_solo := hr_solo b; hr_2r := hr_2r b; hr_3r := hr_3r b;
     hr_gs := hr_gs b; walks := v; hbp := hbp b; rbi_non_hr := rbi_non_hr b;
     runs_non_hr := runs_non_hr b; strikeouts := strikeouts b;
     gidp := gidp b; fielders_choice := fielders_choice b |}.

Definition set_strikeouts (v : Z) (b : ScoreBreakdown) : ScoreBreakdown :=
  {| singles := singles b; doubles := doubles b; triples := triples b;
     hr_solo := hr_solo b; hr_2r := hr_2r b; hr_3r := hr_3r b;
     hr_gs := hr_gs b; walks := walks b; hbp := hbp b;
     rbi_non_hr := rbi_non_hr b; runs_non_hr := runs_non_hr b;
     strikeouts := v; gidp := gidp b;
     fielders_choice := fielders_choice b |}.

Definition set_gidp (v : Z) (b : ScoreBreakdown) : ScoreBreakdown :=
  {| singles := singles b; doubles := doubles b; triples := triples b;
     hr_solo := hr_solo b; hr_2r := hr_2r b; hr_3r := hr_3r b;
     hr_gs := hr_gs b; walks := walks b; hbp := hbp b;
     rbi_non_hr := rbi_non_hr b; runs_non_hr := runs_non_hr b;
     strikeouts := strikeouts b; gidp := v;
     fielders_choice := fielders_choice b |}.

Definition set_hr_gs (v : Z) (b : ScoreBreakdown) : ScoreBreakdown :=
  {| singles := singles b; doubles := doubles b; triples := triples b;
     hr_solo := hr_solo b; hr_2r := hr_2r b; hr_3r := hr_3r b; hr_gs := v;
     walks := walks b; hbp := hbp b; rbi_non_hr := rbi_non_hr b;
     runs_non_hr := runs_non_hr b; strikeouts := strikeouts b;
     gidp := gidp b; fielders_choice := fielders_choice b |}.

Definition set_hr_3r (v : Z) (b : ScoreBreakdown) : ScoreBreakdown :=
  {| singles := singles b; doubles := doubles b; triples := triples b;
     hr_solo := hr_solo b; hr_2r := hr_2r b; hr_3r := v; hr_gs := hr_gs b;
     walks := walks b; hbp := hbp b; rbi_non_hr := rbi_non_hr b;
     runs_non_hr := runs_non_hr b; strikeouts := strikeouts b;
     gidp := gidp b; fielders_choice := fielders_choice b |}.

Definition set_hr_2r (v : Z) (b : ScoreBreakdown) : ScoreBreakdown :=
  {| singles := singles b; doubles := doubles b; triples := triples b;
     hr_solo := hr_solo b; hr_2r := v; hr_3r := hr_3r b; hr_gs := hr_gs b;
     walks := walks b; hbp := hbp b; rbi_non_hr := rbi_non_hr b;
     runs_non_hr := runs_non_hr b; strikeouts := strikeouts b;
     gidp := gidp b; fielders_choice := fielders_choice b |}.

Definition set_hr_solo (v : Z) (b : ScoreBreakdown) : ScoreBreakdown :=
  {| singles := singles b; doubles := doubles b; triples := triples b;
     hr_solo := v; hr_2r := hr_2r b; hr_3r := hr_3r b; hr_gs := hr_gs b;
     walks := walks b; hbp := hbp b; rbi_non_hr := rbi_non_hr b;
     runs_non_hr := runs_non_hr b; strikeouts := strikeouts b;
     gidp := gidp b; fielders_choice := fielders_choice b |}.

Definition set_rbi_non_hr (v : Z) (b : ScoreBreakdown) : ScoreBreakdown :=
  {| singles := singles b; doubles := doubles b; triples := triples b;
     hr_solo := hr_solo b; hr_2r := hr_2r b; hr_3r := hr_3r b;
     hr_gs := hr_gs b; walks := walks b; hbp := hbp b; rbi_non_hr := v;
     runs_non_hr := runs_non_hr b; strikeouts := strikeouts b;
     gidp := gidp b; fielders_choice := fielders_choice b |}.

Definition set_runs_non_hr (v : Z) (b : ScoreBreakdown) : ScoreBreakdown :=
  {| singles := singles b; doubles := doubles b; triples := triples b;
     hr_solo := hr_solo b; hr_2r := hr_2r b; hr_3r := hr_3r b;
     hr_gs := hr_gs b; walks := walks b; hbp := hbp b;
     rbi_non_hr := rbi_non_hr b; runs_non_hr := v;
     strikeouts := strikeouts b; gidp := gidp b;
     fielders_choice := fielders_choice b |}.

(** ** Raw batting line of the live feed ([boxscore...players[key].stats.batting]) *)

Module Batting.
Record t := {
  hits : option Z;
  doubles : option Z;
  triples : option Z;
  homeRuns : option Z;
  baseOnBalls : option Z;
  strikeOuts : option Z;
  groundIntoDoublePlay : option Z;
  rbi : option Z;
  runs : option Z
}.
(** [{}], the line of a batter the feed does not know. *)
Definition empty : t :=
  {| hits := None; doubles := None; triples := None; homeRuns := None;
     baseOnBalls := None; strikeOuts := None; groundIntoDoublePlay := None;
     rbi := None; runs := None |}.
End Batting.

(** A play of [allPlays]; the scorer receives the batter's plays and never
    reads them. *)
Record Play := { matchup_batter_id : option Z }.

Record Score := {
  breakdown : ScoreBreakdown;
  points : Z;
  outcomes : list OutcomeCode
}.

(** [for (let i = 0; i < n; i++) outcomes.push(c)] *)
Definition push_times (n : Z) (c : OutcomeCode) (outcomes : list OutcomeCode)
  : list OutcomeCode :=
  outcomes ++ replicate (Z.to_nat n) c.

(** ** StatsFeedAdapter scoring pass (api/index.ts) *)

Definition buildScoreFromStatsAndPlays (stats : Batting.t) (plays : list Play) : Score :=
  let breakdown :=
    {| singles := 0; doubles := 0; triples := 0; hr_solo := 0; hr_2r := 0;
       hr_3r := 0; hr_gs := 0; walks := 0; hbp := 0; rbi_non_hr := 0;
       runs_non_hr := 0; strikeouts := 0; gidp := 0; fielders_choice := 0 |} in
  let outcomes : list OutcomeCode := [] in
  (* Extract basic stats *)
  let breakdown :=
    set_singles (JS.or0 (Batting.hits stats) - JS.or0 (Batting.doubles stats)
                 - JS.or0 (Batting.triples stats) - JS.or0 (Batting.homeRuns stats))
                breakdown in
  let breakdown := set_doubles (JS.or0 (Batting.doubles stats)) breakdown in
  let breakdown := set_triples (JS.or0 (Batting.triples stats)) breakdown in
  let breakdown := set_walks (JS.or0 (Batting.baseOnBalls stats)) breakdown in
  let breakdown := set_strikeouts (JS.or0 (Batting.strikeOuts stats)) breakdown in
  let breakdown := set_gidp (JS.or0 (Batting.groundIntoDoublePlay stats)) breakdown in
  (* Analyze home runs by RBI count *)
  let totalHRs := JS.or0 (Batting.homeRuns stats) in
  let totalRBIs := JS.or0 (Batting.rbi stats) in
  let totalRuns := JS.or0 (Batting.runs stats) in
  let breakdown :=
    if 0 <? totalHRs then
      let avgRBIPerHR := (inject_Z totalRBIs / inject_Z totalHRs)%Q in
      if Qle_bool (7 # 2) avgRBIPerHR then set_hr_gs totalHRs breakdown
      else if Qle_bool (5 # 2) avgRBIPerHR then set_hr_3r totalHRs breakdown
      else if Qle_bool (3 # 2) avgRBIPerHR then set_hr_2r totalHRs breakdown
      else set_hr_solo totalHRs breakdown
    else breakdown in
  (* Non-HR RBIs and runs *)
  let hrRBIs :=
    totalHRs * (hr_gs breakdown * 4 + hr_3r breakdown * 3
                + hr_2r breakdown * 2 + hr_solo breakdown * 1) in
  let breakdown := set_rbi_non_hr (Z.max 0 (totalRBIs - hrRBIs)) breakdown in
  let breakdown := set_runs_non_hr totalRuns breakdown in
  (* Build outcomes array *)
  let outcomes := push_times (singles breakdown) C1B outcomes in
  let outcomes := push_times (doubles breakdown) C2B outcomes in
  let outcomes := push_times (triples breakdown) C3B outcomes in
  let outcomes :=
    push_times (hr_solo breakdown + hr_2r breakdown + hr_3r breakdown
                + hr_gs breakdown) HR outcomes in
  let outcomes := push_times (walks breakdown) BB outcomes in
  let outcomes := push_times (strikeouts breakdown) K outcomes in
  let outcomes := push_times (gidp breakdown) GIDP outcomes in
  let points := calculateBasePoints breakdown in
  {| breakdown := breakdown; points := points; outcomes := outcomes |}.

(** The boost step of [fetchLiveGameData], written inline there:
    [basePoints > 0 ? Math.round(basePoints * boostPct) : basePoints],
    with [boostPct = boosters[bId] ?? 0] the stored percent. *)
Definition liveBoosted (basePoints : Z) (boostPct : Z) : Z :=
  if 0 <? basePoints
  then JS.Math_round (JS.mul (inject_Z basePoints) (inject_Z boostPct))
  else basePoints.

(** The specification's reading of the RBI that the classified home runs
    account for: 4 per grand slam, 3 per 3-run, 2 per 2-run, 1 per solo home
    run. It is compared below with what the code subtracts. *)
Definition spec_creditedRBI (b : ScoreBreakdown) : Z :=
  4 * hr_gs b + 3 * hr_3r b + 2 * hr_2r b + 1 * hr_solo b.

(** ** BoostAllocator (utils/generalUtils.ts) *)

(** A [Record<number, number>] is a finite map on property keys: [Some n] is
    the key of the number [n], [None] the key [undefined], which is what an
    array read past the end yields when it is used as an index. *)
Abbreviation Boosters := (gmap (option Z) Z).

(** [m[k] ?? 0] *)
Definition get0 (m : Boosters) (k : option Z) : Z := default 0 (m !! k).

(** The local object [cur] of the source is written and never read; it does
    not appear here. *)
Definition normalizeBoostersToHundred
    (targetId : Z) (rawValue : Q) (pickedIds : list Z)
    (currentBoosters : Boosters) : Boosters :=
  match pickedIds with
  | [a; b; c] =>
    let ids := [a; b; c] in
    let clamped := Z.max 0 (Z.min 100 (JS.Math_round rawValue)) in
    let others := filter (λ id, id ≠ targetId) ids in
    let remaining := 100 - clamped in
    let otherSum :=
      get0 currentBoosters (others !! 0%nat)
      + get0 currentBoosters (others !! 1%nat) in
    let newOther1 :=
      if otherSum <=? 0
      then JS.Math_floor (inject_Z remaining / 2)%Q
      else JS.Math_round
             (inject_Z (remaining * get0 currentBoosters (others !! 0%nat))
              / inject_Z otherSum)%Q in
    let newOther2 := remaining - newOther1 in
    let next := currentBoosters in
    let next := <[Some targetId := clamped]> next in
    let next := <[others !! 0%nat := newOther1]> next in
    let next := <[others !! 1%nat := newOther2]> next in
    next
  | _ => currentBoosters
  end.

Definition validateBoostersComplete
    (pickedIds : list Z) (boosters : Boosters) : bool :=
  let boosterUsed :=
    foldl (λ sum id, sum + get0 boosters (Some id)) 0 pickedIds in
  bool_decide (length pickedIds = 3%nat)
  && (boosterUsed =? 100)
  && forallb (λ id, bool_decide (is_Some (boosters !! Some id))) pickedIds.

(** ** The [Date] of the runtime *)

(** [Date] parsing and formatting belong to the JavaScript runtime, not to
    the application; the model takes them as an interface. *)
Class DateRuntime := {
  (** [new Date(s).getTime()]; [None] is [NaN], an invalid date. *)
  Date_parse : string → option Z;
  (** [new Date("")] is an invalid date. *)
  Date_parse_empty : Date_parse "" = None;
  (** [new Date(t).toISOString().split('T')[0]] for a valid time [t]. *)
  isoDate : Z → string
}.

(** A [Date] object: its time value, [None] for an invalid date. *)
Definition Date : Type := option Z.

(** [d1 < d2] on dates and numbers: false as soon as one side is [NaN]. *)
Definition js_lt (x y : option Z) : bool :=
  match x, y with
  | Some a, Some b => a <? b
  | _, _ => false
  end.

(** [x - y] on numbers that may be [NaN]. *)
Definition js_sub (x y : option Z) : option Z :=
  match x, y with
  | Some a, Some b => Some (a - b)
  | _, _ => None
  end.

(** [Array.prototype.sort] with a comparator. The sort is stable, and a
    comparator result of [NaN] counts as [+0]. With a consistent comparator
    every stable sort returns the list computed here by insertion; with an
    inconsistent one (dates that do not parse) engines may order differently,
    and only the fact that the result is a permutation is relied upon. *)
Fixpoint sort_insert {A} (cmp : A → A → option Z) (x : A) (l : list A) : list A :=
  match l with
  | [] => [x]
  | y :: l' =>
    if 0 <? default 0 (cmp x y) then y :: sort_insert cmp x l' else x :: l
  end.

Definition Array_sort {A} (cmp : A → A → option Z) (l : list A) : list A :=
  foldr (sort_insert cmp) [] l.

(** ** TimeGate (utils/dateUtils.ts) *)

(** [clock] is what [new Date()] reads when [currentTime] is not passed. *)
Definition isDraftingAllowed `{DateRuntime}
    (gameDate : option string) (currentTime : option Date) (clock : Z) : bool :=
  match gameDate with
  | None => true
  | Some s =>
    if decide (s = "") then true
    else
      let gameStart := Date_parse s in
      match gameStart with
      | None => true (* Invalid date, allow drafting *)
      | Some gameStart_getTime =>
        let now : Date := default (Some clock) currentTime in
        let fiveMinutesAfterStart : Date := Some (gameStart_getTime + 5 * 60 * 1000) in
        js_lt now fiveMinutesAfterStart
      end
  end.

(** ** Data model (types/index.ts) *)

Inductive Phase := setup | draft | play | live | results.
Inductive Side := home | away.

#[global] Instance Phase_eq_dec : EqDecision Phase.
Proof. solve_decision. Defined.

Module Batter.
Record t := { id : Z; name : string; mlbId : option Z }.
End Batter.

Module PlayerPickResult.
Record t := {
  batterId : Z;
  outcomes : list OutcomeCode;
  points : Z;
  breakdown : option ScoreBreakdown;
  boost : option Z;
  basePoints : option Z
}.
End PlayerPickResult.

Module Player.
Record t := {
  id : Z;
  name : string;
  picks : list Z;
  results : option (list PlayerPickResult.t);
  score : option Z
}.
End Player.

Module LineupInfo.
Record t := {
  gamePk : Z;
  opponent : string;
  side : Side;
  firstPitchLocal : option string;
  gameDate : option string
}.
End LineupInfo.

Module AppState.
Record t := {
  phase : Phase;
  batters : list Batter.t;
  players : list Player.t;
  boosters : Boosters;
  lineupInfo : option LineupInfo.t;
  gameState : string;
  inningStr : string;
  previousScores : gmap Z Z;
  previousTotalScore : Z;
  savedAt : Z;
  scoreViewingAllowed : option bool
}.
(** [{ ...state, savedAt: v }] *)
Definition with_savedAt (v : Z) (s : t) : t :=
  {| phase := phase s; batters := batters s; players := players s;
     boosters := boosters s; lineupInfo := lineupInfo s;
     gameState := gameState s; inningStr := inningStr s;
     previousScores := previousScores s;
     previousTotalScore := previousTotalScore s;
     savedAt := v; scoreViewingAllowed := scoreViewingAllowed s |}.
End AppState.

Module HistoricalPick.
Record t := {
  batterId : Z;
  batterName : string;
  mlbId : option Z;
  points : Z;
  basePoints : Z;
  boost : Z;
  breakdown : option ScoreBreakdown
}.
End HistoricalPick.

Module HistoricalPlayer.
Record t := {
  name : string;
  picks : list HistoricalPick.t;
  totalScore : Z
}.
End HistoricalPlayer.

Module HistoricalGame.
Record t := {
  id : string;
  date : string;
  gamePk : Z;
  opponent : string;
  side : Side;
  finalScore : option (Z * Z); (* twins, opponent *)
  gameStatus : string;
  players : list HistoricalPlayer.t;
  completedAt : Z
}.
End HistoricalGame.

Module Stats.
Record t := {
  totalGames : Z;
  averageScore : option Q; (* [None] is [NaN], or the [null] that a stored
                              [NaN] is read back as *)
  bestScore : Z;
  bestGame : option string;
  favoritePlayer : option string
}.
Definition zero : t :=
  {| totalGames := 0; averageScore := Some 0%Q; bestScore := 0;
     bestGame := None; favoritePlayer := None |}.
End Stats.

Module HistoricalData.
Record t := {
  games : list HistoricalGame.t;
  stats : Stats.t;
  lastUpdated : Z
}.
End HistoricalData.

(** ** PersistenceStore (storage/index.ts) *)

(** What [JSON.parse] returns on the text under a key. [POther] is any value
    that has neither a [games] array nor the fields of a snapshot. *)
Inductive parsed :=
  | PNull
  | PHistory (d : HistoricalData.t)
  | PAppState (s : AppState.t)
  | POther.

(** The text held under a key, by what parsing it gives. *)
Inductive blob :=
  | Unparseable (* [JSON.parse] throws *)
  | EmptyText   (* the empty string, which is falsy *)
  | Json (v : parsed).

Definition JSON_parse (text : blob) : option parsed :=
  match text with
  | Json v => Some v
  | _ => None
  end.

(** The text that parses to the value; see the conventions above for the
    one value, [NaN], that has no such text. *)
Definition JSON_stringify (v : parsed) : blob := Json v.

Abbreviation Store := (gmap string blob).

Definition STORAGE_KEY : string := "pick3_app_state".
Definition HISTORY_STORAGE_KEY : string := "pick3_historical_data".

(** The [storage] wrapper swallows the errors of the underlying store, which
    is taken to be reliable here. *)
Module storage.
Definition setItem (key : string) (value : blob) (st : Store) : Store :=
  <[key := value]> st.
Definition getItem (key : string) (st : Store) : option blob := st !! key.
Definition removeItem (key : string) (st : Store) : Store := delete key st.
End storage.

(** [!text] for what [getItem] returned: [null] and [""] are falsy. *)
Definition falsy_text (x : option blob) : bool :=
  match x with
  | None | Some EmptyText => true
  | _ => false
  end.

(** ** HistoryManager (history/index.ts) *)

(** Every function takes [now], the reading of [Date.now()] during the call,
    and passes the store through. *)

Definition createEmptyHistoricalData (now : Z) : HistoricalData.t :=
  {| HistoricalData.games := [];
     HistoricalData.stats := Stats.zero;
     HistoricalData.lastUpdated := now |}.

Definition loadHistoricalData (now : Z) (st : Store) : HistoricalData.t :=
  let data := storage.getItem HISTORY_STORAGE_KEY st in
  if falsy_text data then createEmptyHistoricalData now
  else
    match data ≫= JSON_parse with
    | Some (PHistory parsed) => parsed
    | Some (PAppState _) | Some POther =>
      createEmptyHistoricalData now (* no [games] array *)
    | Some PNull | None =>
      createEmptyHistoricalData now (* the catch clause *)
    end.

Definition saveHistoricalData (data : HistoricalData.t) (now : Z) (st : Store) : Store :=
  let dataToSave :=
    {| HistoricalData.games := HistoricalData.games data;
       HistoricalData.stats := HistoricalData.stats data;
       HistoricalData.lastUpdated := now |} in
  storage.setItem HISTORY_STORAGE_KEY (JSON_stringify (PHistory dataToSave)) st.

(** The running state of the two nested [forEach] loops. [playerPickCounts]
    is an object used as a map from names to counts; it is kept in the order
    in which [Object.entries] lists string keys, the order of first insertion
    (a name that is a canonical array index would be listed before the
    others). *)
Record StatsAcc := {
  allPlayerScores : list Z;
  bestScore : Z;
  bestGameId : option string;
  playerPickCounts : list (string * Z)
}.

(** [counts[name] = (counts[name] || 0) + 1] *)
Fixpoint bump (name : string) (counts : list (string * Z)) : list (string * Z) :=
  match counts with
  | [] => [(name, 0 + 1)]
  | (k, n) :: rest =>
    if decide (k = name) then (k, n + 1) :: rest else (k, n) :: bump name rest
  end.

Definition stats_player (game : HistoricalGame.t) (acc : StatsAcc)
    (player : HistoricalPlayer.t) : StatsAcc :=
  let scores := allPlayerScores acc ++ [HistoricalPlayer.totalScore player] in
  let better := bestScore acc <? HistoricalPlayer.totalScore player in
  {| allPlayerScores := scores;
     bestScore := if better then HistoricalPlayer.totalScore player else bestScore acc;
     bestGameId := if better then Some (HistoricalGame.id game) else bestGameId acc;
     playerPickCounts :=
       foldl (λ counts pick, bump (HistoricalPick.batterName pick) counts)
             (playerPickCounts acc) (HistoricalPlayer.picks player) |}.

Definition stats_game (acc : StatsAcc) (game : HistoricalGame.t) : StatsAcc :=
  foldl (stats_player game) acc (HistoricalGame.players game).

Definition stats_init : StatsAcc :=
  {| allPlayerScores := []; bestScore := 0; bestGameId := None;
     playerPickCounts := [] |}.

(** The loop over [Object.entries(playerPickCounts)]: state [(maxPicks, favoritePlayer)]. *)
Definition favorite_step (acc : Z * option string) (entry : string * Z)
  : Z * option string :=
  if acc.1 <? entry.2 then (entry.2, Some entry.1) else acc.

Definition updateHistoricalStats (data : HistoricalData.t) : HistoricalData.t :=
  let games := HistoricalData.games data in
  match games with
  | [] =>
    {| HistoricalData.games := games;
       HistoricalData.stats := Stats.zero;
       HistoricalData.lastUpdated := HistoricalData.lastUpdated data |}
  | _ =>
    let acc := foldl stats_game stats_init games in
    let totalScore := foldl Z.add 0 (allPlayerScores acc) in
    (* [0 / 0] is [NaN] when no game has a player *)
    let averageScore : option Q :=
      match allPlayerScores acc with
      | [] => None
      | _ => Some (inject_Z totalScore
                   / inject_Z (Z.of_nat (length (allPlayerScores acc))))%Q
      end in
    let favoritePlayer := (foldl favorite_step (0, None) (playerPickCounts acc)).2 in
    {| HistoricalData.games := games;
       HistoricalData.stats :=
         {| Stats.totalGames := Z.of_nat (length games);
            Stats.averageScore :=
              (λ avg, inject_Z (JS.Math_round (avg * 10)) / 10)%Q <$> averageScore;
            Stats.bestScore := bestScore acc;
            Stats.bestGame := bestGameId acc;
            Stats.favoritePlayer := favoritePlayer |};
       HistoricalData.lastUpdated := HistoricalData.lastUpdated data |}
  end.

Section History.
Context `{DateRuntime}.

(** The date part of the game id; [None] when [toISOString] throws, which it
    does on an invalid date. *)
Definition gameDateOf (lineupInfo : LineupInfo.t) (now : Z) : option string :=
  match LineupInfo.gameDate lineupInfo with
  | Some s =>
    if decide (s = "") then Some (isoDate now)
    else isoDate <$> Date_parse s
  | None => Some (isoDate now)
  end.

Definition gameIdOf (gamePk : Z) (gameDate : string) : string :=
  pretty gamePk +:+ "_" +:+ gameDate.

Definition historicalPick (batters : list Batter.t) (result : PlayerPickResult.t)
  : HistoricalPick.t :=
  let batter :=
    snd <$> list_find (λ b, Batter.id b = PlayerPickResult.batterId result) batters in
  let fallback := "Batter " +:+ pretty (PlayerPickResult.batterId result) in
  {| HistoricalPick.batterId := PlayerPickResult.batterId result;
     HistoricalPick.batterName :=
       match batter with
       | Some b => if decide (Batter.name b = "") then fallback else Batter.name b
       | None => fallback
       end;
     HistoricalPick.mlbId := batter ≫= Batter.mlbId;
     HistoricalPick.points := PlayerPickResult.points result;
     HistoricalPick.basePoints := JS.or0 (PlayerPickResult.basePoints result);
     HistoricalPick.boost := JS.or0 (PlayerPickResult.boost result);
     HistoricalPick.breakdown := PlayerPickResult.breakdown result |}.

Definition historicalPlayer (batters : list Batter.t) (player : Player.t)
  : HistoricalPlayer.t :=
  {| HistoricalPlayer.name := Player.name player;
     HistoricalPlayer.picks :=
       historicalPick batters <$> default [] (Player.results player);
     HistoricalPlayer.totalScore := JS.or0 (Player.score player) |}.

(** The game object that one call builds. *)
Definition historicalGameOf
    (players : list Player.t) (batters : list Batter.t)
    (lineupInfo : LineupInfo.t) (gameStatus : string)
    (finalScore : option (Z * Z)) (gameDate : string) (now : Z)
  : HistoricalGame.t :=
  {| HistoricalGame.id := gameIdOf (LineupInfo.gamePk lineupInfo) gameDate;
     HistoricalGame.date := gameDate;
     HistoricalGame.gamePk := LineupInfo.gamePk lineupInfo;
     HistoricalGame.opponent := LineupInfo.opponent lineupInfo;
     HistoricalGame.side := LineupInfo.side lineupInfo;
     HistoricalGame.finalScore := finalScore;
     HistoricalGame.gameStatus := gameStatus;
     HistoricalGame.players := historicalPlayer batters <$> players;
     HistoricalGame.completedAt := now |}.

(** Newest first: [new Date(b.date).getTime() - new Date(a.date).getTime()]. *)
Definition byDateDesc (a b : HistoricalGame.t) : option Z :=
  js_sub (Date_parse (HistoricalGame.date b)) (Date_parse (HistoricalGame.date a)).

Definition addGameToHistory
    (players : list Player.t) (batters : list Batter.t)
    (lineupInfo : LineupInfo.t) (gameStatus : string)
    (finalScore : option (Z * Z)) (now : Z) (st : Store) : Store :=
  let historicalData := loadHistoricalData now st in
  match gameDateOf lineupInfo now with
  | None => st (* [toISOString] threw; the catch clause only logs *)
  | Some gameDate =>
    let gameId := gameIdOf (LineupInfo.gamePk lineupInfo) gameDate in
    let existingGameIndex :=
      fst <$> list_find (λ g, HistoricalGame.id g = gameId)
                        (HistoricalData.games historicalData) in
    let historicalGame :=
      historicalGameOf players batters lineupInfo gameStatus finalScore gameDate now in
    let games :=
      match existingGameIndex with
      | Some i => <[i := historicalGame]> (HistoricalData.games historicalData)
      | None => HistoricalData.games historicalData ++ [historicalGame]
      end in
    let games := Array_sort byDateDesc games in
    let historicalData :=
      updateHistoricalStats
        {| HistoricalData.games := games;
           HistoricalData.stats := HistoricalData.stats historicalData;
           HistoricalData.lastUpdated := HistoricalData.lastUpdated historicalData |} in
    saveHistoricalData historicalData now st
  end.

End History.

(** [games.slice(0, limit)]: a negative [limit] counts from the end. *)
Definition slice0 {A} (limit : Z) (l : list A) : list A :=
  if limit <? 0 then take (Z.to_nat (Z.of_nat (length l) + limit)) l
  else take (Z.to_nat limit) l.

Definition getRecentGames (limit : Z) (now : Z) (st : Store) : list HistoricalGame.t :=
  slice0 limit (HistoricalData.games (loadHistoricalData now st)).

Definition getHistoricalStats (now : Z) (st : Store) : Stats.t :=
  HistoricalData.stats (loadHistoricalData now st).

Definition clearHistoricalData (st : Store) : Store :=
  storage.removeItem HISTORY_STORAGE_KEY st.

(** ** The schedule feed, as the core reads it *)

Module SchedGame.
Record t := {
  abstractGameState : option string; (* [game.status?.abstractGameState] *)
  gameDate : option string
}.
End SchedGame.

(** The body of a schedule response after [json()]. *)
Inductive SchedJson :=
  | SNull                                (* the JSON value [null] *)
  | SNoGames                             (* [dates?.[0]?.games] is undefined *)
  | SGames (games : list SchedGame.t).

(** The outcome of one [fetch]: it throws, or it answers with a status and a
    body on which [json()] may throw ([None]). *)
Inductive Response :=
  | NetworkError
  | Resp (ok : bool) (body : option SchedJson).

Section AppStateManager.
Context `{DateRuntime}.

(** [new Date(g.gameDate).getTime()]; a missing date gives an invalid one. *)
Definition sched_time (g : SchedGame.t) : option Z :=
  SchedGame.gameDate g ≫= Date_parse.

(** Earliest first. *)
Definition byDateAsc (a b : SchedGame.t) : option Z :=
  js_sub (sched_time a) (sched_time b).

(** [isScoreViewingAllowed] (game/index.ts): [tomorrow] is the answer to the
    request for tomorrow's schedule. *)
Definition isScoreViewingAllowed (tomorrow : Response) (now : Z) : bool :=
  match tomorrow with
  | NetworkError => true
  | Resp false _ => true
  | Resp true None => true
  | Resp true (Some schedJson) =>
    let games := match schedJson with SGames gs => gs | _ => [] end in
    match Array_sort byDateAsc games with
    | [] => true (* No game tomorrow, allow viewing *)
    | earliestGame :: _ =>
      match SchedGame.gameDate earliestGame with
      | None => true
      | Some s =>
        if decide (s = "") then true
        else
          let nextGameStart := Date_parse s in
          let tenMinutesBeforeNextGame :=
            js_sub nextGameStart (Some (10 * 60 * 1000)) in
          js_lt (Some now) tenMinutesBeforeNextGame
      end
    end
  end.

(** The callback of [games.some] in [loadAppState]. *)
Definition activeOrRecent (now : Z) (game : SchedGame.t) : bool :=
  match SchedGame.abstractGameState game with
  | Some gameStatus =>
    if decide (gameStatus = "Live" ∨ gameStatus = "Preview") then true
    else if decide (gameStatus = "Final") then
      match sched_time game with
      | Some t =>
        let gameEndTime := t + 3 * 60 * 60 * 1000 in
        now - gameEndTime <=? 30 * 60 * 1000
      | None => false
      end
    else false
  | None => false
  end.

(** Reads of a snapshot's fields on whatever was parsed; a value of another
    shape has none of them. *)
Definition savedAt_of (state : parsed) : option Z :=
  match state with PAppState s => Some (AppState.savedAt s) | _ => None end.

Definition picks_length_of (state : parsed) : option Z :=
  match state with
  | PAppState s =>
    (λ p, Z.of_nat (length (Player.picks p))) <$> head (AppState.players s)
  | _ => None
  end.

Definition phase_of (state : parsed) : option Phase :=
  match state with PAppState s => Some (AppState.phase s) | _ => None end.

(** [loadAppState] (storage/index.ts). [tomorrow] and [today] are the answers
    the two schedule requests would get. The result is the restored state
    ([None] is [null]) and the store afterwards. *)
Definition loadAppState (tomorrow today : Response) (now : Z) (st : Store)
  : option parsed * Store :=
  let savedState := storage.getItem STORAGE_KEY st in
  if falsy_text savedState then (None, st)
  else
    match savedState ≫= JSON_parse with
    | None => (None, st)        (* [JSON.parse] threw *)
    | Some PNull => (None, st)  (* [state.phase] threw *)
    | Some state =>
      let maxAge := 24 * 60 * 60 * 1000 in
      (* Don't restore if state is too old *)
      if js_lt (Some maxAge) (js_sub (Some now) (savedAt_of state)) then
        (None, storage.removeItem STORAGE_KEY st)
      else
        let hasDrafted := js_lt (Some 0) (picks_length_of state) in
        let isInResultsPhase :=
          bool_decide (phase_of state = Some results ∨ phase_of state = Some live) in
        if hasDrafted && isInResultsPhase then
          let scoreViewingStillAllowed := isScoreViewingAllowed tomorrow now in
          if negb scoreViewingStillAllowed
          then (None, storage.removeItem STORAGE_KEY st)
          else (Some state, st)
        else
          match today with
          | NetworkError | Resp _ None | Resp _ (Some SNull) =>
            (Some state, st) (* the inner catch: restore anyway *)
          | Resp _ (Some SNoGames) =>
            (None, storage.removeItem STORAGE_KEY st)
          | Resp _ (Some (SGames games)) =>
            let hasActiveOrRecentGames := existsb (activeOrRecent now) games in
            if negb hasActiveOrRecentGames
            then (None, storage.removeItem STORAGE_KEY st)
            else (Some state, st)
          end
    end.

End AppStateManager.

Definition saveAppState (state : AppState.t) (now : Z) (st : Store) : Store :=
  let stateToSave := AppState.with_savedAt now state in
  storage.setItem STORAGE_KEY (JSON_stringify (PAppState stateToSave)) st.

Definition clearAppState (st : Store) : Store :=
  storage.removeItem STORAGE_KEY st.


(** ** Notions of the specification *)

(** What the specification promises of a call with three picks: the result
    maps the three picked ids to integers between 0 and 100 that add up to
    exactly 100. *)
Definition sums_to_hundred (pickedIds : list Z) (m : Boosters) : Prop :=
  ∃ a b c x y z,
    pickedIds = [a; b; c]
    ∧ m !! Some a = Some x ∧ m !! Some b = Some y ∧ m !! Some c = Some z
    ∧ 0 ≤ x ≤ 100 ∧ 0 ≤ y ≤ 100 ∧ 0 ≤ z ≤ 100
    ∧ x + y + z = 100.

(** The specification's reading of the best score: the totals of all players
    of all games, in iteration order, their maximum, and the first game in
    which a player reaches a given total. *)
Definition all_totals (games : list HistoricalGame.t) : list Z :=
  games ≫= (λ g, HistoricalPlayer.totalScore <$> HistoricalGame.players g).

Definition max_total (totals : list Z) : option Z :=
  match totals with
  | [] => None
  | t :: rest => Some (foldl Z.max t rest)
  end.

Definition first_game_reaching (m : Z) (games : list HistoricalGame.t)
  : option string :=
  (λ found, HistoricalGame.id found.2)
  <$> list_find
        (λ g, m ∈ (HistoricalPlayer.totalScore <$> HistoricalGame.players g))
        games.

(** ** The stored history and the stores the application reaches *)

(** The games list held in the store, as [loadHistoricalData] reads it. *)
Definition stored_games (st : Store) : list HistoricalGame.t :=
  match st !! HISTORY_STORAGE_KEY with
  | Some (Json (PHistory d)) => HistoricalData.games d
  | _ => []
  end.

(** The replace-or-append step of [addGameToHistory], on its own. *)
Definition upsert (game : HistoricalGame.t) (games : list HistoricalGame.t)
  : list HistoricalGame.t :=
  match fst <$> list_find (λ g, HistoricalGame.id g = HistoricalGame.id game) games with
  | Some i => <[i := game]> games
  | None => games ++ [game]
  end.

(** The stores the application can be in: any store without a readable
    history (first launch, cleared or corrupted history), and what the
    operations of the two managers make of a store they can be in.
    [saveHistoricalData] has no caller but [addGameToHistory]. *)
Inductive reachable `{DateRuntime} : Store → Prop :=
  | reach_fresh st :
      stored_games st = [] → reachable st
  | reach_addGameToHistory st players batters lineupInfo gameStatus finalScore now :
      reachable st →
      reachable (addGameToHistory players batters lineupInfo gameStatus finalScore now st)
  | reach_clearHistoricalData st :
      reachable st → reachable (clearHistoricalData st)
  | reach_saveAppState st state now :
      reachable st → reachable (saveAppState state now st)
  | reach_clearAppState st :
      reachable st → reachable (clearAppState st)
  | reach_loadAppState st tomorrow today now :
      reachable st → reachable (loadAppState tomorrow today now st).2.

(** ** Sample inputs *)

(** A batting line with three home runs and four runs batted in: four hits,
    three of them home runs, three runs scored. *)
Definition three_homers_four_rbi : Batting.t :=
  {| Batting.hits := Some 4; Batting.doubles := Some 0; Batting.triples := Some 0;
     Batting.homeRuns := Some 3; Batting.baseOnBalls := Some 0;
     Batting.strikeOuts := Some 0; Batting.groundIntoDoublePlay := Some 0;
     Batting.rbi := Some 4; Batting.runs := Some 3 |}.

(** A booster object from its entries. *)
Definition boosters_of (entries : list (Z * Z)) : Boosters :=
  list_to_map ((λ e, (Some e.1, e.2)) <$> entries).

(** A runtime that knows the date strings of the worked examples: two first
    pitches a day apart, and the day strings they are filed under. *)
Definition sample_Date_parse (s : string) : option Z :=
  if decide (s = "2025-08-31T00:10:00Z") then Some 1756599000000
  else if decide (s = "2025-09-01T00:10:00Z") then Some 1756685400000
  else if decide (s = "2025-08-31") then Some 1756598400000
  else if decide (s = "2025-09-01") then Some 1756684800000
  else None.

Definition sample_isoDate (t : Z) : string :=
  if decide (1756598400000 ≤ t < 1756684800000) then "2025-08-31"
  else if decide (1756684800000 ≤ t < 1756771200000) then "2025-09-01"
  else "1970-01-01".

Definition sampleDates : DateRuntime :=
  {| Date_parse := sample_Date_parse;
     Date_parse_empty := eq_refl;
     isoDate := sample_isoDate |}.

(** A snapshot saved at [savedAt], in a given phase, with given picks. *)
Definition sample_snapshot (phase : Phase) (picks : list Z) (savedAt : Z) : AppState.t :=
  {| AppState.phase := phase;
     AppState.batters := [];
     AppState.players :=
       [ {| Player.id := 1; Player.name := "You"; Player.picks := picks;
            Player.results := None; Player.score := None |} ];
     AppState.boosters := ∅;
     AppState.lineupInfo := None;
     AppState.gameState := "";
     AppState.inningStr := "";
     AppState.previousScores := ∅;
     AppState.previousTotalScore := 0;
     AppState.savedAt := savedAt;
     AppState.scoreViewingAllowed := None |}.

(** A finished game whose players have the given totals and no recorded picks. *)
Definition sample_game (id date : string) (gamePk : Z) (totals : list Z)
  : HistoricalGame.t :=
  {| HistoricalGame.id := id;
     HistoricalGame.date := date;
     HistoricalGame.gamePk := gamePk;
     HistoricalGame.opponent := "Guardians";
     HistoricalGame.side := home;
     HistoricalGame.finalScore := None;
     HistoricalGame.gameStatus := "Final";
     HistoricalGame.players :=
       (λ total, {| HistoricalPlayer.name := "You";
                    HistoricalPlayer.picks := [];
                    HistoricalPlayer.totalScore := total |}) <$> totals;
     HistoricalGame.completedAt := 0 |}.

Definition history_of (games : list HistoricalGame.t) : HistoricalData.t :=
  {| HistoricalData.games := games;
     HistoricalData.stats := Stats.zero;
     HistoricalData.lastUpdated := 0 |}.

(** The arguments of the two calls of the worked example: the same game,
    first while it is live with a score of 155, then final with 200. *)
Definition sample_lineup : LineupInfo.t :=
  {| LineupInfo.gamePk := 12345;
     LineupInfo.opponent := "Guardians";
     LineupInfo.side := home;
     LineupInfo.firstPitchLocal := Some "7:10 PM";
     LineupInfo.gameDate := Some "2025-08-31T00:10:00Z" |}.

Definition sample_batters : list Batter.t :=
  [ {| Batter.id := 1; Batter.name := "Byron Buxton"; Batter.mlbId := Some 621439 |};
    {| Batter.id := 2; Batter.name := "Carlos Correa"; Batter.mlbId := Some 621043 |};
    {| Batter.id := 3; Batter.name := "Jose Miranda"; Batter.mlbId := Some 669304 |} ].

Definition sample_player (score : Z) : Player.t :=
  {| Player.id := 1;
     Player.name := "You";
     Player.picks := [1; 2; 3];
     Player.results :=
       Some [ {| PlayerPickResult.batterId := 2;
                 PlayerPickResult.outcomes := [K];
                 PlayerPickResult.points := -5;
                 PlayerPickResult.breakdown := None;
                 PlayerPickResult.boost := Some 30;
                 PlayerPickResult.basePoints := Some (-5) |} ];
     Player.score := Some score |}.

(** ** Live scoring (api/index.ts, [fetchLiveGameData]) *)

(** A batting line as a well-formed feed gives it: no negative counter, and
    no more extra-base hits than hits. *)
Definition consistent_line (stats : Batting.t) : Prop :=
  0 ≤ JS.or0 (Batting.doubles stats) ∧ 0 ≤ JS.or0 (Batting.triples stats)
  ∧ 0 ≤ JS.or0 (Batting.homeRuns stats) ∧ 0 ≤ JS.or0 (Batting.baseOnBalls stats)
  ∧ 0 ≤ JS.or0 (Batting.strikeOuts stats)
  ∧ 0 ≤ JS.or0 (Batting.groundIntoDoublePlay stats)
  ∧ 0 ≤ JS.or0 (Batting.rbi stats) ∧ 0 ≤ JS.or0 (Batting.runs stats)
  ∧ JS.or0 (Batting.doubles stats) + JS.or0 (Batting.triples stats)
    + JS.or0 (Batting.homeRuns stats) ≤ JS.or0 (Batting.hits stats).

(** A player of the boxscore: [person.fullName] and [stats.batting]. *)
Record BoxPlayer := {
  fullName : option string;
  batting : option Batting.t
}.

(** One team of the boxscore: its [players] object, keyed by ["ID<playerId>"],
    and its [battingOrder], an array of player ids when it is one. *)
Record BoxTeam := {
  box_players : gmap string BoxPlayer;
  battingOrder : option (list Z)
}.

(** The live feed, as far as the core reads it. Every read of it in the
    source is an optional chain, so that a missing part, or a body that is
    [null], reads as the absent value of each field. *)
Module LiveFeed.
Record t := {
  abstractGameState : option string;    (* gameData.status.abstractGameState *)
  currentInningOrdinal : option string; (* liveData.linescore... *)
  inningState : option string;
  teams : Side → option BoxTeam;        (* liveData.boxscore.teams[side] *)
  allPlays : option (list Play)         (* liveData.plays.allPlays *)
}.
End LiveFeed.

(** The outcome of the request for the live feed: [fetch] rejects, or answers
    with a status and a body on which [json()] may reject ([None]). *)
Inductive LiveResponse :=
  | LiveRejected
  | LiveAnswer (ok : bool) (status : Z) (body : option LiveFeed.t).

(** The errors the two feed functions throw, by their messages. *)
Inductive ApiError :=
  | MissingGameId          (* 'Missing game ID. Load lineup first.' *)
  | LiveFeedHTTP (status : Z)  (* `Live feed HTTP ${status}` *)
  | ScheduleHTTP (status : Z)  (* `Schedule HTTP ${status}` *)
  | NoTwinsGame            (* 'No Twins game found for today.' *)
  | FetchRejected          (* what [fetch] rejected with *)
  | BodyRejected.          (* what [json()] rejected with *)

Record LiveGameData := {
  live_gameState : string;
  live_inningStr : string;
  battersResults : list PlayerPickResult.t
}.

(** [`ID${pid}`] *)
Definition idKey (pid : Z) : string := "ID" +:+ pretty pid.

(** [[state, inning].filter(Boolean).join(' ')] *)
Definition join_nonempty (parts : list string) : string :=
  match filter (λ s, s ≠ "") parts with
  | [] => ""
  | s :: rest => foldl (λ acc t, acc +:+ " " +:+ t) s rest
  end.

(** The callback of [playerPicks.map] in [fetchLiveGameData]. A [pid] that
    is missing or 0 is falsy. *)
Definition scorePick (playersObj : gmap string BoxPlayer) (allPlays : list Play)
    (batters : list Batter.t) (boosters : Boosters) (bId : Z)
  : PlayerPickResult.t :=
  let batter := snd <$> list_find (λ b, Batter.id b = bId) batters in
  let pid := batter ≫= Batter.mlbId in
  let key := match pid with
             | Some p => if decide (p = 0) then None else Some (idKey p)
             | None => None
             end in
  let s := match key with
           | Some k => default Batting.empty (playersObj !! k ≫= batting)
           | None => Batting.empty
           end in
  let plays := match pid with
               | Some p =>
                 if decide (p = 0) then []
                 else filter (λ play, matchup_batter_id play = Some p) allPlays
               | None => []
               end in
  let score := buildScoreFromStatsAndPlays s plays in
  let basePoints := points score in
  let boostPct := get0 boosters (Some bId) in
  let boosted :=
    if 0 <? basePoints
    then JS.Math_round (JS.mul (inject_Z basePoints) (inject_Z boostPct))
    else basePoints in
  {| PlayerPickResult.batterId := bId;
     PlayerPickResult.outcomes := outcomes score;
     PlayerPickResult.points := boosted;
     PlayerPickResult.breakdown := Some (breakdown score);
     PlayerPickResult.boost := Some boostPct;
     PlayerPickResult.basePoints := Some basePoints |}.

Definition fetchLiveGameData (response : LiveResponse)
    (lineupInfo : option LineupInfo.t) (batters : list Batter.t)
    (playerPicks : list Z) (boosters : Boosters)
  : ApiError + LiveGameData :=
  match lineupInfo with
  | None => inl MissingGameId
  | Some lineupInfo =>
    if decide (LineupInfo.gamePk lineupInfo = 0) then inl MissingGameId
    else
      match response with
      | LiveRejected => inl FetchRejected
      | LiveAnswer false status _ => inl (LiveFeedHTTP status)
      | LiveAnswer true _ None => inl BodyRejected
      | LiveAnswer true _ (Some json) =>
        let status := default "" (LiveFeed.abstractGameState json) in
        let inning := default "" (LiveFeed.currentInningOrdinal json) in
        let state := default "" (LiveFeed.inningState json) in
        let gameState := status in
        let inningStr := join_nonempty [state; inning] in
        let side := LineupInfo.side lineupInfo in
        let bx := LiveFeed.teams json side in
        let playersObj := default ∅ (box_players <$> bx) in
        let allPlays := default [] (LiveFeed.allPlays json) in
        let battersResults :=
          scorePick playersObj allPlays batters boosters <$> playerPicks in
        inr {| live_gameState := gameState;
               live_inningStr := inningStr;
               battersResults := battersResults |}
      end
  end.

(** A line with a double and a grand slam that drove in the batter's five
    runs batted in but one, a walk and a strikeout. *)
Definition one_grand_slam : Batting.t :=
  {| Batting.hits := Some 2; Batting.doubles := Some 1; Batting.triples := None;
     Batting.homeRuns := Some 1; Batting.baseOnBalls := Some 1;
     Batting.strikeOuts := Some 1; Batting.groundIntoDoublePlay := None;
     Batting.rbi := Some 5; Batting.runs := Some 2 |}.

(** A live feed that knows one batter of the home team, with the line above. *)
Definition sample_feed : LiveFeed.t :=
  {| LiveFeed.abstractGameState := Some "Live";
     LiveFeed.currentInningOrdinal := Some "5th";
     LiveFeed.inningState := Some "Top";
     LiveFeed.teams := λ side,
       match side with
       | home =>
         Some {| box_players :=
                   {[ "ID621439" := {| fullName := Some "Byron Buxton";
                                       batting := Some one_grand_slam |} ]};
                 battingOrder := None |}
       | away => None
       end;
     LiveFeed.allPlays := None |}.

(** ** Notions for the history *)

(** The time of a stored game: its date string, parsed; 0 stands in for a
    date that does not parse, and is only used where all dates do. *)
Definition game_time `{DateRuntime} (g : HistoricalGame.t) : Z :=
  default 0 (Date_parse (HistoricalGame.date g)).

Definition dates_parse `{DateRuntime} (games : list HistoricalGame.t) : Prop :=
  Forall (λ g, is_Some (Date_parse (HistoricalGame.date g))) games.

(** Newest first: no game is older than a game further down the list. *)
Definition newest_first `{DateRuntime} (games : list HistoricalGame.t) : Prop :=
  StronglySorted (λ a b, game_time b ≤ game_time a) games.

(** The batter names of all pick entries of a history, in iteration order,
    and how often a name occurs among them. *)
Definition all_pick_names (games : list HistoricalGame.t) : list string :=
  games ≫= (λ g, HistoricalGame.players g ≫=
                   (λ p, HistoricalPick.batterName <$> HistoricalPlayer.picks p)).

Definition pick_count (name : string) (names : list string) : Z :=
  Z.of_nat (length (filter (λ n, n = name) names)).

(** The exact mean of a non-empty list of totals. *)
Definition mean (totals : list Z) : Q :=
  let totalScore := foldl Z.add 0 totals in
  (inject_Z totalScore / inject_Z (Z.of_nat (length totals)))%Q.

(** The count stored for a name in the tally that [updateHistoricalStats]
    builds, 0 when the name has no entry. *)
Definition tally (counts : list (string * Z)) (name : string) : Z :=
  match list_find (λ e, e.1 = name) counts with
  | Some (_, e) => e.2
  | None => 0
  end.

(** The property names that every object inherits. The tally is a plain
    object indexed by batter names, and the model of it stands for the source
    on the names that are not among these. *)
Definition inherited_names : list string :=
  ["constructor"; "hasOwnProperty"; "isPrototypeOf"; "propertyIsEnumerable";
   "toLocaleString"; "toString"; "valueOf"; "__proto__"; "__defineGetter__";
   "__defineSetter__"; "__lookupGetter__"; "__lookupSetter__"].

(** The tally invariant: names without repetition, positive counts. *)
Definition tally_ok (counts : list (string * Z)) : Prop :=
  NoDup (counts.*1) ∧ Forall (λ e, 0 < e.2) counts.

(** A history with a given list of batter names as the picks of one player
    of one game. *)
Definition sample_picked (names : list string) : HistoricalData.t :=
  history_of
    [ {| HistoricalGame.id := "1_2025-08-31";
         HistoricalGame.date := "2025-08-31";
         HistoricalGame.gamePk := 1;
         HistoricalGame.opponent := "Guardians";
         HistoricalGame.side := home;
         HistoricalGame.finalScore := None;
         HistoricalGame.gameStatus := "Final";
         HistoricalGame.players :=
           [ {| HistoricalPlayer.name := "You";
                HistoricalPlayer.picks :=
                  (λ n, {| HistoricalPick.batterId := 1;
                           HistoricalPick.batterName := n;
                           HistoricalPick.mlbId := None;
                           HistoricalPick.points := 0;
                           HistoricalPick.basePoints := 0;
                           HistoricalPick.boost := 0;
                           HistoricalPick.breakdown := None |}) <$> names;
                HistoricalPlayer.totalScore := 0 |} ];
         HistoricalGame.completedAt := 0 |} ].

(** ** Game state management (game/index.ts) *)

(** This module re-exports [saveAppState] and [clearAppState], holds
    [isScoreViewingAllowed] (modelled above, where [loadAppState] of the
    storage module needs it), and has a [loadAppState] of its own, which
    differs from the one of the storage module in how it treats a finished
    game. *)
Module game.
Section Game.
Context `{DateRuntime}.

(** The wrapper passes the game date only, so the clock is read. *)
Definition isDraftingAllowed (gameDate : option string) (clock : Z) : bool :=
  isDraftingAllowed gameDate None clock.

(** The callback of [games.some]: a finished game counts while its start is
    less than thirty minutes back. *)
Definition activeOrRecent (now : Z) (game : SchedGame.t) : bool :=
  match SchedGame.abstractGameState game with
  | Some gameStatus =>
    if decide (gameStatus = "Live" ∨ gameStatus = "Preview") then true
    else if decide (gameStatus = "Final") then
      let gameEndTime : Date := sched_time game in
      let thirtyMinutesAgo : Date := Some (now - 30 * 60 * 1000) in
      js_lt thirtyMinutesAgo gameEndTime
    else false
  | None => false
  end.

Definition loadAppState (tomorrow today : Response) (now : Z) (st : Store)
  : option parsed * Store :=
  let savedState := storage.getItem "pick3_app_state" st in
  if falsy_text savedState then (None, st)
  else
    match savedState ≫= JSON_parse with
    | None => (None, st)
    | Some PNull => (None, st)
    | Some state =>
      let maxAge := 24 * 60 * 60 * 1000 in
      if js_lt (Some maxAge) (js_sub (Some now) (savedAt_of state)) then
        (None, storage.removeItem "pick3_app_state" st)
      else
        let hasDrafted := js_lt (Some 0) (picks_length_of state) in
        let isInResultsPhase :=
          bool_decide (phase_of state = Some results ∨ phase_of state = Some live) in
        if hasDrafted && isInResultsPhase then
          let scoreViewingStillAllowed := isScoreViewingAllowed tomorrow now in
          if negb scoreViewingStillAllowed
          then (None, storage.removeItem "pick3_app_state" st)
          else (Some state, st)
        else
          match today with
          | NetworkError | Resp _ None | Resp _ (Some SNull) =>
            (Some state, st)
          | Resp _ (Some SNoGames) =>
            (None, storage.removeItem "pick3_app_state" st)
          | Resp _ (Some (SGames games)) =>
            let hasActiveOrRecentGames := existsb (activeOrRecent now) games in
            if negb hasActiveOrRecentGames
            then (None, storage.removeItem "pick3_app_state" st)
            else (Some state, st)
          end
    end.

End Game.
End game.

(** A snapshot that [loadAppState] does not hold against the score-viewing
    window: its player has no pick yet, or it is not in the live or results
    phase. *)
Definition not_viewing_results (state : AppState.t) : Prop :=
  (∀ p, head (AppState.players state) = Some p → Player.picks p = [])
  ∨ (AppState.phase state ≠ results ∧ AppState.phase state ≠ live).

(** A game of the schedule feed with a status and a start. *)
Definition sched_game (status gameDate : string) : SchedGame.t :=
  {| SchedGame.abstractGameState := Some status;
     SchedGame.gameDate := Some gameDate |}.

(** ** The draft and the sliders (App.tsx) *)

(** The part of the component's state that the draft handlers read and set.
    A handler is a function on this state: it sees the state of the render
    it was created in, and the model applies the handlers one after the
    other, each to the state the one before left. *)
Module App.
Record state := {
  phase : Phase;
  players : list Player.t;
  boosters : Boosters;
  lineupInfo : option LineupInfo.t
}.

Definition PICKS_PER_PLAYER : nat := 3.

(** The initial values of the [useState] hooks. *)
Definition initial : state :=
  {| phase := setup;
     players := [ {| Player.id := 1; Player.name := "You"; Player.picks := [];
                     Player.results := None; Player.score := None |} ];
     boosters := ∅;
     lineupInfo := None |}.

(** [players[0]?.picks ?? []] *)
Definition pickedIds (s : state) : list Z :=
  match head (players s) with
  | Some p => Player.picks p
  | None => []
  end.

(** [isDraftingAllowed(lineupInfo?.gameDate)], with the clock of the render. *)
Definition draftingAllowed `{DateRuntime} (clock : Z) (s : state) : bool :=
  isDraftingAllowed (lineupInfo s ≫= LineupInfo.gameDate) None clock.

Definition togglePick `{DateRuntime} (batterId : Z) (clock : Z) (s : state) : state :=
  if negb (draftingAllowed clock s) then s
  else
    match players s with
    | [] => s
    | p :: _ =>
      let hasIt := bool_decide (batterId ∈ Player.picks p) in
      let nextPicks :=
        if hasIt then filter (λ id, id ≠ batterId) (Player.picks p)
        else Player.picks p ++ [batterId] in
      if negb hasIt && (PICKS_PER_PLAYER <? length nextPicks)%nat then s
      else
        (* prune boosters if a pick is removed *)
        let copy := boosters s in
        let copy := if hasIt then delete (Some batterId) copy else copy in
        {| phase := phase s;
           players := [ {| Player.id := Player.id p; Player.name := Player.name p;
                           Player.picks := nextPicks;
                           Player.results := Player.results p;
                           Player.score := Player.score p |} ];
           boosters := copy;
           lineupInfo := lineupInfo s |}
    end.

Definition startDraft (s : state) : state :=
  {| phase := draft;
     players :=
       (λ p, {| Player.id := Player.id p; Player.name := Player.name p;
                Player.picks := []; Player.results := None;
                Player.score := None |}) <$> players s;
     boosters := ∅;
     lineupInfo := lineupInfo s |}.

Definition finishDraft (s : state) : state :=
  match head (players s) with
  | None => s
  | Some p =>
    if negb (length (Player.picks p) =? PICKS_PER_PLAYER)%nat then s
    else
      (* Pre-fill boosters evenly (34/33/33) *)
      let even := [34; 33; 33] in
      let alloc : Boosters :=
        foldl (λ alloc e, <[Some e.2 := default 0 (even !! e.1)]> alloc) ∅
              (imap (λ idx id, (idx, id)) (Player.picks p)) in
      {| phase := play;
         players := players s;
         boosters := alloc;
         lineupInfo := lineupInfo s |}
  end.

(** The slider handler; it holds a copy of the body of
    [normalizeBoostersToHundred]. The local object [cur] is written and
    never read. *)
Definition setBoosterWithNormalization
    (targetId : Z) (rawValue : Q) (s : state) : state :=
  let picks := pickedIds s in
  match picks with
  | [a; b; c] =>
    let ids := [a; b; c] in
    let clamped := Z.max 0 (Z.min 100 (JS.Math_round rawValue)) in
    let others := filter (λ id, id ≠ targetId) ids in
    let remaining := 100 - clamped in
    let otherSum :=
      get0 (boosters s) (others !! 0%nat) + get0 (boosters s) (others !! 1%nat) in
    let newOther1 :=
      if otherSum <=? 0
      then JS.Math_floor (inject_Z remaining / 2)%Q
      else JS.Math_round
             (inject_Z (remaining * get0 (boosters s) (others !! 0%nat))
              / inject_Z otherSum)%Q in
    let newOther2 := remaining - newOther1 in
    let next := boosters s in
    let next := <[Some targetId := clamped]> next in
    let next := <[others !! 0%nat := newOther1]> next in
    let next := <[others !! 1%nat := newOther2]> next in
    {| phase := phase s;
       players := players s;
       boosters := next;
       lineupInfo := lineupInfo s |}
  | _ => s
  end.

(** A run of taps on batters, each with the clock of its render, and a run
    of slider moves. *)
Definition toggles `{DateRuntime} (taps : list (Z * Z)) (s : state) : state :=
  foldl (λ s tap, togglePick tap.1 tap.2 s) s taps.

Definition slides (moves : list (Z * Q)) (s : state) : state :=
  foldl (λ s move, setBoosterWithNormalization move.1 move.2 s) s moves.
End App.

(** * Properties *)

(** ** JavaScript arithmetic *)

Lemma Math_round_Z (n : Z) : JS.Math_round (inject_Z n) = n.
Proof.
  unfold JS.Math_round, Qfloor, inject_Z, Qplus; simpl.
  rewrite Z.mul_1_r.
  replace (n * 2 + 1) with (1 + n * 2) by lia.
  rewrite Z.div_add by lia. reflexivity.
Qed.

Lemma round_half_even_1 (n : Z) : JS.round_half_even n 1 = n.
Proof.
  unfold JS.round_half_even. rewrite Z.mod_1_r, Z.div_1_r. reflexivity.
Qed.

(** A double holds every integer up to [2^53] exactly. *)
Lemma to_double_Z (n : Z) :
  Z.abs n ≤ 2 ^ 53 → (JS.to_double (inject_Z n) == inject_Z n)%Q.
Proof.
  intros Hn. unfold JS.to_double. cbn [Qnum Qden inject_Z].
  destruct (Z.abs n =? 0) eqn:Hzero.
  { apply Z.eqb_eq in Hzero. assert (n = 0) as -> by lia. reflexivity. }
  apply Z.eqb_neq in Hzero.
  set (a := Z.abs n) in *.
  assert (Ha : 0 < a) by (unfold a in *; lia).
  pose proof (Z.log2_spec a Ha) as [Hlo Hhi].
  pose proof (Z.log2_nonneg a) as Hnn.
  assert (Hlog : Z.log2 a ≤ 53).
  { change 53 with (Z.log2 (2 ^ 53)). apply Z.log2_le_mono. exact Hn. }
  assert (Hilog : JS.ilog2 a 1 = Z.log2 a).
  { unfold JS.ilog2. change (Z.log2 1) with 0. rewrite Z.sub_0_r.
    replace (0 <=? Z.log2 a) with true by (symmetry; apply Z.leb_le; lia).
    rewrite Z.mul_1_l.
    replace (2 ^ Z.log2 a <=? a) with true by (symmetry; apply Z.leb_le; lia).
    reflexivity. }
  rewrite Hilog.
  replace (Z.max (Z.log2 a - 52) (-1074)) with (Z.log2 a - 52) by lia.
  set (s := Z.log2 a - 52).
  assert (Hv : (inject_Z (if 0 <=? s then JS.round_half_even a (1 * 2 ^ s)
                          else JS.round_half_even (a * 2 ^ (- s)) 1) * 2 ^ s
                == inject_Z a)%Q).
  { destruct (0 <=? s) eqn:Hs.
    - apply Z.leb_le in Hs.
      assert (Hcase : s = 0 ∨ (s = 1 ∧ a = 2 ^ 53)).
      { destruct (Z.eq_dec s 0) as [H0 | H0]; [now left | right].
        assert (Hl : Z.log2 a = 53) by (unfold s in *; lia).
        rewrite Hl in Hlo. split; [unfold s; lia | lia]. }
      destruct Hcase as [-> | [-> ->]].
      + rewrite Z.mul_1_l. change (2 ^ 0) with 1. rewrite round_half_even_1.
        change (2 ^ 0)%Q with 1%Q. ring.
      + vm_compute. reflexivity.
    - apply Z.leb_gt in Hs. rewrite round_half_even_1.
      rewrite inject_Z_mult.
      rewrite (Zpower_Qpower 2 (- s)) by lia.
      change (inject_Z 2) with 2%Q.
      rewrite <- Qmult_assoc, <- Qpower_plus by discriminate.
      replace (- s + s) with 0 by lia. change (2 ^ 0)%Q with 1%Q. ring. }
  destruct (n <? 0) eqn:Hneg.
  - apply Z.ltb_lt in Hneg. rewrite Hv. unfold a.
    rewrite Z.abs_neq by lia. rewrite inject_Z_opp. ring.
  - apply Z.ltb_ge in Hneg. rewrite Hv. unfold a.
    rewrite Z.abs_eq by lia. reflexivity.
Qed.

(** The product of two integers is exact as long as it is an integer that a
    double holds. *)
Lemma Math_round_mul_Z (a b : Z) :
  Z.abs (a * b) ≤ 2 ^ 53 →
  JS.Math_round (JS.mul (inject_Z a) (inject_Z b)) = a * b.
Proof.
  intros Hab.
  transitivity (JS.Math_round (inject_Z (a * b))); [| apply Math_round_Z].
  unfold JS.Math_round. apply Qfloor_comp.
  unfold JS.mul. change (inject_Z a * inject_Z b)%Q with (inject_Z (a * b)).
  rewrite (to_double_Z (a * b) Hab). reflexivity.
Qed.

(** [Math.floor] of a quotient of integers with a positive divisor. *)
Lemma Math_floor_div (p q : Z) :
  0 < q → JS.Math_floor (inject_Z p / inject_Z q)%Q = p / q.
Proof.
  intros Hq. destruct q as [|q|q]; try lia.
  unfold JS.Math_floor, Qfloor, Qdiv, Qmult, Qinv, inject_Z; simpl.
  rewrite Z.mul_1_r. reflexivity.
Qed.


(** [Math.round] of a quotient of integers with a positive divisor. *)
Lemma Math_round_div (p q : Z) :
  0 < q → JS.Math_round (inject_Z p / inject_Z q)%Q = (2 * p + q) / (2 * q).
Proof.
  intros Hq. destruct q as [|q|q]; try lia.
  unfold JS.Math_round, Qfloor, Qdiv, Qmult, Qinv, Qplus, inject_Z; simpl.
  rewrite Z.mul_1_r. f_equal; lia.
Qed.

(** ** ScoringEngine *)

(** C2. [applyBoost] rounds the product of the base points and the factor,
    as doubles multiply, for positive base points, and leaves non-positive
    base points alone, whatever the factor. An integer percent multiplies
    positive base points by itself, as long as the product is an integer
    that a double holds (100 gives a hundredfold score), and the
    live-scoring path applies the stored percent that way. *)
Theorem applyBoost_spec (basePoints : Z) (boostFactor : Q) :
  (0 < basePoints →
   applyBoost basePoints boostFactor
   = JS.Math_round (JS.to_double (inject_Z basePoints * boostFactor)%Q))
  ∧ (basePoints ≤ 0 → applyBoost basePoints boostFactor = basePoints)
  ∧ (∀ p : Z, 0 < basePoints → Z.abs (basePoints * p) ≤ 2 ^ 53 →
       applyBoost basePoints (inject_Z p) = basePoints * p
       ∧ liveBoosted basePoints p = basePoints * p)
  ∧ (0 < basePoints → basePoints * 100 ≤ 2 ^ 53 →
     applyBoost basePoints (inject_Z 100) = basePoints * 100).
Proof.
  unfold applyBoost, liveBoosted. split; [| split; [| split]].
  - intros Hpos. apply Z.ltb_lt in Hpos. now rewrite Hpos.
  - intros Hle. apply Z.ltb_ge in Hle. now rewrite Hle.
  - intros p Hpos Hfit. apply Z.ltb_lt in Hpos. rewrite Hpos.
    split; apply Math_round_mul_Z, Hfit.
  - intros Hpos Hfit. pose proof Hpos as Hlt. apply Z.ltb_lt in Hlt.
    rewrite Hlt. apply Math_round_mul_Z. lia.
Qed.

Lemma applyBoost_spec_witness :
  applyBoost 67 (3 # 2) = 101
  ∧ applyBoost (-50) (3 # 2) = -50
  ∧ applyBoost 20 (inject_Z 33) = 660
  ∧ applyBoost 20 (inject_Z 100) = 2000.
Proof.
  destruct (applyBoost_spec 67 (3 # 2)) as [Hpos _].
  destruct (applyBoost_spec (-50) (3 # 2)) as [_ [Hneg _]].
  destruct (applyBoost_spec 20 (inject_Z 33)) as [_ [_ [Hpct Hcent]]].
  split; [| split; [| split]].
  - rewrite Hpos by lia. vm_compute. reflexivity.
  - apply Hneg. lia.
  - destruct (Hpct 33) as [Heq _]; [lia | vm_compute; discriminate |].
    rewrite Heq. reflexivity.
  - rewrite Hcent; [reflexivity | lia | vm_compute; discriminate].
Defined.

(** The point table, written out. *)
Lemma calculateBasePoints_table (b : ScoreBreakdown) :
  calculateBasePoints b
  = 10 * singles b + 20 * doubles b + 30 * triples b
    + 40 * hr_solo b + 45 * hr_2r b + 50 * hr_3r b + 80 * hr_gs b
    + 5 * walks b + 5 * hbp b + 15 * rbi_non_hr b + 15 * runs_non_hr b
    - 5 * strikeouts b - 10 * gidp b + 2 * fielders_choice b.
Proof.
  unfold calculateBasePoints, PTS.SINGLE, PTS.DOUBLE, PTS.TRIPLE,
    PTS.HR_SOLO, PTS.HR_2R, PTS.HR_3R, PTS.HR_GS, PTS.WALK, PTS.HBP,
    PTS.RBI_NON_HR, PTS.RUN_NON_HR, PTS.K, PTS.GIDP, PTS.FC. lia.
Qed.

(** C4. [calculateBasePoints] is the linear combination of the fourteen
    counters with the weights of the point table, and it is not clamped: some
    breakdown scores below zero. *)
Theorem calculateBasePoints_linear :
  (∀ b : ScoreBreakdown,
     calculateBasePoints b
     = 10 * singles b + 20 * doubles b + 30 * triples b
       + 40 * hr_solo b + 45 * hr_2r b + 50 * hr_3r b + 80 * hr_gs b
       + 5 * walks b + 5 * hbp b + 15 * rbi_non_hr b + 15 * runs_non_hr b
       - 5 * strikeouts b - 10 * gidp b + 2 * fielders_choice b)
  ∧ (∃ b : ScoreBreakdown, calculateBasePoints b < 0).
Proof.
  split.
  - apply calculateBasePoints_table.
  - exists {| singles := 0; doubles := 0; triples := 0; hr_solo := 0; hr_2r := 0;
              hr_3r := 0; hr_gs := 0; walks := 0; hbp := 0; rbi_non_hr := 0;
              runs_non_hr := 0; strikeouts := 3; gidp := 2; fielders_choice := 0 |}.
    reflexivity.
Qed.

(** What the code subtracts from the total RBI is the number of home runs
    times the credited RBI of the specification, not the credited RBI. *)
Lemma buildScore_rbi_non_hr (stats : Batting.t) (plays : list Play) :
  let b := breakdown (buildScoreFromStatsAndPlays stats plays) in
  rbi_non_hr b
  = Z.max 0 (JS.or0 (Batting.rbi stats)
             - JS.or0 (Batting.homeRuns stats) * spec_creditedRBI b).
Proof.
  unfold buildScoreFromStatsAndPlays, spec_creditedRBI.
  destruct (0 <? JS.or0 (Batting.homeRuns stats)); [| simpl; f_equal; lia].
  repeat match goal with
         | |- context [if Qle_bool ?x ?y then _ else _] => destruct (Qle_bool x y)
         end; simpl; f_equal; lia.
Qed.

(** The home runs of a line all go to one class, the whole count at once. *)
Lemma buildScore_hr_total (stats : Batting.t) (plays : list Play) :
  let b := breakdown (buildScoreFromStatsAndPlays stats plays) in
  hr_solo b + hr_2r b + hr_3r b + hr_gs b
  = Z.max 0 (JS.or0 (Batting.homeRuns stats)).
Proof.
  unfold buildScoreFromStatsAndPlays.
  destruct (0 <? JS.or0 (Batting.homeRuns stats)) eqn:Hhr.
  - apply Z.ltb_lt in Hhr.
    repeat match goal with
           | |- context [if Qle_bool ?x ?y then _ else _] => destruct (Qle_bool x y)
           end; simpl; lia.
  - apply Z.ltb_ge in Hhr. simpl. lia.
Qed.

(** C3. On a line with three home runs and four RBI the home runs are classed
    as solo, so one RBI is not a home-run RBI; the code reports none, because
    it subtracts 3 * 3 instead of 3. *)
Theorem buildScore_rbi_non_hr_three_homers :
  let b := breakdown (buildScoreFromStatsAndPlays three_homers_four_rbi []) in
  hr_solo b = 3 ∧ hr_2r b = 0 ∧ hr_3r b = 0 ∧ hr_gs b = 0
  ∧ rbi_non_hr b = 0
  ∧ Z.max 0 (JS.or0 (Batting.rbi three_homers_four_rbi) - spec_creditedRBI b) = 1.
Proof. vm_compute. repeat split. Qed.

(** C9. The points returned by the scoring pass are the base points of the
    breakdown it returns. *)
Theorem buildScore_points_consistent (stats : Batting.t) (plays : list Play) :
  points (buildScoreFromStatsAndPlays stats plays)
  = calculateBasePoints (breakdown (buildScoreFromStatsAndPlays stats plays)).
Proof. reflexivity. Qed.

(** C10. The scoring pass never counts a hit-by-pitch or a fielder's choice:
    both counters are 0 in every breakdown it returns, and the points are the
    combination of the other twelve counters alone. *)
Theorem buildScore_hbp_fc_zero (stats : Batting.t) (plays : list Play) :
  let s := buildScoreFromStatsAndPlays stats plays in
  let b := breakdown s in
  hbp b = 0 ∧ fielders_choice b = 0
  ∧ points s
    = 10 * singles b + 20 * doubles b + 30 * triples b
      + 40 * hr_solo b + 45 * hr_2r b + 50 * hr_3r b + 80 * hr_gs b
      + 5 * walks b + 15 * rbi_non_hr b + 15 * runs_non_hr b
      - 5 * strikeouts b - 10 * gidp b.
Proof.
  assert (Hz : hbp (breakdown (buildScoreFromStatsAndPlays stats plays)) = 0
               ∧ fielders_choice (breakdown (buildScoreFromStatsAndPlays stats plays)) = 0).
  { unfold buildScoreFromStatsAndPlays.
    destruct (0 <? JS.or0 (Batting.homeRuns stats)); [| split; reflexivity].
    repeat match goal with
           | |- context [if Qle_bool ?x ?y then _ else _] => destruct (Qle_bool x y)
           end; split; reflexivity. }
  destruct Hz as [Hh Hf]. cbv zeta. split; [exact Hh | split; [exact Hf |]].
  change (points (buildScoreFromStatsAndPlays stats plays))
    with (calculateBasePoints (breakdown (buildScoreFromStatsAndPlays stats plays))).
  rewrite calculateBasePoints_table, Hh, Hf. lia.
Qed.

(** ** TimeGate *)

Lemma js_lt_Some (a b : Z) : js_lt (Some a) (Some b) = true ↔ a < b.
Proof. simpl. apply Z.ltb_lt. Qed.

(** C8. Drafting is allowed when there is no game date or when it does not
    parse; with a game start it is allowed exactly while the current time,
    passed in or read from the clock, is strictly before five minutes after
    the start. *)
Theorem isDraftingAllowed_spec `{DateRuntime}
    (currentTime : option Date) (clock : Z) :
  isDraftingAllowed None currentTime clock = true
  ∧ (∀ s, Date_parse s = None →
       isDraftingAllowed (Some s) currentTime clock = true)
  ∧ (∀ s gameStart now,
       Date_parse s = Some gameStart →
       (isDraftingAllowed (Some s) (Some (Some now)) clock = true
        ↔ now < gameStart + 5 * 60 * 1000)
       ∧ (isDraftingAllowed (Some s) None clock = true
          ↔ clock < gameStart + 5 * 60 * 1000)).
Proof.
  split; [reflexivity | split].
  - intros s Hs. unfold isDraftingAllowed.
    destruct (decide (s = "")); [reflexivity |]. now rewrite Hs.
  - intros s gameStart now Hs.
    assert (Hne : s ≠ "").
    { intros ->. rewrite Date_parse_empty in Hs. discriminate. }
    unfold isDraftingAllowed.
    destruct (decide (s = "")) as [? | _]; [contradiction |].
    rewrite Hs. split; apply js_lt_Some.
Qed.

Lemma isDraftingAllowed_spec_witness :
  let T := 1756599000000 in
  let start := Some "2025-08-31T00:10:00Z" in
  @isDraftingAllowed sampleDates (Some "not a date") None T = true
  ∧ @isDraftingAllowed sampleDates start (Some (Some T)) 0 = true
  ∧ @isDraftingAllowed sampleDates start (Some (Some (T + 299000))) 0 = true
  ∧ @isDraftingAllowed sampleDates start (Some (Some (T + 300000))) 0 = false
  ∧ @isDraftingAllowed sampleDates start (Some (Some (T + 301000))) 0 = false.
Proof.
  intros T start.
  destruct (@isDraftingAllowed_spec sampleDates None T) as [_ [Hbad _]].
  destruct (@isDraftingAllowed_spec sampleDates None 0) as [_ [_ Hgate]].
  pose proof (Hgate "2025-08-31T00:10:00Z" T) as Hat.
  split; [apply Hbad; reflexivity |].
  split; [apply (Hat T); [reflexivity | lia] |].
  split; [apply (Hat (T + 299000)); [reflexivity | unfold T; lia] |].
  split; apply not_true_is_false; intros Hyes.
  - apply (Hat (T + 300000)) in Hyes; [unfold T in Hyes; lia | reflexivity].
  - apply (Hat (T + 301000)) in Hyes; [unfold T in Hyes; lia | reflexivity].
Defined.

(** ** AppStateManager *)

(** C7. A snapshot older than 24 hours is removed from the store and nothing
    is restored, whatever its phase and contents and whatever the feed
    answers; with no stored text, or text that does not parse, nothing is
    restored either and the store is left as it is. The function is total:
    it returns on every input. *)
Theorem loadAppState_stale_or_missing `{DateRuntime}
    (tomorrow today : Response) (now : Z) (st : Store) :
  (∀ s : AppState.t,
     st !! STORAGE_KEY = Some (Json (PAppState s)) →
     now - AppState.savedAt s > 24 * 60 * 60 * 1000 →
     loadAppState tomorrow today now st = (None, delete STORAGE_KEY st)
     ∧ (loadAppState tomorrow today now st).2 !! STORAGE_KEY = None)
  ∧ (st !! STORAGE_KEY = None →
     loadAppState tomorrow today now st = (None, st))
  ∧ (st !! STORAGE_KEY = Some Unparseable →
     loadAppState tomorrow today now st = (None, st)).
Proof.
  unfold loadAppState, storage.getItem, storage.removeItem.
  split; [| split].
  - intros s Hs Hage. rewrite Hs. simpl.
    assert (Hlt : (24 * 60 * 60 * 1000 <? now - AppState.savedAt s) = true)
      by (apply Z.ltb_lt; lia).
    rewrite Hlt. split; [reflexivity |]. simpl. apply lookup_delete_eq.
  - intros Hs. rewrite Hs. reflexivity.
  - intros Hs. rewrite Hs. reflexivity.
Qed.

Lemma loadAppState_stale_or_missing_witness :
  let now := 1756599000000 in
  let old := sample_snapshot results [1; 2; 3] (now - 86400001) in
  let st : Store := {[ STORAGE_KEY := Json (PAppState old) ]} in
  let garbled : Store := {[ STORAGE_KEY := Unparseable ]} in
  @loadAppState sampleDates NetworkError NetworkError now st = (None, ∅)
  ∧ @loadAppState sampleDates NetworkError NetworkError now ∅ = (None, ∅)
  ∧ @loadAppState sampleDates NetworkError NetworkError now garbled = (None, garbled).
Proof.
  intros now old st garbled.
  destruct (@loadAppState_stale_or_missing sampleDates NetworkError NetworkError now st)
    as [Hold _].
  destruct (@loadAppState_stale_or_missing sampleDates NetworkError NetworkError now ∅)
    as [_ [Hnone _]].
  destruct (@loadAppState_stale_or_missing sampleDates NetworkError NetworkError now garbled)
    as [_ [_ Hbad]].
  split; [| split].
  - assert (Hage : now - AppState.savedAt old > 24 * 60 * 60 * 1000)
      by (simpl; unfold now; lia).
    destruct (Hold old eq_refl Hage) as [Heq _].
    rewrite Heq. reflexivity.
  - apply Hnone. reflexivity.
  - apply Hbad. reflexivity.
Defined.

(** An empty text counts as absent, and a text that parses to [null] ends in
    the same catch clause as one that does not parse. *)
Lemma loadAppState_empty_or_null `{DateRuntime}
    (tomorrow today : Response) (now : Z) (st : Store) :
  st !! STORAGE_KEY = Some EmptyText ∨ st !! STORAGE_KEY = Some (Json PNull) →
  loadAppState tomorrow today now st = (None, st).
Proof.
  unfold loadAppState, storage.getItem. intros [Hs | Hs]; rewrite Hs; reflexivity.
Qed.

(** A snapshot within its 24 hours is not discarded for its age: under a feed
    that cannot be reached it is restored as it is, at exactly 24 hours too. *)
Lemma loadAppState_fresh_offline `{DateRuntime} (now : Z) (st : Store) (s : AppState.t) :
  st !! STORAGE_KEY = Some (Json (PAppState s)) →
  now - AppState.savedAt s ≤ 24 * 60 * 60 * 1000 →
  loadAppState NetworkError NetworkError now st = (Some (PAppState s), st).
Proof.
  intros Hs Hage. unfold loadAppState, storage.getItem. rewrite Hs. simpl.
  assert (Hlt : (24 * 60 * 60 * 1000 <? now - AppState.savedAt s) = false)
    by (apply Z.ltb_ge; lia).
  rewrite Hlt. destruct (_ && _); reflexivity.
Qed.

(** ** BoostAllocator *)

Lemma clamp_bounds (r : Z) : 0 ≤ Z.max 0 (Z.min 100 r) ≤ 100.
Proof. lia. Qed.

Lemma newOther1_bounds (remaining cur0 cur1 : Z) :
  0 ≤ remaining → 0 ≤ cur0 → 0 ≤ cur1 →
  0 ≤ (if cur0 + cur1 <=? 0
       then JS.Math_floor (inject_Z remaining / 2)%Q
       else JS.Math_round (inject_Z (remaining * cur0) / inject_Z (cur0 + cur1))%Q)
    ≤ remaining.
Proof.
  intros Hr H0 H1.
  destruct (cur0 + cur1 <=? 0) eqn:Hsum.
  - change 2%Q with (inject_Z 2). rewrite Math_floor_div by lia.
    split; [apply Z.div_pos; lia | apply Z.div_le_upper_bound; lia].
  - apply Z.leb_gt in Hsum. rewrite Math_round_div by lia.
    split.
    + apply Z.div_pos; nia.
    + apply Z.lt_succ_r. apply Z.div_lt_upper_bound; nia.
Qed.

(** The result of a call whose target is one of three distinct picks. *)
Lemma normalize_others (targetId o1 o2 : Z) (rawValue : Q) (pickedIds : list Z)
    (currentBoosters : Boosters) :
  length pickedIds = 3%nat →
  filter (λ id, id ≠ targetId) pickedIds = [o1; o2] →
  let clamped := Z.max 0 (Z.min 100 (JS.Math_round rawValue)) in
  let remaining := 100 - clamped in
  let cur0 := get0 currentBoosters (Some o1) in
  let cur1 := get0 currentBoosters (Some o2) in
  let newOther1 :=
    if cur0 + cur1 <=? 0
    then JS.Math_floor (inject_Z remaining / 2)%Q
    else JS.Math_round (inject_Z (remaining * cur0) / inject_Z (cur0 + cur1))%Q in
  normalizeBoostersToHundred targetId rawValue pickedIds currentBoosters
  = <[Some o2 := remaining - newOther1]>
      (<[Some o1 := newOther1]> (<[Some targetId := clamped]> currentBoosters)).
Proof.
  intros Hlen Hothers.
  destruct pickedIds as [|a [|b [|c [|d rest]]]]; try discriminate.
  unfold normalizeBoostersToHundred. rewrite Hothers. reflexivity.
Qed.

(** The target and the two other picks, when the target is one of three
    distinct picks. *)
Lemma three_picks_distinct (t o1 o2 : Z) (pickedIds : list Z) :
  NoDup pickedIds →
  pickedIds = [t; o1; o2] ∨ pickedIds = [o1; t; o2] ∨ pickedIds = [o1; o2; t] →
  t ≠ o1 ∧ t ≠ o2 ∧ o1 ≠ o2 ∧ o1 ∈ pickedIds ∧ o2 ∈ pickedIds.
Proof.
  intros Hnd Hshape.
  destruct Hshape as [-> | [-> | ->]];
    apply NoDup_cons in Hnd as [Hx Hnd]; apply NoDup_cons in Hnd as [Hy _];
    apply not_elem_of_cons in Hx as [Hx1 Hx2];
    apply not_elem_of_cons in Hx2 as [Hx2 _];
    apply not_elem_of_cons in Hy as [Hy _];
    rewrite !elem_of_cons;
    (split; [congruence | split; [congruence | split; [congruence | auto]]]).
Qed.

Lemma others_of_three (t o1 o2 : Z) (pickedIds : list Z) :
  NoDup pickedIds →
  pickedIds = [t; o1; o2] ∨ pickedIds = [o1; t; o2] ∨ pickedIds = [o1; o2; t] →
  filter (λ id, id ≠ t) pickedIds = [o1; o2].
Proof.
  intros Hnd Hshape.
  destruct (three_picks_distinct t o1 o2 pickedIds Hnd Hshape) as (Hd1 & Hd2 & _).
  destruct Hshape as [-> | [-> | ->]]; cbn [filter list_filter];
    rewrite (decide_False (P := t ≠ t)) by (intros Hne; now apply Hne);
    rewrite (decide_True (P := o1 ≠ t)) by congruence;
    rewrite (decide_True (P := o2 ≠ t)) by congruence; reflexivity.
Qed.

(** C1, as the code has it. When the three picks are distinct, the target is
    one of them and the current values of the two other picks are not
    negative, the result maps the three picks to integers between 0 and 100
    that add up to exactly 100, for every raw value, in range or not, integer
    or not. *)
Theorem normalize_sums_to_hundred
    (targetId : Z) (rawValue : Q) (a b c : Z) (currentBoosters : Boosters) :
  NoDup [a; b; c] →
  targetId ∈ [a; b; c] →
  (∀ id, id ∈ [a; b; c] → id ≠ targetId → 0 ≤ get0 currentBoosters (Some id)) →
  sums_to_hundred [a; b; c]
    (normalizeBoostersToHundred targetId rawValue [a; b; c] currentBoosters).
Proof.
  intros Hnd Hin Hnn.
  pose proof (clamp_bounds (JS.Math_round rawValue)) as Hcl.
  assert (Hshape : ∃ o1 o2,
            ([a; b; c] = [targetId; o1; o2] ∨ [a; b; c] = [o1; targetId; o2]
             ∨ [a; b; c] = [o1; o2; targetId])).
  { rewrite !elem_of_cons in Hin. destruct Hin as [-> | [-> | [-> | Hnil]]].
    - exists b, c. auto.
    - exists a, c. auto.
    - exists a, b. auto.
    - apply elem_of_nil in Hnil. contradiction. }
  destruct Hshape as (o1 & o2 & Hshape).
  pose proof (others_of_three targetId o1 o2 [a; b; c] Hnd Hshape) as Hothers.
  rewrite (normalize_others targetId o1 o2 rawValue [a; b; c] currentBoosters
             eq_refl Hothers).
  destruct (three_picks_distinct targetId o1 o2 [a; b; c] Hnd Hshape)
    as (Hn1 & Hn2 & Hn12 & Hi1 & Hi2).
  pose proof (newOther1_bounds
                (100 - Z.max 0 (Z.min 100 (JS.Math_round rawValue)))
                (get0 currentBoosters (Some o1)) (get0 currentBoosters (Some o2))
                ltac:(lia) (Hnn o1 Hi1 (not_eq_sym Hn1)) (Hnn o2 Hi2 (not_eq_sym Hn2))) as Hb.
  set (clamped := Z.max 0 (Z.min 100 (JS.Math_round rawValue))) in *.
  set (newOther1 := if _ <=? 0 then _ else _) in *.
  assert (Ht : ∀ m : Boosters,
            <[Some o2 := 100 - clamped - newOther1]>
              (<[Some o1 := newOther1]> (<[Some targetId := clamped]> m))
            !! Some targetId = Some clamped).
  { intros m. rewrite !lookup_insert_ne by congruence. apply lookup_insert_eq. }
  assert (H1 : ∀ m : Boosters,
            <[Some o2 := 100 - clamped - newOther1]>
              (<[Some o1 := newOther1]> (<[Some targetId := clamped]> m))
            !! Some o1 = Some newOther1).
  { intros m. rewrite lookup_insert_ne by congruence. apply lookup_insert_eq. }
  assert (H2 : ∀ m : Boosters,
            <[Some o2 := 100 - clamped - newOther1]>
              (<[Some o1 := newOther1]> (<[Some targetId := clamped]> m))
            !! Some o2 = Some (100 - clamped - newOther1)).
  { intros m. apply lookup_insert_eq. }
  destruct Hshape as [Heq | [Heq | Heq]]; injection Heq as -> -> ->.
  - exists targetId, o1, o2, clamped, newOther1, (100 - clamped - newOther1).
    rewrite Ht, H1, H2. repeat split; lia.
  - exists o1, targetId, o2, newOther1, clamped, (100 - clamped - newOther1).
    rewrite Ht, H1, H2. repeat split; lia.
  - exists o1, o2, targetId, newOther1, (100 - clamped - newOther1), clamped.
    rewrite Ht, H1, H2. repeat split; lia.
Qed.

Lemma normalize_sums_to_hundred_witness :
  sums_to_hundred [1; 2; 3]
    (normalizeBoostersToHundred 1 (inject_Z 150) [1; 2; 3]
       (boosters_of [(1, 30); (2, 30); (3, 40)])).
Proof.
  apply normalize_sums_to_hundred.
  - apply NoDup_cons. split; [rewrite !not_elem_of_cons; repeat split; try lia; apply not_elem_of_nil |].
    apply NoDup_cons. split; [rewrite !not_elem_of_cons; repeat split; try lia; apply not_elem_of_nil |].
    apply NoDup_singleton.
  - apply elem_of_cons. now left.
  - intros id Hid _. rewrite !elem_of_cons in Hid.
    destruct Hid as [-> | [-> | [-> | Hnil]]];
      [vm_compute; discriminate .. | apply elem_of_nil in Hnil; contradiction].
Defined.

(** C1, as it is stated, fails on three kinds of call with exactly three pick
    ids and an integer raw value: a target that is not one of the picks (the
    three picks end at 25 + 25 + 40 = 90), a negative current value of another
    pick (the picks end at 0, -100 and 200), and a repeated pick id. *)
Lemma normalize_not_every_call :
  ¬ sums_to_hundred [1; 2; 3]
      (normalizeBoostersToHundred 9 (inject_Z 50) [1; 2; 3]
         (boosters_of [(1, 30); (2, 30); (3, 40)]))
  ∧ ¬ sums_to_hundred [1; 2; 3]
        (normalizeBoostersToHundred 1 (inject_Z 0) [1; 2; 3]
           (boosters_of [(1, 0); (2, -10); (3, 20)]))
  ∧ ¬ sums_to_hundred [1; 1; 2]
        (normalizeBoostersToHundred 1 (inject_Z 50) [1; 1; 2]
           (boosters_of [(1, 30); (2, 70)])).
Proof.
  split; [| split];
    intros (a & b & c & x & y & z & Heq & Ha & Hb & Hc & Hx & Hy & Hz & Hsum);
    injection Heq as <- <- <-;
    vm_compute in Ha, Hb, Hc;
    injection Ha as <-; injection Hb as <-; injection Hc as <-; lia.
Qed.

(** ** HistoryManager: statistics *)

Lemma stats_player_bestScore (g : HistoricalGame.t) (acc : StatsAcc)
    (p : HistoricalPlayer.t) :
  bestScore (stats_player g acc p)
  = Z.max (bestScore acc) (HistoricalPlayer.totalScore p).
Proof.
  unfold stats_player; simpl.
  destruct (bestScore acc <? HistoricalPlayer.totalScore p) eqn:Hlt.
  - apply Z.ltb_lt in Hlt. lia.
  - apply Z.ltb_ge in Hlt. lia.
Qed.

Lemma stats_players_bestScore (g : HistoricalGame.t)
    (ps : list HistoricalPlayer.t) (acc : StatsAcc) :
  bestScore (foldl (stats_player g) acc ps)
  = foldl Z.max (bestScore acc) (HistoricalPlayer.totalScore <$> ps).
Proof.
  revert acc. induction ps as [|p ps IH]; intros acc; simpl; [reflexivity |].
  rewrite IH, stats_player_bestScore. reflexivity.
Qed.

Lemma stats_games_bestScore (games : list HistoricalGame.t) (acc : StatsAcc) :
  bestScore (foldl stats_game acc games)
  = foldl Z.max (bestScore acc) (all_totals games).
Proof.
  revert acc. induction games as [|g games IH]; intros acc; [reflexivity |].
  change (all_totals (g :: games))
    with ((HistoricalPlayer.totalScore <$> HistoricalGame.players g)
          ++ all_totals games).
  rewrite foldl_app. simpl. rewrite IH. unfold stats_game.
  rewrite stats_players_bestScore. reflexivity.
Qed.

(** What the recomputation stores as the best score of a non-empty history:
    the largest of 0 and all the totals. *)
Lemma updateHistoricalStats_bestScore (data : HistoricalData.t) :
  HistoricalData.games data ≠ [] →
  Stats.bestScore (HistoricalData.stats (updateHistoricalStats data))
  = foldl Z.max 0 (all_totals (HistoricalData.games data)).
Proof.
  intros Hne. unfold updateHistoricalStats.
  destruct (HistoricalData.games data) as [|g games] eqn:Hg; [contradiction |].
  cbn [HistoricalData.stats Stats.bestScore].
  apply (stats_games_bestScore (g :: games) stats_init).
Qed.

Lemma foldl_max_ge (l : list Z) (m : Z) : m ≤ foldl Z.max m l.
Proof.
  revert m. induction l as [|x l IH]; intros m; simpl; [lia |].
  specialize (IH (Z.max m x)). lia.
Qed.

(** The stored best score is never below 0, whatever the totals are. *)
Lemma updateHistoricalStats_bestScore_nonneg (data : HistoricalData.t) :
  0 ≤ Stats.bestScore (HistoricalData.stats (updateHistoricalStats data)).
Proof.
  destruct (HistoricalData.games data) as [|g games] eqn:Hg.
  - unfold updateHistoricalStats. rewrite Hg. simpl. lia.
  - rewrite updateHistoricalStats_bestScore by (rewrite Hg; discriminate).
    apply foldl_max_ge.
Qed.

(** C5. A history of one game whose only player ended at -5: the maximum of
    the totals is -5, reached in that game, but the recomputed statistics
    hold a best score of 0 and no best game. *)
Theorem updateHistoricalStats_all_negative :
  let games := [sample_game "12345_2025-08-31" "2025-08-31" 12345 [-5]] in
  let stats := HistoricalData.stats (updateHistoricalStats (history_of games)) in
  max_total (all_totals games) = Some (-5)
  ∧ first_game_reaching (-5) games = Some "12345_2025-08-31"
  ∧ Stats.bestScore stats = 0
  ∧ Stats.bestGame stats = None.
Proof. vm_compute. repeat split. Qed.

(** With all totals at 0 the best score agrees with the maximum, but no game
    is recorded as the best one. *)
Lemma updateHistoricalStats_all_zero :
  let games := [sample_game "12345_2025-08-31" "2025-08-31" 12345 [0]] in
  let stats := HistoricalData.stats (updateHistoricalStats (history_of games)) in
  max_total (all_totals games) = Some 0
  ∧ first_game_reaching 0 games = Some "12345_2025-08-31"
  ∧ Stats.bestScore stats = 0
  ∧ Stats.bestGame stats = None.
Proof. vm_compute. repeat split. Qed.

Lemma foldl_max_elem_le (l : list Z) (m t : Z) : t ∈ l → t ≤ foldl Z.max m l.
Proof.
  revert m. induction l as [|x l IH]; intros m Hin.
  - apply elem_of_nil in Hin. contradiction.
  - simpl. apply elem_of_cons in Hin as [-> | Hin].
    + pose proof (foldl_max_ge l (Z.max m x)). lia.
    + apply IH, Hin.
Qed.

Lemma foldl_max_assoc (l : list Z) (a b : Z) :
  foldl Z.max (Z.max a b) l = Z.max a (foldl Z.max b l).
Proof.
  revert b. induction l as [|x l IH]; intros b; simpl; [reflexivity |].
  rewrite <- IH. f_equal. lia.
Qed.

(** One player of the loop: the best score and game change together, and only
    on a strictly better total. *)
Lemma stats_player_step (g : HistoricalGame.t) (acc : StatsAcc)
    (p : HistoricalPlayer.t) :
  (bestScore acc < HistoricalPlayer.totalScore p
   ∧ bestScore (stats_player g acc p) = HistoricalPlayer.totalScore p
   ∧ bestGameId (stats_player g acc p) = Some (HistoricalGame.id g))
  ∨ (HistoricalPlayer.totalScore p ≤ bestScore acc
     ∧ bestScore (stats_player g acc p) = bestScore acc
     ∧ bestGameId (stats_player g acc p) = bestGameId acc).
Proof.
  unfold stats_player; simpl.
  destruct (bestScore acc <? HistoricalPlayer.totalScore p) eqn:Hlt.
  - apply Z.ltb_lt in Hlt. left. auto.
  - apply Z.ltb_ge in Hlt. right. auto.
Qed.

Lemma stats_players_bestGame (g : HistoricalGame.t)
    (ps : list HistoricalPlayer.t) (acc : StatsAcc) :
  let acc' := foldl (stats_player g) acc ps in
  (bestScore acc' = bestScore acc → bestGameId acc' = bestGameId acc)
  ∧ (bestScore acc < bestScore acc' →
     bestGameId acc' = Some (HistoricalGame.id g)
     ∧ bestScore acc' ∈ (HistoricalPlayer.totalScore <$> ps)).
Proof.
  revert acc. induction ps as [|p ps IH]; intros acc; simpl.
  - split; [reflexivity | lia].
  - destruct (IH (stats_player g acc p)) as [IHeq IHlt].
    pose proof (stats_players_bestScore g ps (stats_player g acc p)) as Hbest.
    pose proof (foldl_max_ge (HistoricalPlayer.totalScore <$> ps)
                  (bestScore (stats_player g acc p))) as Hmono.
    rewrite <- Hbest in Hmono.
    destruct (stats_player_step g acc p) as [(Hlt & Hs & Hg) | (Hle & Hs & Hg)].
    + split; [lia |]. intros _.
      destruct (decide (bestScore (foldl (stats_player g) (stats_player g acc p) ps)
                        = bestScore (stats_player g acc p))) as [Heq | Hne].
      * rewrite (IHeq Heq), Heq, Hg, Hs. split; [reflexivity |].
        apply elem_of_cons. now left.
      * destruct IHlt as [Hid Hin]; [lia |]. split; [exact Hid |].
        apply elem_of_cons. now right.
    + split.
      * intros Heq. rewrite IHeq by lia. exact Hg.
      * intros Hlt. destruct IHlt as [Hid Hin]; [lia |]. split; [exact Hid |].
        apply elem_of_cons. now right.
Qed.

Lemma first_game_reaching_cons (m : Z) (g : HistoricalGame.t)
    (games : list HistoricalGame.t) :
  first_game_reaching m (g :: games)
  = if decide (m ∈ (HistoricalPlayer.totalScore <$> HistoricalGame.players g))
    then Some (HistoricalGame.id g)
    else first_game_reaching m games.
Proof.
  unfold first_game_reaching. simpl.
  destruct (decide (m ∈ _)); [reflexivity |].
  destruct (list_find _ games) as [[i found]|]; reflexivity.
Qed.

Lemma stats_games_bestGame (games : list HistoricalGame.t) (acc : StatsAcc) :
  let acc' := foldl stats_game acc games in
  (bestScore acc' = bestScore acc → bestGameId acc' = bestGameId acc)
  ∧ (bestScore acc < bestScore acc' →
     bestGameId acc' = first_game_reaching (bestScore acc') games).
Proof.
  revert acc. induction games as [|g games IH]; intros acc; simpl.
  - split; [reflexivity | lia].
  - destruct (IH (stats_game acc g)) as [IHeq IHlt].
    pose proof (stats_games_bestScore games (stats_game acc g)) as Hbest.
    pose proof (foldl_max_ge (all_totals games) (bestScore (stats_game acc g))) as Hmono.
    rewrite <- Hbest in Hmono.
    destruct (stats_players_bestGame g (HistoricalGame.players g) acc) as [Geq Glt].
    pose proof (stats_players_bestScore g (HistoricalGame.players g) acc) as Gbest.
    pose proof (foldl_max_ge (HistoricalPlayer.totalScore <$> HistoricalGame.players g)
                  (bestScore acc)) as Gmono.
    rewrite <- Gbest in Gmono.
    fold (stats_game acc g) in Geq, Glt, Gbest, Gmono.
    split.
    + intros Heq. rewrite IHeq by lia. apply Geq. lia.
    + intros Hlt. rewrite first_game_reaching_cons.
      destruct (decide (bestScore (foldl stats_game (stats_game acc g) games)
                        = bestScore (stats_game acc g))) as [Heq | Hne].
      * rewrite (IHeq Heq). destruct Glt as [Hid Hin]; [lia |].
        rewrite Heq, decide_True by exact Hin. exact Hid.
      * rewrite IHlt by lia. rewrite decide_False; [reflexivity |].
        intros Hin.
        pose proof (foldl_max_elem_le _ (bestScore acc) _ Hin) as Hle.
        rewrite <- Gbest in Hle. lia.
Qed.

(** The part of C5 that the code does deliver: as soon as some player has a
    positive total, the best score is the maximum total and the best game is
    the first game in which a player reaches it. *)
Lemma updateHistoricalStats_best_positive (data : HistoricalData.t) (t : Z) :
  t ∈ all_totals (HistoricalData.games data) → 0 < t →
  ∃ m,
    max_total (all_totals (HistoricalData.games data)) = Some m
    ∧ Stats.bestScore (HistoricalData.stats (updateHistoricalStats data)) = m
    ∧ Stats.bestGame (HistoricalData.stats (updateHistoricalStats data))
      = first_game_reaching m (HistoricalData.games data).
Proof.
  intros Hin Hpos.
  destruct (HistoricalData.games data) as [|g games] eqn:Hg.
  { apply elem_of_nil in Hin. contradiction. }
  pose proof (stats_games_bestScore (g :: games) stats_init) as Hbest.
  destruct (stats_games_bestGame (g :: games) stats_init) as [_ Hgame].
  pose proof (foldl_max_elem_le _ 0 _ Hin) as Hge.
  change (bestScore stats_init) with 0 in *.
  unfold updateHistoricalStats. rewrite Hg.
  cbn [HistoricalData.stats Stats.bestScore Stats.bestGame].
  destruct (all_totals (g :: games)) as [|t0 rest] eqn:Htot.
  { apply elem_of_nil in Hin. contradiction. }
  exists (foldl Z.max t0 rest). split; [reflexivity |].
  assert (Hm : foldl Z.max 0 (t0 :: rest) = foldl Z.max t0 rest).
  { simpl in *. rewrite foldl_max_assoc in Hge |- *. lia. }
  rewrite <- Hm, <- Hbest. split; [reflexivity |].
  apply Hgame. rewrite Hbest. lia.
Qed.

(** ** HistoryManager: upsert by id *)

Lemma sort_insert_Permutation {A} (cmp : A → A → option Z) (x : A) (l : list A) :
  sort_insert cmp x l ≡ₚ x :: l.
Proof.
  induction l as [|y l IH]; simpl; [reflexivity |].
  destruct (0 <? default 0 (cmp x y)); [| reflexivity].
  rewrite IH. apply Permutation_swap.
Qed.

Lemma Array_sort_Permutation {A} (cmp : A → A → option Z) (l : list A) :
  Array_sort cmp l ≡ₚ l.
Proof.
  unfold Array_sort. induction l as [|x l IH]; simpl; [reflexivity |].
  rewrite sort_insert_Permutation, IH. reflexivity.
Qed.

Lemma updateHistoricalStats_games (data : HistoricalData.t) :
  HistoricalData.games (updateHistoricalStats data) = HistoricalData.games data.
Proof.
  unfold updateHistoricalStats.
  destruct (HistoricalData.games data) eqn:Hg; simpl; congruence.
Qed.

Lemma loadHistoricalData_games (now : Z) (st : Store) :
  HistoricalData.games (loadHistoricalData now st) = stored_games st.
Proof.
  unfold loadHistoricalData, stored_games, storage.getItem.
  destruct (st !! HISTORY_STORAGE_KEY) as [[| |[]]|]; reflexivity.
Qed.

Lemma stored_games_saveHistoricalData (data : HistoricalData.t) (now : Z) (st : Store) :
  stored_games (saveHistoricalData data now st) = HistoricalData.games data.
Proof.
  unfold stored_games, saveHistoricalData, storage.setItem.
  rewrite lookup_insert_eq. reflexivity.
Qed.

Section Upsert.
Context `{DateRuntime}.

(** The history after one call that computed the date [gameDate]: the game
    of the call, put in place of the game with its id or appended, and the
    list sorted again. *)
Lemma stored_games_addGameToHistory
    players batters lineupInfo gameStatus finalScore now st gameDate :
  gameDateOf lineupInfo now = Some gameDate →
  stored_games
    (addGameToHistory players batters lineupInfo gameStatus finalScore now st)
  = Array_sort byDateDesc
      (upsert (historicalGameOf players batters lineupInfo gameStatus finalScore
                 gameDate now)
              (stored_games st)).
Proof.
  intros Hdate. unfold addGameToHistory. rewrite Hdate.
  rewrite stored_games_saveHistoricalData, updateHistoricalStats_games.
  rewrite loadHistoricalData_games. reflexivity.
Qed.

Lemma stored_games_addGameToHistory_no_date
    players batters lineupInfo gameStatus finalScore now st :
  gameDateOf lineupInfo now = None →
  addGameToHistory players batters lineupInfo gameStatus finalScore now st = st.
Proof. intros Hdate. unfold addGameToHistory. now rewrite Hdate. Qed.

End Upsert.

Lemma upsert_elem (game : HistoricalGame.t) (games : list HistoricalGame.t) :
  game ∈ upsert game games.
Proof.
  unfold upsert.
  destruct (list_find _ games) as [[i found]|] eqn:Hfind; simpl.
  - apply list_find_Some in Hfind as (Hi & _ & _).
    apply list_elem_of_lookup. exists i.
    apply list_lookup_insert_eq. eapply lookup_lt_Some, Hi.
  - apply elem_of_app. right. apply elem_of_cons. now left.
Qed.

Lemma upsert_ids_NoDup (game : HistoricalGame.t) (games : list HistoricalGame.t) :
  NoDup (HistoricalGame.id <$> games) →
  NoDup (HistoricalGame.id <$> upsert game games).
Proof.
  intros Hnd. unfold upsert.
  destruct (list_find _ games) as [[i found]|] eqn:Hfind; simpl.
  - apply list_find_Some in Hfind as (Hi & Hid & _).
    rewrite list_fmap_insert, list_insert_id; [exact Hnd |].
    rewrite list_lookup_fmap, Hi. simpl. now rewrite Hid.
  - apply list_find_None in Hfind.
    rewrite fmap_app. apply NoDup_app. split; [exact Hnd | split].
    + intros x Hx Hx'. simpl in Hx'. apply list_elem_of_singleton in Hx'. subst x.
      apply list_elem_of_fmap in Hx as (g & Hg & Hin).
      rewrite Forall_forall in Hfind. apply (Hfind g Hin). now symmetry.
    + simpl. apply NoDup_singleton.
Qed.


(** The store only ever holds a history without repeated ids. *)
Lemma reachable_ids_NoDup `{DateRuntime} (st : Store) :
  reachable st → NoDup (HistoricalGame.id <$> stored_games st).
Proof.
  induction 1 as [st Hempty
                 | st players batters lineupInfo gameStatus finalScore now _ IH
                 | st _ IH | st state now _ IH | st _ IH
                 | st tomorrow today now _ IH].
  - rewrite Hempty. apply NoDup_nil_2.
  - destruct (gameDateOf lineupInfo now) as [gameDate|] eqn:Hdate.
    + rewrite (stored_games_addGameToHistory _ _ _ _ _ _ _ gameDate Hdate).
      rewrite Array_sort_Permutation. apply upsert_ids_NoDup, IH.
    + rewrite stored_games_addGameToHistory_no_date by exact Hdate. exact IH.
  - unfold stored_games, clearHistoricalData, storage.removeItem.
    rewrite lookup_delete_eq. apply NoDup_nil_2.
  - unfold stored_games, saveAppState, storage.setItem in *.
    rewrite lookup_insert_ne by discriminate. exact IH.
  - unfold stored_games, clearAppState, storage.removeItem in *.
    rewrite lookup_delete_ne by discriminate. exact IH.
  - assert (Hst : (loadAppState tomorrow today now st).2 = st
                  ∨ (loadAppState tomorrow today now st).2 = delete STORAGE_KEY st).
    { unfold loadAppState, storage.removeItem.
      repeat case_match; simpl; auto. }
    destruct Hst as [-> | ->]; [exact IH |].
    unfold stored_games in *. rewrite lookup_delete_ne by discriminate. exact IH.
Qed.



(** The two calls of the worked example, run: one entry, with the data of the
    second call. *)
Example addGameToHistory_twice :
  let st1 :=
    @addGameToHistory sampleDates [sample_player 155] sample_batters sample_lineup
      "Live" None 1756610000000 ∅ in
  let st2 :=
    @addGameToHistory sampleDates [sample_player 200] sample_batters sample_lineup
      "Final" (Some (10, 2)) 1756620000000 st1 in
  length (stored_games st1) = 1%nat
  ∧ length (stored_games st2) = 1%nat
  ∧ (HistoricalGame.gameStatus <$> stored_games st2) = ["Final"]
  ∧ (HistoricalGame.finalScore <$> stored_games st2) = [Some (10, 2)]
  ∧ ((λ g, HistoricalPlayer.totalScore <$> HistoricalGame.players g)
       <$> stored_games st2) = [[200]].
Proof. vm_compute. repeat split. Qed.


(** ** The repository's own test vectors, run on the model *)

(** utils/__tests__/generalUtils.test.ts *)
Example test_normalize_sum :
  let result :=
    normalizeBoostersToHundred 1 50 [1; 2; 3]
      (boosters_of [(1, 30); (2, 30); (3, 40)]) in
  result !! Some 1 = Some 50
  ∧ get0 result (Some 2) + get0 result (Some 3) = 50.
Proof. vm_compute. split; reflexivity. Qed.

Example test_normalize_ratio :
  normalizeBoostersToHundred 1 60 [1; 2; 3]
    (boosters_of [(1, 20); (2, 40); (3, 40)])
  = boosters_of [(1, 60); (2, 20); (3, 20)].
Proof. vm_compute. reflexivity. Qed.

Example test_normalize_even_split :
  normalizeBoostersToHundred 1 40 [1; 2; 3]
    (boosters_of [(1, 0); (2, 0); (3, 0)])
  = boosters_of [(1, 40); (2, 30); (3, 30)].
Proof. vm_compute. reflexivity. Qed.

Example test_normalize_clamp :
  normalizeBoostersToHundred 1 150 [1; 2; 3]
    (boosters_of [(1, 33); (2, 33); (3, 34)])
  = boosters_of [(1, 100); (2, 0); (3, 0)]
  ∧ normalizeBoostersToHundred 1 (-50) [1; 2; 3]
      (boosters_of [(1, 33); (2, 33); (3, 34)])
    = boosters_of [(1, 0); (2, 49); (3, 51)].
Proof. vm_compute. split; reflexivity. Qed.

Example test_normalize_not_three_picks :
  normalizeBoostersToHundred 1 75 [1; 2] (boosters_of [(1, 50); (2, 50)])
  = boosters_of [(1, 50); (2, 50)]
  ∧ normalizeBoostersToHundred 1 75 [1; 2; 3; 4] (boosters_of [(1, 50); (2, 50)])
    = boosters_of [(1, 50); (2, 50)].
Proof. split; reflexivity. Qed.

Example test_validateBoostersComplete :
  validateBoostersComplete [1; 2; 3] (boosters_of [(1, 33); (2, 33); (3, 34)]) = true
  ∧ validateBoostersComplete [1; 2] (boosters_of [(1, 50); (2, 50)]) = false
  ∧ validateBoostersComplete [1; 2; 3; 4] (boosters_of [(1, 50); (2, 50)]) = false
  ∧ validateBoostersComplete [1; 2; 3] (boosters_of [(1, 33); (2, 33); (3, 33)]) = false
  ∧ validateBoostersComplete [1; 2; 3] (boosters_of [(1, 34); (2, 34); (3, 33)]) = false.
Proof. vm_compute. repeat split. Qed.

(** Products of doubles, with the values that the runtime computes. 0.16666666666666666 is 6004799503160661 / 2^55,
    and three times it is 0.5 as a double, which rounds to 1; 0.1 is
    3602879701896397 / 2^55, and three times it is 0.30000000000000004,
    which is 5404319552844596 / 2^54; 1.1 is 4953959590107546 / 2^52, and
    its square is 1.2100000000000002, which is 5449355549118301 / 2^52. *)
Example test_double_products :
  (JS.mul 3 (6004799503160661 # 36028797018963968) == 1 # 2)%Q
  ∧ applyBoost 3 (6004799503160661 # 36028797018963968) = 1
  ∧ (JS.mul (3602879701896397 # 36028797018963968) 3
     == 5404319552844596 # 18014398509481984)%Q
  ∧ (JS.mul (4953959590107546 # 4503599627370496)
            (4953959590107546 # 4503599627370496)
     == 5449355549118301 # 4503599627370496)%Q
  ∧ (JS.to_double (inject_Z (2 ^ 53 + 1)) == inject_Z (2 ^ 53))%Q
  ∧ (JS.to_double (inject_Z (2 ^ 53 + 3)) == inject_Z (2 ^ 53 + 4))%Q.
Proof. vm_compute. repeat split. Qed.

(** utils/__tests__/scoringUtils.test.ts *)
Example test_applyBoost :
  applyBoost 100 (3 # 2) = 150 ∧ applyBoost 100 (1 # 2) = 50
  ∧ applyBoost 100 2 = 200 ∧ applyBoost (-10) 2 = -10
  ∧ applyBoost (-100) (1 # 2) = -100 ∧ applyBoost 0 (3 # 2) = 0
  ∧ applyBoost 33 (3 # 2) = 50 ∧ applyBoost 67 (3 # 2) = 101.
Proof. vm_compute. repeat split. Qed.

Example test_calculateBasePoints :
  calculateBasePoints
    {| singles := 2; doubles := 1; triples := 0; hr_solo := 1; hr_2r := 0;
       hr_3r := 0; hr_gs := 0; walks := 1; hbp := 0; rbi_non_hr := 2;
       runs_non_hr := 1; strikeouts := 1; gidp := 0; fielders_choice := 1 |}
  = 127
  ∧ calculateBasePoints
      {| singles := 0; doubles := 0; triples := 0; hr_solo := 1; hr_2r := 1;
         hr_3r := 1; hr_gs := 1; walks := 0; hbp := 0; rbi_non_hr := 0;
         runs_non_hr := 0; strikeouts := 0; gidp := 0; fielders_choice := 0 |}
    = 215.
Proof. split; reflexivity. Qed.

(** history/__tests__/index.test.ts: two games, totals 155 and 75. *)
Example test_history_two_games :
  let first :=
    @addGameToHistory sampleDates [sample_player 155] sample_batters sample_lineup
      "Final" None 1630454400000 ∅ in
  let secondLineup :=
    {| LineupInfo.gamePk := 12346;
       LineupInfo.opponent := "Guardians";
       LineupInfo.side := home;
       LineupInfo.firstPitchLocal := Some "7:10 PM";
       LineupInfo.gameDate := Some "2025-09-01T00:10:00Z" |} in
  let second :=
    @addGameToHistory sampleDates [sample_player 75] sample_batters secondLineup
      "Final" None 1630454400000 first in
  let stats := getHistoricalStats 1630454400000 second in
  Stats.totalGames stats = 2
  ∧ Stats.bestScore stats = 155
  ∧ Stats.bestGame stats = Some "12345_2025-08-31"
  ∧ (HistoricalGame.id <$> getRecentGames 10 1630454400000 second)
    = ["12346_2025-09-01"; "12345_2025-08-31"]
  ∧ match Stats.averageScore stats with
    | Some avg => (avg == 115)%Q
    | None => False
    end.
Proof. vm_compute. repeat split. Qed.

(** * Further properties *)

(** ** BoostAllocator: what a slider move does and leaves alone *)

Lemma filter_ne_lookup (t : Z) (l : list Z) (i : nat) :
  filter (λ id, id ≠ t) l !! i ≠ Some t.
Proof.
  intros Hi. apply list_elem_of_lookup_2 in Hi.
  apply list_elem_of_filter in Hi as [Hne _]. now apply Hne.
Qed.

Lemma filter_ne_lookup_elem (t id : Z) (l : list Z) (i : nat) :
  filter (λ id, id ≠ t) l !! i = Some id → id ∈ l.
Proof.
  intros Hi. apply list_elem_of_lookup_2 in Hi.
  now apply list_elem_of_filter in Hi as [_ Hin].
Qed.

(** X1. With three picks of any kind, the target ends at the raw value
    rounded and clamped to 0..100, whatever the current boosters are and
    whether or not the target is one of the picks. *)
Theorem normalize_target_value
    (targetId : Z) (rawValue : Q) (a b c : Z) (currentBoosters : Boosters) :
  let clamped := Z.max 0 (Z.min 100 (JS.Math_round rawValue)) in
  normalizeBoostersToHundred targetId rawValue [a; b; c] currentBoosters
    !! Some targetId = Some clamped
  ∧ 0 ≤ clamped ≤ 100.
Proof.
  intros clamped. split; [| apply clamp_bounds].
  unfold normalizeBoostersToHundred.
  rewrite !lookup_insert_ne by apply filter_ne_lookup.
  apply lookup_insert_eq.
Qed.

(** X2. A call never touches the booster of a batter that is neither the
    target nor one of the picks, and with a number of picks other than three
    it returns the boosters it was given. *)
Theorem normalize_frame
    (targetId : Z) (rawValue : Q) (pickedIds : list Z)
    (currentBoosters : Boosters) :
  (∀ id, id ≠ targetId → id ∉ pickedIds →
     normalizeBoostersToHundred targetId rawValue pickedIds currentBoosters
       !! Some id = currentBoosters !! Some id)
  ∧ (length pickedIds ≠ 3%nat →
     normalizeBoostersToHundred targetId rawValue pickedIds currentBoosters
     = currentBoosters).
Proof.
  split.
  - intros id Hne Hnot. unfold normalizeBoostersToHundred.
    destruct pickedIds as [|a [|b [|c [|d rest]]]]; try reflexivity.
    assert (Hother : ∀ i, filter (λ id, id ≠ targetId) [a; b; c] !! i ≠ Some id).
    { intros i Hi. apply Hnot. eapply filter_ne_lookup_elem, Hi. }
    rewrite !lookup_insert_ne; [reflexivity | congruence | apply Hother | apply Hother].
  - intros Hlen. unfold normalizeBoostersToHundred.
    destruct pickedIds as [|a [|b [|c [|d rest]]]]; try reflexivity.
    now contradiction Hlen.
Qed.

Lemma normalize_frame_witness :
  normalizeBoostersToHundred 1 (inject_Z 50) [1; 2; 3]
    (boosters_of [(1, 30); (2, 30); (3, 40); (7, 12)]) !! Some 7 = Some 12
  ∧ normalizeBoostersToHundred 1 (inject_Z 75) [1; 2]
      (boosters_of [(1, 50); (2, 50)])
    = boosters_of [(1, 50); (2, 50)].
Proof.
  split.
  - destruct (normalize_frame 1 (inject_Z 50) [1; 2; 3]
                (boosters_of [(1, 30); (2, 30); (3, 40); (7, 12)])) as [Hframe _].
    rewrite (Hframe 7); [reflexivity | lia |].
    rewrite !not_elem_of_cons. repeat split; try lia. apply not_elem_of_nil.
  - destruct (normalize_frame 1 (inject_Z 75) [1; 2]
                (boosters_of [(1, 50); (2, 50)])) as [_ Hlen].
    apply Hlen. simpl. lia.
Defined.

(** The three values after a call whose target is one of three distinct
    picks, with [o1] and [o2] the two other picks in pick order. *)
Lemma normalize_lookup3 (targetId o1 o2 : Z) (rawValue : Q) (pickedIds : list Z)
    (currentBoosters : Boosters) :
  NoDup pickedIds →
  pickedIds = [targetId; o1; o2] ∨ pickedIds = [o1; targetId; o2]
  ∨ pickedIds = [o1; o2; targetId] →
  let clamped := Z.max 0 (Z.min 100 (JS.Math_round rawValue)) in
  let remaining := 100 - clamped in
  let cur0 := get0 currentBoosters (Some o1) in
  let cur1 := get0 currentBoosters (Some o2) in
  let newOther1 :=
    if cur0 + cur1 <=? 0
    then JS.Math_floor (inject_Z remaining / 2)%Q
    else JS.Math_round (inject_Z (remaining * cur0) / inject_Z (cur0 + cur1))%Q in
  let next :=
    normalizeBoostersToHundred targetId rawValue pickedIds currentBoosters in
  next !! Some targetId = Some clamped
  ∧ next !! Some o1 = Some newOther1
  ∧ next !! Some o2 = Some (remaining - newOther1).
Proof.
  intros Hnd Hshape clamped remaining cur0 cur1 newOther1 next.
  destruct (three_picks_distinct targetId o1 o2 pickedIds Hnd Hshape)
    as (Hn1 & Hn2 & Hn12 & _ & _).
  assert (Hlen : length pickedIds = 3%nat)
    by (destruct Hshape as [-> | [-> | ->]]; reflexivity).
  unfold next.
  rewrite (normalize_others targetId o1 o2 rawValue pickedIds currentBoosters Hlen
             (others_of_three targetId o1 o2 pickedIds Hnd Hshape)).
  split; [| split].
  - rewrite !lookup_insert_ne by congruence. apply lookup_insert_eq.
  - rewrite lookup_insert_ne by congruence. apply lookup_insert_eq.
  - apply lookup_insert_eq.
Qed.

Lemma target_shape (targetId a b c : Z) :
  targetId ∈ [a; b; c] →
  ∃ o1 o2, [a; b; c] = [targetId; o1; o2] ∨ [a; b; c] = [o1; targetId; o2]
           ∨ [a; b; c] = [o1; o2; targetId].
Proof.
  intros Hin. rewrite !elem_of_cons in Hin.
  destruct Hin as [-> | [-> | [-> | Hnil]]].
  - exists b, c. auto.
  - exists a, c. auto.
  - exists a, b. auto.
  - apply elem_of_nil in Hnil. contradiction.
Qed.

Lemma validate_of_lookups (a b c x y z : Z) (m : Boosters) :
  m !! Some a = Some x → m !! Some b = Some y → m !! Some c = Some z →
  x + y + z = 100 →
  validateBoostersComplete [a; b; c] m = true.
Proof.
  intros Ha Hb Hc Hsum. unfold validateBoostersComplete, get0. simpl.
  rewrite Ha, Hb, Hc. simpl.
  replace (0 + x + y + z =? 100) with true by (symmetry; apply Z.eqb_eq; lia).
  reflexivity.
Qed.

(** X3. The result of a slider move passes the completeness check: when the
    three picks are distinct and the target is one of them,
    [validateBoostersComplete] accepts what [normalizeBoostersToHundred]
    returns, for every raw value and whatever the current boosters are. *)
Theorem normalize_validates
    (targetId : Z) (rawValue : Q) (a b c : Z) (currentBoosters : Boosters) :
  NoDup [a; b; c] →
  targetId ∈ [a; b; c] →
  validateBoostersComplete [a; b; c]
    (normalizeBoostersToHundred targetId rawValue [a; b; c] currentBoosters)
  = true.
Proof.
  intros Hnd Hin.
  destruct (target_shape targetId a b c Hin) as (o1 & o2 & Hshape).
  destruct (normalize_lookup3 targetId o1 o2 rawValue [a; b; c] currentBoosters
              Hnd Hshape) as (Ht & H1 & H2).
  destruct Hshape as [Heq | [Heq | Heq]]; injection Heq as -> -> ->;
    eapply validate_of_lookups; eauto; lia.
Qed.

Lemma normalize_validates_witness :
  validateBoostersComplete [1; 2; 3]
    (normalizeBoostersToHundred 2 (inject_Z 61) [1; 2; 3]
       (boosters_of [(1, 34); (2, 33); (3, 33)]))
  = true.
Proof.
  apply normalize_validates.
  - apply NoDup_cons. split; [rewrite !not_elem_of_cons; repeat split; try lia; apply not_elem_of_nil |].
    apply NoDup_cons. split; [rewrite !not_elem_of_cons; repeat split; try lia; apply not_elem_of_nil |].
    apply NoDup_singleton.
  - rewrite !elem_of_cons. right. now left.
Defined.

(** X4. Setting a slider to the value it already has changes nothing: on
    three distinct picks whose boosters are present, not negative and add up
    to 100, the call with the target's current value returns the boosters it
    was given. *)
Theorem normalize_fixed_point
    (targetId a b c x y z : Z) (currentBoosters : Boosters) :
  NoDup [a; b; c] →
  targetId ∈ [a; b; c] →
  currentBoosters !! Some a = Some x →
  currentBoosters !! Some b = Some y →
  currentBoosters !! Some c = Some z →
  0 ≤ x → 0 ≤ y → 0 ≤ z → x + y + z = 100 →
  normalizeBoostersToHundred targetId
    (inject_Z (get0 currentBoosters (Some targetId))) [a; b; c] currentBoosters
  = currentBoosters.
Proof.
  intros Hnd Hin Ha Hb Hc Hx Hy Hz Hsum.
  destruct (target_shape targetId a b c Hin) as (o1 & o2 & Hshape).
  assert (Hvals : ∃ vt v1 v2,
            currentBoosters !! Some targetId = Some vt
            ∧ currentBoosters !! Some o1 = Some v1
            ∧ currentBoosters !! Some o2 = Some v2
            ∧ 0 ≤ vt ∧ 0 ≤ v1 ∧ 0 ≤ v2 ∧ vt + v1 + v2 = 100).
  { destruct Hshape as [Heq | [Heq | Heq]]; injection Heq as -> -> ->.
    - exists x, y, z. repeat split; auto.
    - exists y, x, z. repeat split; auto; lia.
    - exists z, x, y. repeat split; auto; lia. }
  destruct Hvals as (vt & v1 & v2 & Ht & H1 & H2 & Hvt & Hv1 & Hv2 & Hs).
  rewrite (normalize_others targetId o1 o2 _ [a; b; c] currentBoosters eq_refl
             (others_of_three targetId o1 o2 [a; b; c] Hnd Hshape)).
  assert (Gt : get0 currentBoosters (Some targetId) = vt)
    by (unfold get0; now rewrite Ht).
  assert (G1 : get0 currentBoosters (Some o1) = v1)
    by (unfold get0; now rewrite H1).
  assert (G2 : get0 currentBoosters (Some o2) = v2)
    by (unfold get0; now rewrite H2).
  rewrite Gt, G1, G2, Math_round_Z.
  replace (Z.max 0 (Z.min 100 vt)) with vt by lia.
  assert (Hn1 : (if v1 + v2 <=? 0
                 then JS.Math_floor (inject_Z (100 - vt) / 2)%Q
                 else JS.Math_round
                        (inject_Z ((100 - vt) * v1) / inject_Z (v1 + v2))%Q)
                = v1).
  { destruct (v1 + v2 <=? 0) eqn:Hle.
    - apply Z.leb_le in Hle.
      replace (100 - vt) with 0 by lia. replace v1 with 0 by lia. reflexivity.
    - apply Z.leb_gt in Hle. rewrite Math_round_div by lia.
      replace (100 - vt) with (v1 + v2) by lia.
      symmetry. apply Z.div_unique with (r := v1 + v2); lia. }
  rewrite Hn1. replace (100 - vt - v1) with v2 by lia.
  rewrite (insert_id currentBoosters (Some targetId) vt Ht).
  rewrite (insert_id currentBoosters (Some o1) v1 H1).
  apply insert_id, H2.
Qed.

Lemma normalize_fixed_point_witness :
  normalizeBoostersToHundred 2
    (inject_Z (get0 (boosters_of [(1, 34); (2, 33); (3, 33)]) (Some 2)))
    [1; 2; 3] (boosters_of [(1, 34); (2, 33); (3, 33)])
  = boosters_of [(1, 34); (2, 33); (3, 33)].
Proof.
  apply (normalize_fixed_point 2 1 2 3 34 33 33); try reflexivity; try lia.
  - apply NoDup_cons. split; [rewrite !not_elem_of_cons; repeat split; try lia; apply not_elem_of_nil |].
    apply NoDup_cons. split; [rewrite !not_elem_of_cons; repeat split; try lia; apply not_elem_of_nil |].
    apply NoDup_singleton.
  - rewrite !elem_of_cons. right. now left.
Defined.

(** ** ScoringEngine: the scoring pass on one batting line *)

(** The comparison of the average with a half-integer threshold, on
    integers. *)
Lemma avg_threshold (n r h : Z) :
  0 < h →
  Qle_bool (n # 2) (inject_Z r / inject_Z h) = (n * h <=? 2 * r).
Proof.
  intros Hh. destruct h as [|h|h]; try lia.
  apply eq_true_iff_eq. rewrite Qle_bool_iff, Z.leb_le.
  unfold Qle, Qdiv, Qmult, Qinv, inject_Z; simpl.
  rewrite Pos.mul_1_l. lia.
Qed.

(** How the pass classes the home runs, as a relation between the raw line
    and the four counters. *)
Lemma buildScore_classes (stats : Batting.t) (plays : list Play) :
  let b := breakdown (buildScoreFromStatsAndPlays stats plays) in
  let h := JS.or0 (Batting.homeRuns stats) in
  let r := JS.or0 (Batting.rbi stats) in
  (h ≤ 0 ∧ hr_gs b = 0 ∧ hr_3r b = 0 ∧ hr_2r b = 0 ∧ hr_solo b = 0)
  ∨ (0 < h ∧ 7 * h ≤ 2 * r
     ∧ hr_gs b = h ∧ hr_3r b = 0 ∧ hr_2r b = 0 ∧ hr_solo b = 0)
  ∨ (0 < h ∧ 5 * h ≤ 2 * r < 7 * h
     ∧ hr_gs b = 0 ∧ hr_3r b = h ∧ hr_2r b = 0 ∧ hr_solo b = 0)
  ∨ (0 < h ∧ 3 * h ≤ 2 * r < 5 * h
     ∧ hr_gs b = 0 ∧ hr_3r b = 0 ∧ hr_2r b = h ∧ hr_solo b = 0)
  ∨ (0 < h ∧ 2 * r < 3 * h
     ∧ hr_gs b = 0 ∧ hr_3r b = 0 ∧ hr_2r b = 0 ∧ hr_solo b = h).
Proof.
  unfold buildScoreFromStatsAndPlays.
  destruct (0 <? JS.or0 (Batting.homeRuns stats)) eqn:Hh.
  - apply Z.ltb_lt in Hh. rewrite !avg_threshold by exact Hh.
    destruct (7 * _ <=? _) eqn:H7; [apply Z.leb_le in H7 | apply Z.leb_gt in H7].
    { right; left. simpl. repeat split; auto. }
    destruct (5 * _ <=? _) eqn:H5; [apply Z.leb_le in H5 | apply Z.leb_gt in H5].
    { right; right; left. simpl. repeat split; auto. }
    destruct (3 * _ <=? _) eqn:H3; [apply Z.leb_le in H3 | apply Z.leb_gt in H3].
    { right; right; right; left. simpl. repeat split; auto. }
    right; right; right; right. simpl. repeat split; auto.
  - apply Z.ltb_ge in Hh. left. simpl. repeat split; auto.
Qed.

(** The counters that the pass copies from the line. *)
Lemma buildScore_copied (stats : Batting.t) (plays : list Play) :
  let b := breakdown (buildScoreFromStatsAndPlays stats plays) in
  singles b = JS.or0 (Batting.hits stats) - JS.or0 (Batting.doubles stats)
              - JS.or0 (Batting.triples stats) - JS.or0 (Batting.homeRuns stats)
  ∧ doubles b = JS.or0 (Batting.doubles stats)
  ∧ triples b = JS.or0 (Batting.triples stats)
  ∧ walks b = JS.or0 (Batting.baseOnBalls stats)
  ∧ strikeouts b = JS.or0 (Batting.strikeOuts stats)
  ∧ gidp b = JS.or0 (Batting.groundIntoDoublePlay stats)
  ∧ runs_non_hr b = JS.or0 (Batting.runs stats)
  ∧ hbp b = 0 ∧ fielders_choice b = 0.
Proof.
  unfold buildScoreFromStatsAndPlays.
  destruct (0 <? JS.or0 (Batting.homeRuns stats)); [| simpl; repeat split].
  repeat match goal with
         | |- context [if Qle_bool ?x ?y then _ else _] => destruct (Qle_bool x y)
         end; simpl; repeat split.
Qed.

(** X5. All the home runs of a line go to one class, chosen by the total RBI
    against the number of home runs: grand slams from 3.5 RBI per home run
    (7 * HR <= 2 * RBI), 3-run from 2.5, 2-run from 1.5, solo below; a line
    without home runs fills no class. *)
Theorem buildScore_hr_classification (stats : Batting.t) (plays : list Play) :
  let b := breakdown (buildScoreFromStatsAndPlays stats plays) in
  let h := JS.or0 (Batting.homeRuns stats) in
  let r := JS.or0 (Batting.rbi stats) in
  (h ≤ 0 → hr_gs b = 0 ∧ hr_3r b = 0 ∧ hr_2r b = 0 ∧ hr_solo b = 0)
  ∧ (0 < h → 7 * h ≤ 2 * r →
     hr_gs b = h ∧ hr_3r b = 0 ∧ hr_2r b = 0 ∧ hr_solo b = 0)
  ∧ (0 < h → 5 * h ≤ 2 * r < 7 * h →
     hr_gs b = 0 ∧ hr_3r b = h ∧ hr_2r b = 0 ∧ hr_solo b = 0)
  ∧ (0 < h → 3 * h ≤ 2 * r < 5 * h →
     hr_gs b = 0 ∧ hr_3r b = 0 ∧ hr_2r b = h ∧ hr_solo b = 0)
  ∧ (0 < h → 2 * r < 3 * h →
     hr_gs b = 0 ∧ hr_3r b = 0 ∧ hr_2r b = 0 ∧ hr_solo b = h).
Proof.
  intros b h r.
  pose proof (buildScore_classes stats plays) as Hc. cbv zeta in Hc.
  fold b h r in Hc.
  repeat split; intros;
    decompose [and or] Hc; try lia; assumption.
Qed.

Lemma buildScore_hr_classification_witness :
  let b := breakdown (buildScoreFromStatsAndPlays one_grand_slam []) in
  hr_gs b = 1 ∧ hr_3r b = 0 ∧ hr_2r b = 0 ∧ hr_solo b = 0.
Proof.
  destruct (buildScore_hr_classification one_grand_slam []) as (_ & Hgs & _).
  apply Hgs; simpl; lia.
Defined.

(** X6. With at most one home run the non-home-run RBI are the total RBI
    minus the RBI of the home run's class (4, 3, 2 or 1), floored at 0. *)
Theorem buildScore_rbi_non_hr_single (stats : Batting.t) (plays : list Play) :
  JS.or0 (Batting.homeRuns stats) ≤ 1 →
  let b := breakdown (buildScoreFromStatsAndPlays stats plays) in
  rbi_non_hr b = Z.max 0 (JS.or0 (Batting.rbi stats) - spec_creditedRBI b)
  ∧ 0 ≤ rbi_non_hr b ≤ Z.max 0 (JS.or0 (Batting.rbi stats)).
Proof.
  intros Hh b.
  pose proof (buildScore_rbi_non_hr stats plays) as Hr. cbv zeta in Hr.
  pose proof (buildScore_classes stats plays) as Hc. cbv zeta in Hc.
  fold b in Hr, Hc. unfold spec_creditedRBI in *.
  decompose [and or] Hc; split; nia.
Qed.

Lemma buildScore_rbi_non_hr_single_witness :
  rbi_non_hr (breakdown (buildScoreFromStatsAndPlays one_grand_slam [])) = 1.
Proof.
  destruct (buildScore_rbi_non_hr_single one_grand_slam []) as [Heq _].
  - simpl. lia.
  - rewrite Heq. reflexivity.
Defined.

Lemma buildScore_consistent_facts (stats : Batting.t) (plays : list Play) :
  consistent_line stats →
  let b := breakdown (buildScoreFromStatsAndPlays stats plays) in
  0 ≤ singles b ∧ 0 ≤ doubles b ∧ 0 ≤ triples b
  ∧ 0 ≤ hr_solo b ∧ 0 ≤ hr_2r b ∧ 0 ≤ hr_3r b ∧ 0 ≤ hr_gs b
  ∧ 0 ≤ walks b ∧ 0 ≤ hbp b ∧ 0 ≤ rbi_non_hr b ∧ 0 ≤ runs_non_hr b
  ∧ 0 ≤ strikeouts b ∧ 0 ≤ gidp b ∧ 0 ≤ fielders_choice b
  ∧ singles b + doubles b + triples b
    + (hr_solo b + hr_2r b + hr_3r b + hr_gs b)
    = JS.or0 (Batting.hits stats)
  ∧ rbi_non_hr b ≤ JS.or0 (Batting.rbi stats).
Proof.
  intros (Hd & Ht & Hh & Hw & Hk & Hg & Hr & Hrun & Hhits) b.
  pose proof (buildScore_rbi_non_hr stats plays) as Hrbi. cbv zeta in Hrbi.
  pose proof (buildScore_classes stats plays) as Hc. cbv zeta in Hc.
  pose proof (buildScore_copied stats plays) as Hcp. cbv zeta in Hcp.
  fold b in Hrbi, Hc, Hcp. unfold spec_creditedRBI in *.
  destruct Hcp as (Hs1 & Hs2 & Hs3 & Hs4 & Hs5 & Hs6 & Hs7 & Hs8 & Hs9).
  decompose [and or] Hc; repeat split; nia.
Qed.

(** X7. On a consistent line nothing in the breakdown is negative, the hits
    are split exactly into singles, doubles, triples and home runs, and the
    non-home-run RBI never exceed the RBI. *)
Theorem buildScore_consistent (stats : Batting.t) (plays : list Play) :
  consistent_line stats →
  let b := breakdown (buildScoreFromStatsAndPlays stats plays) in
  0 ≤ singles b ∧ 0 ≤ doubles b ∧ 0 ≤ triples b
  ∧ 0 ≤ hr_solo b ∧ 0 ≤ hr_2r b ∧ 0 ≤ hr_3r b ∧ 0 ≤ hr_gs b
  ∧ 0 ≤ walks b ∧ 0 ≤ hbp b ∧ 0 ≤ rbi_non_hr b ∧ 0 ≤ runs_non_hr b
  ∧ 0 ≤ strikeouts b ∧ 0 ≤ gidp b ∧ 0 ≤ fielders_choice b
  ∧ singles b + doubles b + triples b
    + (hr_solo b + hr_2r b + hr_3r b + hr_gs b)
    = JS.or0 (Batting.hits stats)
  ∧ rbi_non_hr b ≤ JS.or0 (Batting.rbi stats).
Proof. apply buildScore_consistent_facts. Qed.

Lemma buildScore_consistent_witness :
  let b := breakdown (buildScoreFromStatsAndPlays one_grand_slam []) in
  singles b + doubles b + triples b + (hr_solo b + hr_2r b + hr_3r b + hr_gs b) = 2.
Proof.
  intros b.
  assert (Hok : consistent_line one_grand_slam)
    by (unfold consistent_line; simpl; lia).
  pose proof (buildScore_consistent one_grand_slam [] Hok) as Hb. cbv zeta in Hb.
  fold b in Hb. apply Hb.
Defined.

(** X8. On a consistent line only strikeouts and double plays take points
    away: the base points are at least -5 per strikeout and -10 per double
    play, so they are not negative when the line has neither. *)
Theorem buildScore_points_lower_bound (stats : Batting.t) (plays : list Play) :
  consistent_line stats →
  - 5 * JS.or0 (Batting.strikeOuts stats)
  - 10 * JS.or0 (Batting.groundIntoDoublePlay stats)
  ≤ points (buildScoreFromStatsAndPlays stats plays).
Proof.
  intros Hok.
  pose proof (buildScore_consistent_facts stats plays Hok) as Hb. cbv zeta in Hb.
  pose proof (buildScore_copied stats plays) as Hcp. cbv zeta in Hcp.
  change (points (buildScoreFromStatsAndPlays stats plays))
    with (calculateBasePoints (breakdown (buildScoreFromStatsAndPlays stats plays))).
  rewrite calculateBasePoints_table.
  destruct Hcp as (_ & _ & _ & _ & Hk & Hg & _).
  rewrite <- Hk, <- Hg. lia.
Qed.

Lemma buildScore_points_lower_bound_witness :
  -5 ≤ points (buildScoreFromStatsAndPlays one_grand_slam []).
Proof.
  assert (Hok : consistent_line one_grand_slam)
    by (unfold consistent_line; simpl; lia).
  apply (buildScore_points_lower_bound one_grand_slam [] Hok).
Defined.

(** X9. The outcome codes repeat each code as often as its counter says, in
    the fixed order 1B, 2B, 3B, HR, BB, K, GIDP, and no other code occurs; on
    a consistent line there are as many codes as hits, walks, strikeouts and
    double plays together. *)
Theorem buildScore_outcomes (stats : Batting.t) (plays : list Play) :
  let s := buildScoreFromStatsAndPlays stats plays in
  let b := breakdown s in
  outcomes s
  = replicate (Z.to_nat (singles b)) C1B ++ replicate (Z.to_nat (doubles b)) C2B
    ++ replicate (Z.to_nat (triples b)) C3B
    ++ replicate (Z.to_nat (hr_solo b + hr_2r b + hr_3r b + hr_gs b)) HR
    ++ replicate (Z.to_nat (walks b)) BB ++ replicate (Z.to_nat (strikeouts b)) K
    ++ replicate (Z.to_nat (gidp b)) GIDP
  ∧ (∀ c, c ∈ outcomes s → c ∈ [C1B; C2B; C3B; HR; BB; K; GIDP])
  ∧ (consistent_line stats →
     Z.of_nat (length (outcomes s))
     = JS.or0 (Batting.hits stats) + JS.or0 (Batting.baseOnBalls stats)
       + JS.or0 (Batting.strikeOuts stats)
       + JS.or0 (Batting.groundIntoDoublePlay stats)).
Proof.
  intros s b.
  assert (Hout : outcomes s
    = replicate (Z.to_nat (singles b)) C1B ++ replicate (Z.to_nat (doubles b)) C2B
      ++ replicate (Z.to_nat (triples b)) C3B
      ++ replicate (Z.to_nat (hr_solo b + hr_2r b + hr_3r b + hr_gs b)) HR
      ++ replicate (Z.to_nat (walks b)) BB ++ replicate (Z.to_nat (strikeouts b)) K
      ++ replicate (Z.to_nat (gidp b)) GIDP).
  { unfold s, b, buildScoreFromStatsAndPlays, push_times.
    cbn [outcomes breakdown]. rewrite app_nil_l, <- !app_assoc. reflexivity. }
  split; [exact Hout | split].
  - intros c Hc. rewrite Hout in Hc.
    rewrite !elem_of_app in Hc. rewrite !elem_of_cons.
    destruct Hc as [Hc | [Hc | [Hc | [Hc | [Hc | [Hc | Hc]]]]]];
      apply elem_of_replicate in Hc as [-> _]; auto 10.
  - intros Hok.
    pose proof (buildScore_consistent_facts stats plays Hok) as Hb. cbv zeta in Hb.
    pose proof (buildScore_copied stats plays) as Hcp. cbv zeta in Hcp.
    rewrite Hout. rewrite !length_app, !length_replicate.
    destruct Hcp as (_ & _ & _ & Hw & Hk & Hg & _).
    unfold b, s in *. lia.
Qed.

Lemma buildScore_outcomes_witness :
  outcomes (buildScoreFromStatsAndPlays one_grand_slam []) = [C2B; HR; BB; K]
  ∧ Z.of_nat (length (outcomes (buildScoreFromStatsAndPlays one_grand_slam []))) = 4.
Proof.
  destruct (buildScore_outcomes one_grand_slam []) as (Hout & _ & Hlen).
  split.
  - rewrite Hout. reflexivity.
  - rewrite Hlen; [reflexivity |]. unfold consistent_line; simpl; lia.
Defined.

(** ** Live scoring: [fetchLiveGameData] *)

Lemma build_points_eq (stats : Batting.t) (plays : list Play) :
  points (buildScoreFromStatsAndPlays stats plays)
  = calculateBasePoints (breakdown (buildScoreFromStatsAndPlays stats plays)).
Proof. reflexivity. Qed.

(** What the callback returns for one pick. *)
Lemma scorePick_fields (playersObj : gmap string BoxPlayer) (allPlays : list Play)
    (batters : list Batter.t) (boosters : Boosters) (bId : Z) :
  let r := scorePick playersObj allPlays batters boosters bId in
  ∃ b base,
    PlayerPickResult.batterId r = bId
    ∧ PlayerPickResult.breakdown r = Some b
    ∧ PlayerPickResult.basePoints r = Some base
    ∧ PlayerPickResult.boost r = Some (get0 boosters (Some bId))
    ∧ base = calculateBasePoints b
    ∧ PlayerPickResult.points r
      = applyBoost base (inject_Z (get0 boosters (Some bId))).
Proof.
  intros r. unfold r, scorePick.
  set (score := buildScoreFromStatsAndPlays _ _).
  assert (Hbase : points score = calculateBasePoints (breakdown score))
    by apply build_points_eq.
  clearbody score.
  cbn [PlayerPickResult.batterId PlayerPickResult.breakdown
       PlayerPickResult.basePoints PlayerPickResult.boost
       PlayerPickResult.points].
  exists (breakdown score), (points score). unfold applyBoost.
  repeat split. exact Hbase.
Qed.

(** X10. A successful call returns one result per pick, in pick order, and
    each result is consistent: its base points are the point table applied to
    its breakdown, its boost is the stored percent of the pick (0 when there
    is none), and its points are [applyBoost] of the two. *)
Theorem fetchLiveGameData_results
    (response : LiveResponse) (lineupInfo : option LineupInfo.t)
    (batters : list Batter.t) (playerPicks : list Z) (boosters : Boosters)
    (data : LiveGameData) :
  fetchLiveGameData response lineupInfo batters playerPicks boosters = inr data →
  PlayerPickResult.batterId <$> battersResults data = playerPicks
  ∧ Forall (λ r, ∃ b base,
              PlayerPickResult.breakdown r = Some b
              ∧ PlayerPickResult.basePoints r = Some base
              ∧ PlayerPickResult.boost r
                = Some (get0 boosters (Some (PlayerPickResult.batterId r)))
              ∧ base = calculateBasePoints b
              ∧ PlayerPickResult.points r
                = applyBoost base
                    (inject_Z (get0 boosters (Some (PlayerPickResult.batterId r)))))
           (battersResults data).
Proof.
  unfold fetchLiveGameData. intros Hcall.
  destruct lineupInfo as [lineupInfo|]; [| discriminate].
  destruct (decide (LineupInfo.gamePk lineupInfo = 0)); [discriminate |].
  destruct response as [|[] status [json|]]; try discriminate.
  injection Hcall as <-. cbn [battersResults]. split.
  - rewrite <- list_fmap_compose. rewrite <- (list_fmap_id playerPicks) at 2.
    apply list_fmap_ext. intros i bId _. reflexivity.
  - apply Forall_fmap, Forall_forall. intros bId _.
    destruct (scorePick_fields
                (default ∅ (box_players <$> LiveFeed.teams json (LineupInfo.side lineupInfo)))
                (default [] (LiveFeed.allPlays json)) batters boosters bId)
      as (b & base & Hid & Hb & Hbase & Hboost & Heq & Hpts).
    exists b, base. rewrite Hid. auto.
Qed.

Lemma fetchLiveGameData_results_witness :
  match fetchLiveGameData (LiveAnswer true 200 (Some sample_feed))
          (Some sample_lineup) sample_batters [1; 2; 3]
          (boosters_of [(1, 34); (2, 33); (3, 33)]) with
  | inr data =>
    PlayerPickResult.batterId <$> battersResults data = [1; 2; 3]
    ∧ PlayerPickResult.points <$> battersResults data = [4930; 0; 0]
  | inl _ => False
  end.
Proof.
  pose proof (fetchLiveGameData_results (LiveAnswer true 200 (Some sample_feed))
                (Some sample_lineup) sample_batters [1; 2; 3]
                (boosters_of [(1, 34); (2, 33); (3, 33)])) as Hres.
  destruct (fetchLiveGameData _ _ _ _ _) as [e | data] eqn:Hcall.
  - vm_compute in Hcall. discriminate.
  - split; [apply (Hres data eq_refl) |].
    vm_compute in Hcall. injection Hcall as <-. reflexivity.
Defined.

(** X11. The call succeeds exactly when there is a lineup with a game id
    other than 0 and the feed answers with a success status and a readable
    body. Without a game id it fails before the answer of the feed matters,
    and a failure status is reported with its number. *)
Theorem fetchLiveGameData_errors
    (response : LiveResponse) (lineupInfo : option LineupInfo.t)
    (batters : list Batter.t) (playerPicks : list Z) (boosters : Boosters) :
  ((∃ data, fetchLiveGameData response lineupInfo batters playerPicks boosters
            = inr data)
   ↔ ∃ li status json,
       lineupInfo = Some li ∧ LineupInfo.gamePk li ≠ 0
       ∧ response = LiveAnswer true status (Some json))
  ∧ ((lineupInfo = None ∨ LineupInfo.gamePk <$> lineupInfo = Some 0) →
     fetchLiveGameData response lineupInfo batters playerPicks boosters
     = inl MissingGameId)
  ∧ (∀ li status body,
       lineupInfo = Some li → LineupInfo.gamePk li ≠ 0 →
       response = LiveAnswer false status body →
       fetchLiveGameData response lineupInfo batters playerPicks boosters
       = inl (LiveFeedHTTP status)).
Proof.
  unfold fetchLiveGameData. split; [split | split].
  - intros [data Hcall].
    destruct lineupInfo as [li|]; [| discriminate].
    destruct (decide (LineupInfo.gamePk li = 0)); [discriminate |].
    destruct response as [|[] status [json|]]; try discriminate.
    exists li, status, json. auto.
  - intros (li & status & json & -> & Hpk & ->).
    rewrite decide_False by exact Hpk. eexists. reflexivity.
  - intros [-> | Hzero]; [reflexivity |].
    destruct lineupInfo as [li|]; [| reflexivity].
    injection Hzero as Hzero. now rewrite decide_True.
  - intros li status body -> Hpk ->. now rewrite decide_False.
Qed.

Lemma fetchLiveGameData_errors_witness :
  fetchLiveGameData (LiveAnswer true 200 (Some sample_feed)) None
    sample_batters [1; 2; 3] ∅ = inl MissingGameId
  ∧ fetchLiveGameData (LiveAnswer false 503 None) (Some sample_lineup)
      sample_batters [1; 2; 3] ∅ = inl (LiveFeedHTTP 503).
Proof.
  split.
  - destruct (fetchLiveGameData_errors (LiveAnswer true 200 (Some sample_feed)) None
                sample_batters [1; 2; 3] ∅) as (_ & Hmiss & _).
    apply Hmiss. now left.
  - destruct (fetchLiveGameData_errors (LiveAnswer false 503 None) (Some sample_lineup)
                sample_batters [1; 2; 3] ∅) as (_ & _ & Hhttp).
    apply (Hhttp sample_lineup 503 None); [reflexivity | simpl; lia | reflexivity].
Defined.

(** The score of the empty line. *)
Lemma buildScore_empty (plays : list Play) :
  points (buildScoreFromStatsAndPlays Batting.empty plays) = 0
  ∧ outcomes (buildScoreFromStatsAndPlays Batting.empty plays) = [].
Proof. split; reflexivity. Qed.

(** X12. A pick scores nothing when its batter cannot be found in the feed:
    when no batter of the list has the picked id, when the batter has no MLB
    id or the id 0, or when the boxscore has no batting line under the
    batter's key. Its points and base points are 0 and it has no outcome
    codes, whatever its boost is. *)
Theorem scorePick_unknown
    (playersObj : gmap string BoxPlayer) (allPlays : list Play)
    (batters : list Batter.t) (boosters : Boosters) (bId : Z) :
  let pid := (snd <$> list_find (λ b, Batter.id b = bId) batters) ≫= Batter.mlbId in
  (pid = None ∨ pid = Some 0
   ∨ ∃ p, pid = Some p ∧ playersObj !! idKey p ≫= batting = None) →
  let r := scorePick playersObj allPlays batters boosters bId in
  PlayerPickResult.points r = 0
  ∧ PlayerPickResult.basePoints r = Some 0
  ∧ PlayerPickResult.outcomes r = [].
Proof.
  intros pid Hpid r. unfold r, scorePick. fold pid.
  destruct Hpid as [-> | [-> | (p & -> & Hline)]].
  - repeat split.
  - repeat split.
  - destruct (decide (p = 0)); [repeat split |].
    rewrite Hline. repeat split.
Qed.

Lemma scorePick_unknown_witness :
  let r := scorePick ∅ [] sample_batters (boosters_of [(9, 100)]) 9 in
  PlayerPickResult.points r = 0 ∧ PlayerPickResult.basePoints r = Some 0
  ∧ PlayerPickResult.outcomes r = [].
Proof.
  apply (scorePick_unknown ∅ [] sample_batters (boosters_of [(9, 100)]) 9).
  now left.
Defined.

(** ** HistoryManager: the stored log *)

(** X14. A history that cannot be read is an empty history: with no text
    under the key, an empty text, a text that does not parse or a value
    without a games array, loading gives no games and zeroed statistics, and
    so does loading after [clearHistoricalData], which is idempotent. *)
Theorem history_unreadable_is_empty (now : Z) (st : Store) :
  ((∀ d, st !! HISTORY_STORAGE_KEY ≠ Some (Json (PHistory d))) →
   loadHistoricalData now st = createEmptyHistoricalData now
   ∧ getHistoricalStats now st = Stats.zero
   ∧ ∀ limit, getRecentGames limit now st = [])
  ∧ loadHistoricalData now (clearHistoricalData st) = createEmptyHistoricalData now
  ∧ clearHistoricalData (clearHistoricalData st) = clearHistoricalData st.
Proof.
  assert (Hempty : ∀ st0 : Store,
            (∀ d, st0 !! HISTORY_STORAGE_KEY ≠ Some (Json (PHistory d))) →
            loadHistoricalData now st0 = createEmptyHistoricalData now).
  { intros st0 Hno. unfold loadHistoricalData, storage.getItem.
    destruct (st0 !! HISTORY_STORAGE_KEY) as [[| |[]]|] eqn:Hkey;
      try reflexivity.
    now contradiction (Hno d). }
  split; [| split].
  - intros Hno. split; [apply Hempty, Hno | split].
    + unfold getHistoricalStats. now rewrite Hempty.
    + intros limit. unfold getRecentGames, slice0. rewrite Hempty by exact Hno.
      cbn [HistoricalData.games createEmptyHistoricalData].
      destruct (limit <? 0); apply take_nil.
  - apply Hempty. intros d. unfold clearHistoricalData, storage.removeItem.
    rewrite lookup_delete_eq. discriminate.
  - unfold clearHistoricalData, storage.removeItem. apply delete_delete_eq.
Qed.

Lemma history_unreadable_is_empty_witness :
  let st : Store := {[ HISTORY_STORAGE_KEY := Unparseable ]} in
  loadHistoricalData 7 st = createEmptyHistoricalData 7
  ∧ getRecentGames 10 7 st = [].
Proof.
  intros st.
  destruct (history_unreadable_is_empty 7 st) as [Hbad _].
  destruct Hbad as (Hload & _ & Hrecent).
  - intros d. unfold st. rewrite lookup_singleton_eq. discriminate.
  - split; [exact Hload | apply Hrecent].
Defined.

(** X15. The two managers keep to their own key: no operation of the history
    changes what is stored under any other key, no operation on the app
    state changes what is stored under any key but its own, and loading the
    history changes nothing at all. *)
Theorem managers_keep_to_their_key `{DateRuntime} (st : Store) (key : string) :
  (key ≠ HISTORY_STORAGE_KEY →
   (∀ players batters lineupInfo gameStatus finalScore now,
      addGameToHistory players batters lineupInfo gameStatus finalScore now st
        !! key = st !! key)
   ∧ (∀ data now, saveHistoricalData data now st !! key = st !! key)
   ∧ clearHistoricalData st !! key = st !! key)
  ∧ (key ≠ STORAGE_KEY →
     (∀ state now, saveAppState state now st !! key = st !! key)
     ∧ clearAppState st !! key = st !! key
     ∧ (∀ tomorrow today now,
          (loadAppState tomorrow today now st).2 !! key = st !! key)).
Proof.
  split; intros Hkey.
  - assert (Hsave : ∀ data now, saveHistoricalData data now st !! key = st !! key).
    { intros data now. unfold saveHistoricalData, storage.setItem.
      now rewrite lookup_insert_ne. }
    split; [| split; [exact Hsave |]].
    + intros players batters lineupInfo gameStatus finalScore now.
      unfold addGameToHistory.
      destruct (gameDateOf lineupInfo now); [apply Hsave | reflexivity].
    + unfold clearHistoricalData, storage.removeItem. now rewrite lookup_delete_ne.
  - split; [| split].
    + intros state now. unfold saveAppState, storage.setItem.
      now rewrite lookup_insert_ne.
    + unfold clearAppState, storage.removeItem. now rewrite lookup_delete_ne.
    + intros tomorrow today now.
      assert (Hst : (loadAppState tomorrow today now st).2 = st
                    ∨ (loadAppState tomorrow today now st).2 = delete STORAGE_KEY st).
      { unfold loadAppState, storage.removeItem. repeat case_match; simpl; auto. }
      destruct Hst as [-> | ->]; [reflexivity | now rewrite lookup_delete_ne].
Qed.

Lemma managers_keep_to_their_key_witness :
  let st : Store := {[ STORAGE_KEY := Unparseable ]} in
  @addGameToHistory sampleDates [sample_player 155] sample_batters sample_lineup
    "Final" None 1756610000000 st !! STORAGE_KEY = Some Unparseable
  ∧ clearAppState {[ HISTORY_STORAGE_KEY := Unparseable ]} !! HISTORY_STORAGE_KEY
    = Some Unparseable.
Proof.
  intros st. split.
  - destruct (@managers_keep_to_their_key sampleDates st STORAGE_KEY) as [Hhist _].
    destruct Hhist as (Hadd & _ & _); [discriminate |].
    rewrite Hadd. reflexivity.
  - destruct (@managers_keep_to_their_key sampleDates
                {[ HISTORY_STORAGE_KEY := Unparseable ]} HISTORY_STORAGE_KEY)
      as [_ Happ].
    destruct Happ as (_ & Hclear & _); [discriminate |].
    rewrite Hclear. reflexivity.
Defined.

(** X16. A game whose date string does not parse is not recorded: the call
    returns with the store exactly as it was. Without a date string, or with
    an empty one, the game is filed under the day of the call. *)
Theorem addGameToHistory_date `{DateRuntime}
    (players : list Player.t) (batters : list Batter.t)
    (lineupInfo : LineupInfo.t) (gameStatus : string)
    (finalScore : option (Z * Z)) (now : Z) (st : Store) :
  (∀ s, LineupInfo.gameDate lineupInfo = Some s → Date_parse s = None →
        s ≠ "" →
        addGameToHistory players batters lineupInfo gameStatus finalScore now st
        = st)
  ∧ ((LineupInfo.gameDate lineupInfo = None
      ∨ LineupInfo.gameDate lineupInfo = Some "") →
     historicalGameOf players batters lineupInfo gameStatus finalScore
       (isoDate now) now
     ∈ stored_games
         (addGameToHistory players batters lineupInfo gameStatus finalScore now st)).
Proof.
  split.
  - intros s Hs Hparse Hne.
    apply stored_games_addGameToHistory_no_date.
    unfold gameDateOf. rewrite Hs, decide_False by exact Hne.
    now rewrite Hparse.
  - intros Hnone.
    assert (Hdate : gameDateOf lineupInfo now = Some (isoDate now)).
    { unfold gameDateOf. destruct Hnone as [-> | ->]; reflexivity. }
    rewrite (stored_games_addGameToHistory _ _ _ _ _ _ _ _ Hdate).
    rewrite Array_sort_Permutation. apply upsert_elem.
Qed.

Lemma addGameToHistory_date_witness :
  let lineup :=
    {| LineupInfo.gamePk := 12345; LineupInfo.opponent := "Guardians";
       LineupInfo.side := home; LineupInfo.firstPitchLocal := None;
       LineupInfo.gameDate := Some "soon" |} in
  @addGameToHistory sampleDates [sample_player 155] sample_batters lineup
    "Final" None 1756610000000 ∅ = ∅.
Proof.
  intros lineup.
  destruct (@addGameToHistory_date sampleDates [sample_player 155] sample_batters
              lineup "Final" None 1756610000000 ∅) as [Hbad _].
  apply (Hbad "soon"); [reflexivity | reflexivity | discriminate].
Defined.

(** X17. A stored pick carries the batter id and the points of the result as
    they are, and the base points and the boost with 0 for a missing value;
    it takes the name and the MLB id of the first batter that has its id,
    and is labelled ["Batter <id>"] when that name is empty or when there is
    no such batter, in which case it has no MLB id. *)
Theorem historicalPick_fields (batters : list Batter.t) (result : PlayerPickResult.t) :
  let pick := historicalPick batters result in
  HistoricalPick.batterId pick = PlayerPickResult.batterId result
  ∧ HistoricalPick.points pick = PlayerPickResult.points result
  ∧ HistoricalPick.basePoints pick = JS.or0 (PlayerPickResult.basePoints result)
  ∧ HistoricalPick.boost pick = JS.or0 (PlayerPickResult.boost result)
  ∧ HistoricalPick.breakdown pick = PlayerPickResult.breakdown result
  ∧ (Forall (λ b, Batter.id b ≠ PlayerPickResult.batterId result) batters →
     HistoricalPick.batterName pick
     = "Batter " +:+ pretty (PlayerPickResult.batterId result)
     ∧ HistoricalPick.mlbId pick = None)
  ∧ (∀ (i : nat) b,
       batters !! i = Some b →
       Batter.id b = PlayerPickResult.batterId result →
       (∀ (j : nat) c, batters !! j = Some c → (j < i)%nat →
                       Batter.id c ≠ PlayerPickResult.batterId result) →
       HistoricalPick.mlbId pick = Batter.mlbId b
       ∧ HistoricalPick.batterName pick
         = if decide (Batter.name b = "")
           then "Batter " +:+ pretty (PlayerPickResult.batterId result)
           else Batter.name b).
Proof.
  intros pick. unfold pick, historicalPick.
  cbn [HistoricalPick.batterId HistoricalPick.points HistoricalPick.basePoints
       HistoricalPick.boost HistoricalPick.breakdown HistoricalPick.batterName
       HistoricalPick.mlbId].
  split; [reflexivity |]. split; [reflexivity |]. split; [reflexivity |].
  split; [reflexivity |]. split; [reflexivity |]. split.
  - intros Hnone.
    assert (Hfind : list_find (λ b, Batter.id b = PlayerPickResult.batterId result)
                      batters = None) by (apply list_find_None; exact Hnone).
    rewrite Hfind. split; reflexivity.
  - intros i b Hi Hid Hfirst.
    assert (Hfind : list_find (λ b, Batter.id b = PlayerPickResult.batterId result)
                      batters = Some (i, b)).
    { apply list_find_Some. split; [exact Hi | split; [exact Hid |]].
      intros j c Hj Hlt. now apply (Hfirst j c). }
    rewrite Hfind. split; reflexivity.
Qed.

Lemma historicalPick_fields_witness :
  let result :=
    {| PlayerPickResult.batterId := 7; PlayerPickResult.outcomes := [];
       PlayerPickResult.points := -5; PlayerPickResult.breakdown := None;
       PlayerPickResult.boost := None; PlayerPickResult.basePoints := None |} in
  HistoricalPick.batterName (historicalPick sample_batters result) = "Batter 7"
  ∧ HistoricalPick.mlbId (historicalPick sample_batters result) = None.
Proof.
  intros result.
  destruct (historicalPick_fields sample_batters result)
    as (_ & _ & _ & _ & _ & Hunknown & _).
  apply Hunknown. repeat constructor; simpl; lia.
Defined.

(** ** HistoryManager: order and upsert *)

(** Insertion into a list that is in order keeps it in order, for a
    comparator that agrees with a key. *)
Lemma sort_insert_sorted {A} (cmp : A → A → option Z) (k : A → Z) (x : A) (l : list A) :
  (∀ y, y ∈ l → (0 <? default 0 (cmp x y)) = (k x <? k y)) →
  StronglySorted (λ a b, k b ≤ k a) l →
  StronglySorted (λ a b, k b ≤ k a) (sort_insert cmp x l).
Proof.
  intros Hcmp Hsorted. induction Hsorted as [|y l Hl IH Hy]; simpl.
  - repeat constructor.
  - rewrite (Hcmp y) by (apply elem_of_cons; now left).
    destruct (k x <? k y) eqn:Hlt.
    + apply Z.ltb_lt in Hlt. constructor.
      * apply IH. intros z Hz. apply Hcmp, elem_of_cons. now right.
      * rewrite sort_insert_Permutation. constructor; [lia | exact Hy].
    + apply Z.ltb_ge in Hlt. constructor; [now constructor |].
      constructor; [exact Hlt |].
      eapply Forall_impl; [exact Hy |]. simpl. intros z Hz. lia.
Qed.

Lemma Array_sort_sorted {A} (cmp : A → A → option Z) (k : A → Z) (l : list A) :
  (∀ x y, x ∈ l → y ∈ l → (0 <? default 0 (cmp x y)) = (k x <? k y)) →
  StronglySorted (λ a b, k b ≤ k a) (Array_sort cmp l).
Proof.
  unfold Array_sort. induction l as [|x l IH]; intros Hcmp; simpl.
  - constructor.
  - apply sort_insert_sorted.
    + intros y Hy. apply Hcmp; [apply elem_of_cons; now left |].
      apply elem_of_cons. right.
      change (foldr (sort_insert cmp) [] l) with (Array_sort cmp l) in Hy.
      now rewrite Array_sort_Permutation in Hy.
    + apply IH. intros a b Ha Hb. apply Hcmp; apply elem_of_cons; now right.
Qed.

Lemma byDateDesc_key `{DateRuntime} (a b : HistoricalGame.t) :
  is_Some (Date_parse (HistoricalGame.date a)) →
  is_Some (Date_parse (HistoricalGame.date b)) →
  (0 <? default 0 (byDateDesc a b)) = (game_time a <? game_time b).
Proof.
  intros [ta Ha] [tb Hb]. unfold byDateDesc, game_time. rewrite Ha, Hb. simpl.
  apply eq_true_iff_eq. rewrite !Z.ltb_lt. lia.
Qed.

Lemma upsert_elem_inv (game g : HistoricalGame.t) (games : list HistoricalGame.t) :
  g ∈ upsert game games → g = game ∨ g ∈ games.
Proof.
  unfold upsert.
  destruct (list_find _ games) as [[i found]|]; simpl; intros Hin.
  - apply list_elem_of_lookup in Hin as [j Hj].
    destruct (decide (i = j)) as [-> | Hne].
    + destruct (decide (j < length games)%nat) as [Hlt | Hge].
      * rewrite list_lookup_insert_eq in Hj by exact Hlt. left. congruence.
      * rewrite list_insert_ge in Hj by lia. right.
        apply list_elem_of_lookup. eauto.
    + rewrite list_lookup_insert_ne in Hj by exact Hne. right.
      apply list_elem_of_lookup. eauto.
  - apply elem_of_app in Hin as [Hin | Hin]; [now right |].
    apply list_elem_of_singleton in Hin. now left.
Qed.

(** X18. After a game is added the stored games are in order, newest first,
    provided the date strings of the stored games and of the new game parse;
    they all still parse afterwards. *)
Theorem addGameToHistory_newest_first `{DateRuntime}
    (players : list Player.t) (batters : list Batter.t)
    (lineupInfo : LineupInfo.t) (gameStatus : string)
    (finalScore : option (Z * Z)) (now : Z) (st : Store) (gameDate : string) :
  gameDateOf lineupInfo now = Some gameDate →
  is_Some (Date_parse gameDate) →
  dates_parse (stored_games st) →
  let st' :=
    addGameToHistory players batters lineupInfo gameStatus finalScore now st in
  newest_first (stored_games st') ∧ dates_parse (stored_games st').
Proof.
  intros Hdate Hparse Hold st'. unfold st'.
  rewrite (stored_games_addGameToHistory _ _ _ _ _ _ _ _ Hdate).
  set (game := historicalGameOf _ _ _ _ _ _ _).
  assert (Hall : ∀ g, g ∈ upsert game (stored_games st) →
                      is_Some (Date_parse (HistoricalGame.date g))).
  { intros g Hg. apply upsert_elem_inv in Hg as [-> | Hg]; [exact Hparse |].
    unfold dates_parse in Hold. rewrite Forall_forall in Hold. now apply Hold. }
  split.
  - apply (Array_sort_sorted byDateDesc game_time).
    intros x y Hx Hy. apply byDateDesc_key; now apply Hall.
  - unfold dates_parse. rewrite Array_sort_Permutation.
    apply Forall_forall. exact Hall.
Qed.

Lemma addGameToHistory_newest_first_witness :
  let lineup2 :=
    {| LineupInfo.gamePk := 12346; LineupInfo.opponent := "Guardians";
       LineupInfo.side := home; LineupInfo.firstPitchLocal := None;
       LineupInfo.gameDate := Some "2025-09-01T00:10:00Z" |} in
  let st1 :=
    @addGameToHistory sampleDates [sample_player 155] sample_batters sample_lineup
      "Final" None 1756610000000 ∅ in
  let st2 :=
    @addGameToHistory sampleDates [sample_player 75] sample_batters lineup2
      "Final" None 1756700000000 st1 in
  @newest_first sampleDates (stored_games st2)
  ∧ (HistoricalGame.date <$> stored_games st2) = ["2025-09-01"; "2025-08-31"].
Proof.
  intros lineup2 st1 st2. split; [| vm_compute; reflexivity].
  assert (H1 : @dates_parse sampleDates (stored_games st1)).
  { apply (@addGameToHistory_newest_first sampleDates _ _ _ _ _ _ _ "2025-08-31");
      [reflexivity | eexists; reflexivity | constructor]. }
  apply (@addGameToHistory_newest_first sampleDates _ _ _ _ _ _ _ "2025-09-01");
    [reflexivity | eexists; reflexivity | exact H1].
Defined.

(** X19. Adding a game touches one entry only: every stored game with
    another id is still stored afterwards, the game of the call is stored,
    and the number of stored games grows by one when the id is new and stays
    the same when it is not. *)
Theorem addGameToHistory_retains `{DateRuntime}
    (players : list Player.t) (batters : list Batter.t)
    (lineupInfo : LineupInfo.t) (gameStatus : string)
    (finalScore : option (Z * Z)) (now : Z) (st : Store) (gameDate : string) :
  gameDateOf lineupInfo now = Some gameDate →
  let gameId := gameIdOf (LineupInfo.gamePk lineupInfo) gameDate in
  let st' :=
    addGameToHistory players batters lineupInfo gameStatus finalScore now st in
  (∀ g, g ∈ stored_games st → HistoricalGame.id g ≠ gameId → g ∈ stored_games st')
  ∧ historicalGameOf players batters lineupInfo gameStatus finalScore gameDate now
    ∈ stored_games st'
  ∧ length (stored_games st')
    = (length (stored_games st)
       + if decide (gameId ∈ (HistoricalGame.id <$> stored_games st))
         then 0 else 1)%nat.
Proof.
  intros Hdate gameId st'. unfold st'.
  rewrite (stored_games_addGameToHistory _ _ _ _ _ _ _ _ Hdate).
  set (game := historicalGameOf _ _ _ _ _ _ _).
  assert (Hid : HistoricalGame.id game = gameId) by reflexivity.
  split; [| split].
  - intros g Hg Hne. rewrite Array_sort_Permutation. unfold upsert.
    destruct (list_find _ (stored_games st)) as [[i found]|] eqn:Hfind; simpl.
    + apply list_find_Some in Hfind as (Hi & Hfid & _).
      apply list_elem_of_lookup in Hg as [j Hj].
      apply list_elem_of_lookup. exists j.
      rewrite list_lookup_insert_ne; [exact Hj |].
      intros ->. rewrite Hi in Hj. injection Hj as ->. congruence.
    + apply elem_of_app. now left.
  - rewrite Array_sort_Permutation. apply upsert_elem.
  - rewrite Array_sort_Permutation. unfold upsert.
    destruct (list_find _ (stored_games st)) as [[i found]|] eqn:Hfind; simpl.
    + apply list_find_Some in Hfind as (Hi & Hfid & _).
      rewrite length_insert, decide_True; [lia |].
      apply list_elem_of_fmap. exists found. split; [congruence |].
      apply list_elem_of_lookup. eauto.
    + apply list_find_None in Hfind.
      rewrite length_app, decide_False; [reflexivity |].
      intros Hin. apply list_elem_of_fmap in Hin as (g & Hg & Hin).
      rewrite Forall_forall in Hfind. apply (Hfind g Hin). congruence.
Qed.

Lemma addGameToHistory_retains_witness :
  let old := sample_game "777_2025-08-30" "2025-08-30" 777 [40] in
  let st : Store :=
    {[ HISTORY_STORAGE_KEY := Json (PHistory (history_of [old])) ]} in
  let st' :=
    @addGameToHistory sampleDates [sample_player 155] sample_batters sample_lineup
      "Final" None 1756610000000 st in
  old ∈ stored_games st' ∧ length (stored_games st') = 2%nat.
Proof.
  intros old st st'.
  destruct (@addGameToHistory_retains sampleDates [sample_player 155]
              sample_batters sample_lineup "Final" None 1756610000000 st
              "2025-08-31" eq_refl) as (Hkeep & _ & Hlen).
  unfold st'. split.
  - apply Hkeep; [apply elem_of_cons; now left | discriminate].
  - rewrite Hlen. reflexivity.
Defined.

(** ** HistoryManager: the recomputed statistics *)

Lemma stats_players_scores (g : HistoricalGame.t)
    (ps : list HistoricalPlayer.t) (acc : StatsAcc) :
  allPlayerScores (foldl (stats_player g) acc ps)
  = allPlayerScores acc ++ (HistoricalPlayer.totalScore <$> ps).
Proof.
  revert acc. induction ps as [|p ps IH]; intros acc; simpl.
  - now rewrite app_nil_r.
  - rewrite IH. simpl. now rewrite <- app_assoc.
Qed.

Lemma stats_games_scores (games : list HistoricalGame.t) (acc : StatsAcc) :
  allPlayerScores (foldl stats_game acc games)
  = allPlayerScores acc ++ all_totals games.
Proof.
  revert acc. induction games as [|g games IH]; intros acc.
  - simpl. now rewrite app_nil_r.
  - change (all_totals (g :: games))
      with ((HistoricalPlayer.totalScore <$> HistoricalGame.players g)
            ++ all_totals games).
    simpl. rewrite IH. unfold stats_game. rewrite stats_players_scores.
    now rewrite <- app_assoc.
Qed.

(** The statistics are a function of the games alone. *)
Lemma updateHistoricalStats_stats_ext (d1 d2 : HistoricalData.t) :
  HistoricalData.games d1 = HistoricalData.games d2 →
  HistoricalData.stats (updateHistoricalStats d1)
  = HistoricalData.stats (updateHistoricalStats d2).
Proof.
  intros Hg. unfold updateHistoricalStats. rewrite Hg.
  destruct (HistoricalData.games d2); reflexivity.
Qed.

(** X20. The statistics are recomputed from the games, never carried over:
    after a game is added, the stored statistics are those of the stored
    games, whatever statistics were stored before, and the game count is the
    number of stored games, at least 1. *)
Theorem addGameToHistory_stats `{DateRuntime}
    (players : list Player.t) (batters : list Batter.t)
    (lineupInfo : LineupInfo.t) (gameStatus : string)
    (finalScore : option (Z * Z)) (now later : Z) (st : Store) (gameDate : string) :
  gameDateOf lineupInfo now = Some gameDate →
  let st' :=
    addGameToHistory players batters lineupInfo gameStatus finalScore now st in
  getHistoricalStats later st'
  = HistoricalData.stats (updateHistoricalStats (history_of (stored_games st')))
  ∧ Stats.totalGames (getHistoricalStats later st')
    = Z.of_nat (length (stored_games st'))
  ∧ 1 ≤ Stats.totalGames (getHistoricalStats later st').
Proof.
  intros Hdate st'.
  assert (Hgames : stored_games st'
                   = Array_sort byDateDesc
                       (upsert (historicalGameOf players batters lineupInfo
                                  gameStatus finalScore gameDate now)
                               (stored_games st)))
    by apply (stored_games_addGameToHistory _ _ _ _ _ _ _ _ Hdate).
  assert (Hstats : getHistoricalStats later st'
                   = HistoricalData.stats
                       (updateHistoricalStats (history_of (stored_games st')))).
  { rewrite Hgames. unfold st', getHistoricalStats, addGameToHistory.
    rewrite Hdate. unfold loadHistoricalData at 1, saveHistoricalData,
      storage.getItem, storage.setItem.
    rewrite lookup_insert_eq. cbn [falsy_text JSON_stringify mbind option_bind
      JSON_parse HistoricalData.stats].
    rewrite loadHistoricalData_games. apply updateHistoricalStats_stats_ext.
    reflexivity. }
  assert (Hne : stored_games st' ≠ []).
  { rewrite Hgames. intros Hnil.
    pose proof (upsert_elem (historicalGameOf players batters lineupInfo
                               gameStatus finalScore gameDate now)
                  (stored_games st)) as Hin.
    rewrite <- (Array_sort_Permutation byDateDesc) in Hin.
    rewrite Hnil in Hin. now apply elem_of_nil in Hin. }
  rewrite Hstats. split; [reflexivity |].
  unfold updateHistoricalStats, history_of. cbn [HistoricalData.games].
  destruct (stored_games st') as [|g games]; [contradiction |].
  cbn [HistoricalData.stats Stats.totalGames]. split; [reflexivity |].
  simpl length. lia.
Qed.

Lemma addGameToHistory_stats_witness :
  let st : Store :=
    {[ HISTORY_STORAGE_KEY :=
         Json (PHistory
                 {| HistoricalData.games := [];
                    HistoricalData.stats :=
                      {| Stats.totalGames := 99; Stats.averageScore := None;
                         Stats.bestScore := 1000; Stats.bestGame := Some "x";
                         Stats.favoritePlayer := Some "y" |};
                    HistoricalData.lastUpdated := 0 |}) ]} in
  let st' :=
    @addGameToHistory sampleDates [sample_player 155] sample_batters sample_lineup
      "Final" None 1756610000000 st in
  Stats.totalGames (getHistoricalStats 0 st') = 1.
Proof.
  intros st st'.
  destruct (@addGameToHistory_stats sampleDates [sample_player 155] sample_batters
              sample_lineup "Final" None 1756610000000 0 st "2025-08-31" eq_refl)
    as (_ & Hcount & _).
  unfold st'. rewrite Hcount. reflexivity.
Defined.

(** X21. The best score of a non-empty history is the largest of 0 and all
    the players' totals. When some total is positive it is the largest total
    and the best game is the first game in which a player reaches it; when
    none is, the best score is 0 and there is no best game. *)
Theorem updateHistoricalStats_best (data : HistoricalData.t) :
  HistoricalData.games data ≠ [] →
  let totals := all_totals (HistoricalData.games data) in
  let stats := HistoricalData.stats (updateHistoricalStats data) in
  Stats.bestScore stats = foldl Z.max 0 totals
  ∧ ((∃ t, t ∈ totals ∧ 0 < t) →
     max_total totals = Some (Stats.bestScore stats)
     ∧ Stats.bestGame stats
       = first_game_reaching (Stats.bestScore stats) (HistoricalData.games data))
  ∧ ((∀ t, t ∈ totals → t ≤ 0) →
     Stats.bestScore stats = 0 ∧ Stats.bestGame stats = None).
Proof.
  intros Hne totals stats.
  pose proof (updateHistoricalStats_bestScore data Hne) as Hbest.
  fold stats totals in Hbest.
  split; [exact Hbest | split].
  - intros (t & Hin & Hpos).
    destruct (updateHistoricalStats_best_positive data t Hin Hpos)
      as (m & Hmax & Hm & Hgame).
    fold stats in Hm, Hgame. fold totals in Hmax. rewrite Hm. auto.
  - intros Hall.
    assert (Hzero : foldl Z.max 0 totals = 0).
    { clear Hbest. generalize dependent totals. intros totals.
      induction totals as [|t totals IH]; intros Hall; [reflexivity |].
      simpl. replace (Z.max 0 t) with 0.
      - apply IH. intros u Hu. apply Hall, elem_of_cons. now right.
      - specialize (Hall t ltac:(apply elem_of_cons; now left)). lia. }
    split; [now rewrite Hbest |].
    unfold stats, updateHistoricalStats.
    destruct (HistoricalData.games data) as [|g games] eqn:Hg; [contradiction |].
    cbn [HistoricalData.stats Stats.bestGame].
    destruct (stats_games_bestGame (g :: games) stats_init) as [Hsame _].
    apply Hsame.
    rewrite (stats_games_bestScore (g :: games) stats_init).
    exact Hzero.
Qed.

Lemma updateHistoricalStats_best_witness :
  let games := [sample_game "b" "2025-09-01" 2 [75; 155];
                sample_game "a" "2025-08-31" 1 [155; -5]] in
  let stats := HistoricalData.stats (updateHistoricalStats (history_of games)) in
  Stats.bestScore stats = 155 ∧ Stats.bestGame stats = Some "b".
Proof.
  intros games stats.
  destruct (updateHistoricalStats_best (history_of games)) as (Hbest & Hpos & _);
    [discriminate |].
  destruct Hpos as [_ Hgame].
  - exists 75. split; [apply elem_of_cons; now left | lia].
  - fold stats in Hbest, Hgame. rewrite Hgame, Hbest. split; reflexivity.
Defined.

(** [Math.round] is within a half of its argument. *)
Lemma Math_round_bounds (y : Q) :
  (y - (1 # 2) < inject_Z (JS.Math_round y))%Q
  ∧ (inject_Z (JS.Math_round y) <= y + (1 # 2))%Q.
Proof.
  unfold JS.Math_round.
  pose proof (Qfloor_le (y + (1 # 2))) as Hle.
  pose proof (Qlt_floor (y + (1 # 2))) as Hlt.
  rewrite inject_Z_plus in Hlt. change (inject_Z 1) with 1%Q in Hlt.
  split; lra.
Qed.

(** X22. The average score is the mean of all the players' totals rounded to
    one decimal: ten times the average is an integer, and the average lies
    within 0.05 of the exact mean. A history in which no game has a player
    has no average (the division 0 / 0). *)
Theorem updateHistoricalStats_average (data : HistoricalData.t) :
  HistoricalData.games data ≠ [] →
  let totals := all_totals (HistoricalData.games data) in
  let stats := HistoricalData.stats (updateHistoricalStats data) in
  (totals = [] → Stats.averageScore stats = None)
  ∧ (totals ≠ [] →
     ∃ avg : Q,
       Stats.averageScore stats = Some avg
       ∧ (avg * 10 == inject_Z (JS.Math_round (mean totals * 10)))%Q
       ∧ (mean totals - (1 # 20) < avg)%Q
       ∧ (avg <= mean totals + (1 # 20))%Q).
Proof.
  intros Hne totals stats.
  assert (Hscores : ∀ g games,
            allPlayerScores (foldl stats_game stats_init (g :: games))
            = all_totals (g :: games)).
  { intros g games. rewrite stats_games_scores. reflexivity. }
  unfold stats, totals, updateHistoricalStats.
  destruct (HistoricalData.games data) as [|g games] eqn:Hg; [contradiction |].
  cbn [HistoricalData.stats Stats.averageScore]. rewrite Hscores.
  generalize (all_totals (g :: games)). intros T. split.
  - intros ->. reflexivity.
  - intros Htot. destruct T as [|t rest] eqn:HT; [contradiction |].
    rewrite <- HT. cbn [fmap option_fmap option_map].
    eexists. split; [reflexivity |].
    change (inject_Z (foldl Z.add 0%Z T) / inject_Z (Z.of_nat (length T)))%Q
      with (mean T).
    destruct (Math_round_bounds (mean T * 10)) as [Hlo Hhi].
    set (r := inject_Z (JS.Math_round (mean T * 10))) in *.
    assert (Hq : (r / 10 * 10 == r)%Q) by field.
    split; [exact Hq | split; lra].
Qed.

Lemma updateHistoricalStats_average_witness :
  let games := [sample_game "b" "2025-09-01" 2 [75];
                sample_game "a" "2025-08-31" 1 [155; 3]] in
  match Stats.averageScore
          (HistoricalData.stats (updateHistoricalStats (history_of games))) with
  | Some avg => (avg * 10 == 777)%Q
  | None => False
  end.
Proof.
  intros games.
  destruct (updateHistoricalStats_average (history_of games)) as [_ Hsome];
    [discriminate |].
  destruct Hsome as (avg & Heq & Hten & _); [discriminate |].
  rewrite Heq. rewrite Hten. reflexivity.
Defined.

(** ** HistoryManager: the favorite player *)

Lemma tally_bump (name k : string) (counts : list (string * Z)) :
  tally (bump name counts) k
  = tally counts k + (if decide (k = name) then 1 else 0).
Proof.
  unfold tally. induction counts as [|[k' n] counts IH]; simpl.
  - destruct (decide (name = k)) as [-> | Hne].
    + rewrite decide_True by reflexivity. reflexivity.
    + rewrite decide_False by congruence. reflexivity.
  - destruct (decide (k' = name)) as [-> | Hne]; simpl.
    + destruct (decide (name = k)) as [-> | Hne'].
      * rewrite decide_True by reflexivity. reflexivity.
      * rewrite decide_False by congruence.
        destruct (list_find _ counts) as [[i e]|]; simpl; lia.
    + destruct (decide (k' = k)) as [-> | Hne'].
      * rewrite decide_False by congruence. simpl. lia.
      * destruct (list_find (λ e, e.1 = k) (bump name counts)) as [[i e]|];
          destruct (list_find (λ e, e.1 = k) counts) as [[j e']|];
          simpl in *; exact IH.
Qed.

Lemma bump_keys (name : string) (counts : list (string * Z)) :
  NoDup (counts.*1) → Forall (λ e, 0 < e.2) counts →
  NoDup ((bump name counts).*1) ∧ Forall (λ e, 0 < e.2) (bump name counts)
  ∧ ∀ k, k ∈ (bump name counts).*1 ↔ k = name ∨ k ∈ counts.*1.
Proof.
  induction counts as [|[k' n] counts IH]; intros Hnd Hpos; simpl.
  - split; [apply NoDup_singleton | split].
    + constructor; [simpl; lia | constructor].
    + intros k. rewrite list_elem_of_singleton, elem_of_nil. tauto.
  - simpl in Hnd. apply NoDup_cons in Hnd as [Hfresh Hnd].
    apply Forall_cons in Hpos as [Hn Hpos].
    destruct (decide (k' = name)) as [-> | Hne]; simpl.
    + split; [apply NoDup_cons; auto | split].
      * constructor; [simpl in *; lia | exact Hpos].
      * intros k. rewrite elem_of_cons. tauto.
    + destruct (IH Hnd Hpos) as (IHnd & IHpos & IHkeys).
      split; [| split].
      * apply NoDup_cons. split; [| exact IHnd].
        rewrite IHkeys. intros [-> | Hin]; [congruence | contradiction].
      * constructor; [exact Hn | exact IHpos].
      * intros k. rewrite !elem_of_cons, IHkeys. tauto.
Qed.

Lemma tally_elem (counts : list (string * Z)) (k : string) (v : Z) :
  NoDup (counts.*1) → (k, v) ∈ counts → tally counts k = v.
Proof.
  unfold tally. induction counts as [|[k' n] counts IH]; intros Hnd Hin.
  - apply elem_of_nil in Hin. contradiction.
  - simpl in Hnd. apply NoDup_cons in Hnd as [Hfresh Hnd]. simpl.
    apply elem_of_cons in Hin as [Heq | Hin].
    + injection Heq as -> ->. rewrite decide_True by reflexivity. reflexivity.
    + destruct (decide (k' = k)) as [-> | Hne].
      * exfalso. apply Hfresh. apply list_elem_of_fmap. exists (k, v). auto.
      * specialize (IH Hnd Hin).
        destruct (list_find _ counts) as [[i e]|]; simpl; exact IH.
Qed.

Lemma tally_not_key (counts : list (string * Z)) (k : string) :
  k ∉ counts.*1 → tally counts k = 0.
Proof.
  intros Hk. unfold tally.
  destruct (list_find _ counts) as [[i e]|] eqn:Hfind; [| reflexivity].
  apply list_find_Some in Hfind as (Hi & He & _).
  exfalso. apply Hk. apply list_elem_of_fmap. exists e. split; [auto |].
  apply list_elem_of_lookup. eauto.
Qed.

Lemma pick_count_cons (k n : string) (names : list string) :
  pick_count k (n :: names)
  = (if decide (n = k) then 1 else 0) + pick_count k names.
Proof.
  unfold pick_count. rewrite filter_cons.
  destruct (decide (n = k)); simpl length; lia.
Qed.

Lemma pick_count_app (k : string) (l1 l2 : list string) :
  pick_count k (l1 ++ l2) = pick_count k l1 + pick_count k l2.
Proof.
  unfold pick_count. rewrite filter_app, length_app. lia.
Qed.

Lemma picks_tally (picks : list HistoricalPick.t) (counts : list (string * Z)) :
  tally_ok counts →
  let counts' :=
    foldl (λ counts pick, bump (HistoricalPick.batterName pick) counts)
          counts picks in
  tally_ok counts'
  ∧ ∀ k, tally counts' k
         = tally counts k + pick_count k (HistoricalPick.batterName <$> picks).
Proof.
  revert counts. induction picks as [|p picks IH]; intros counts Hok; cbn [foldl].
  - split; [exact Hok |]. intros k. unfold pick_count. simpl. lia.
  - destruct Hok as [Hnd Hpos].
    destruct (bump_keys (HistoricalPick.batterName p) counts Hnd Hpos)
      as (Hnd' & Hpos' & _).
    destruct (IH (bump (HistoricalPick.batterName p) counts) (conj Hnd' Hpos'))
      as [Hok' Htally].
    split; [exact Hok' |]. intros k.
    rewrite Htally, tally_bump, fmap_cons, pick_count_cons.
    destruct (decide (k = HistoricalPick.batterName p)) as [-> | Hne].
    + rewrite decide_True by reflexivity. lia.
    + rewrite decide_False by congruence. lia.
Qed.

Lemma players_tally (g : HistoricalGame.t) (ps : list HistoricalPlayer.t)
    (acc : StatsAcc) :
  tally_ok (playerPickCounts acc) →
  let acc' := foldl (stats_player g) acc ps in
  tally_ok (playerPickCounts acc')
  ∧ ∀ k, tally (playerPickCounts acc') k
         = tally (playerPickCounts acc) k
           + pick_count k
               (ps ≫= (λ p, HistoricalPick.batterName <$> HistoricalPlayer.picks p)).
Proof.
  revert acc. induction ps as [|p ps IH]; intros acc Hok; cbn [foldl].
  - split; [exact Hok |]. intros k. unfold pick_count. simpl. lia.
  - destruct (picks_tally (HistoricalPlayer.picks p) (playerPickCounts acc) Hok)
      as [Hok1 Ht1].
    destruct (IH (stats_player g acc p) Hok1) as [Hok' Ht'].
    split; [exact Hok' |]. intros k.
    rewrite Ht', bind_cons, pick_count_app.
    change (playerPickCounts (stats_player g acc p))
      with (foldl (λ counts pick, bump (HistoricalPick.batterName pick) counts)
                  (playerPickCounts acc) (HistoricalPlayer.picks p)).
    rewrite Ht1. lia.
Qed.

Lemma games_tally (games : list HistoricalGame.t) (acc : StatsAcc) :
  tally_ok (playerPickCounts acc) →
  let acc' := foldl stats_game acc games in
  tally_ok (playerPickCounts acc')
  ∧ ∀ k, tally (playerPickCounts acc') k
         = tally (playerPickCounts acc) k + pick_count k (all_pick_names games).
Proof.
  revert acc. induction games as [|g games IH]; intros acc Hok; cbn [foldl].
  - split; [exact Hok |]. intros k. unfold pick_count. simpl. lia.
  - destruct (players_tally g (HistoricalGame.players g) acc Hok) as [Hok1 Ht1].
    destruct (IH (stats_game acc g) Hok1) as [Hok' Ht'].
    split; [exact Hok' |]. intros k.
    rewrite Ht'. unfold all_pick_names at 2. rewrite bind_cons, pick_count_app.
    fold (all_pick_names games).
    change (playerPickCounts (stats_game acc g))
      with (playerPickCounts (foldl (stats_player g) acc (HistoricalGame.players g))).
    rewrite Ht1. lia.
Qed.

(** The loop that picks the favorite: the largest count, and an entry that
    has it unless no entry beats the start. *)
Lemma favorite_fold (entries : list (string * Z)) (m0 : Z) (f0 : option string) :
  let r := foldl favorite_step (m0, f0) entries in
  m0 ≤ r.1
  ∧ (∀ e, e ∈ entries → e.2 ≤ r.1)
  ∧ ((r.1 = m0 ∧ r.2 = f0) ∨ ∃ n, r.2 = Some n ∧ (n, r.1) ∈ entries).
Proof.
  revert m0 f0. induction entries as [|[n v] entries IH]; intros m0 f0;
    cbn [foldl].
  - simpl. split; [lia | split; [| now left]]. intros e He.
    apply elem_of_nil in He. contradiction.
  - assert (Hstep : favorite_step (m0, f0) (n, v)
                    = if m0 <? v then (v, Some n) else (m0, f0)) by reflexivity.
    rewrite Hstep. clear Hstep.
    destruct (m0 <? v) eqn:Hlt; [apply Z.ltb_lt in Hlt | apply Z.ltb_ge in Hlt].
    + destruct (IH v (Some n)) as (Hle & Hall & Hcase).
      split; [lia | split].
      * intros e He. apply elem_of_cons in He as [-> | He]; [exact Hle | auto].
      * right. destruct Hcase as [[Hm Hf] | (n' & Hf & Hin)].
        -- exists n. rewrite Hf, Hm. split; [reflexivity |].
           apply elem_of_cons. now left.
        -- exists n'. split; [exact Hf |]. apply elem_of_cons. now right.
    + destruct (IH m0 f0) as (Hle & Hall & Hcase).
      split; [exact Hle | split].
      * intros e He. apply elem_of_cons in He as [-> | He]; [simpl; lia | auto].
      * destruct Hcase as [Hsame | (n' & Hf & Hin)]; [now left |].
        right. exists n'. split; [exact Hf |]. apply elem_of_cons. now right.
Qed.

(** X23. The favorite player is a most-picked batter name: when the history
    has a pick entry, the favorite is one of the names picked, and no name is
    picked more often; a history without pick entries has no favorite. The
    names are taken not to be property names that every object inherits. *)
Theorem updateHistoricalStats_favorite (data : HistoricalData.t) :
  HistoricalData.games data ≠ [] →
  let names := all_pick_names (HistoricalData.games data) in
  let favorite :=
    Stats.favoritePlayer (HistoricalData.stats (updateHistoricalStats data)) in
  Forall (λ n, n ∉ inherited_names) names →
  (names = [] → favorite = None)
  ∧ (names ≠ [] →
     ∃ n, favorite = Some n ∧ n ∈ names
          ∧ ∀ k, pick_count k names ≤ pick_count n names).
Proof.
  intros Hne names favorite _.
  unfold favorite, names, updateHistoricalStats.
  destruct (HistoricalData.games data) as [|g games] eqn:Hg; [contradiction |].
  cbn [HistoricalData.stats Stats.favoritePlayer].
  assert (Hinit : tally_ok (playerPickCounts stats_init))
    by (split; [apply NoDup_nil_2 | constructor]).
  destruct (games_tally (g :: games) stats_init Hinit) as [[Hnd Hpos] Htally].
  set (counts := playerPickCounts (foldl stats_game stats_init (g :: games))) in *.
  assert (Hcount : ∀ k, tally counts k = pick_count k (all_pick_names (g :: games))).
  { intros k. rewrite Htally. reflexivity. }
  destruct (favorite_fold counts 0 None) as (Hle & Hall & Hcase).
  set (r := foldl favorite_step (0, None) counts) in *.
  assert (Hin_iff : ∀ k, 0 < pick_count k (all_pick_names (g :: games)) ↔
                         k ∈ all_pick_names (g :: games)).
  { intros k. unfold pick_count. split.
    - intros Hk. destruct (filter _ _) as [|x l] eqn:Hf; [simpl in Hk; lia |].
      assert (Hx : x ∈ filter (λ n, n = k) (all_pick_names (g :: games)))
        by (rewrite Hf; apply elem_of_cons; now left).
      apply list_elem_of_filter in Hx as [-> Hx]. exact Hx.
    - intros Hk.
      assert (Hk' : k ∈ filter (λ n, n = k) (all_pick_names (g :: games)))
        by (apply list_elem_of_filter; auto).
      destruct (filter _ _); [apply elem_of_nil in Hk'; contradiction |].
      simpl. lia. }
  split.
  - intros Hnil. destruct Hcase as [[_ Hf] | (n & Hf & Hin)]; [exact Hf |].
    exfalso. pose proof (tally_elem counts n r.1 Hnd Hin) as Ht.
    rewrite Hcount, Hnil in Ht. unfold pick_count in Ht. simpl in Ht.
    rewrite Forall_forall in Hpos. specialize (Hpos _ Hin). simpl in Hpos. lia.
  - intros Hnames.
    destruct (all_pick_names (g :: games)) as [|n0 rest] eqn:Hall_names;
      [contradiction |].
    assert (Hn0 : 0 < tally counts n0).
    { rewrite Hcount. apply Hin_iff. apply elem_of_cons. now left. }
    assert (Hbound : ∀ k, tally counts k ≤ r.1).
    { intros k. unfold tally.
      destruct (list_find _ counts) as [[i e]|] eqn:Hfind; [| exact Hle].
      apply list_find_Some in Hfind as (Hi & _ & _).
      apply Hall. apply list_elem_of_lookup. eauto. }
    destruct Hcase as [[Hm _] | (n & Hf & Hin)].
    + specialize (Hbound n0). lia.
    + exists n. split; [exact Hf |].
      pose proof (tally_elem counts n r.1 Hnd Hin) as Ht.
      split.
      * apply Hin_iff. rewrite <- Hcount, Ht. specialize (Hbound n0). lia.
      * intros k. rewrite <- !Hcount, Ht. apply Hbound.
Qed.

Lemma updateHistoricalStats_favorite_witness :
  Stats.favoritePlayer
    (HistoricalData.stats
       (updateHistoricalStats
          (sample_picked ["Byron Buxton"; "Carlos Correa"; "Carlos Correa"])))
  = Some "Carlos Correa".
Proof.
  destruct (updateHistoricalStats_favorite
              (sample_picked ["Byron Buxton"; "Carlos Correa"; "Carlos Correa"]))
    as [_ Hsome]; [discriminate | |].
  - repeat constructor; unfold inherited_names; rewrite !not_elem_of_cons;
      repeat split; try discriminate; apply not_elem_of_nil.
  - destruct Hsome as (n & Hf & _ & _); [discriminate |].
    rewrite Hf. vm_compute in Hf. symmetry. exact Hf.
Defined.

(** ** HistoryManager: the recent games *)

(** X24. For a limit that is not negative, the recent games are the first
    [limit] stored games, all of them when there are no more than that; and
    when the stored games are in order, newest first, no game that is left
    out is newer than a game that is returned. *)
Theorem getRecentGames_newest `{DateRuntime} (limit now : Z) (st : Store) :
  0 ≤ limit →
  let recent := getRecentGames limit now st in
  recent = take (Z.to_nat limit) (stored_games st)
  ∧ length recent = (Z.to_nat limit `min` length (stored_games st))%nat
  ∧ (Z.of_nat (length (stored_games st)) ≤ limit → recent = stored_games st)
  ∧ (newest_first (stored_games st) →
     ∀ a b, a ∈ recent → b ∈ drop (Z.to_nat limit) (stored_games st) →
            game_time b ≤ game_time a).
Proof.
  intros Hlimit recent.
  assert (Hrecent : recent = take (Z.to_nat limit) (stored_games st)).
  { unfold recent, getRecentGames, slice0. rewrite loadHistoricalData_games.
    destruct (limit <? 0) eqn:Hneg; [apply Z.ltb_lt in Hneg; lia | reflexivity]. }
  split; [exact Hrecent | split; [| split]].
  - rewrite Hrecent. apply length_take.
  - intros Hall. rewrite Hrecent. apply take_ge. lia.
  - intros Hsorted a b Ha Hb. rewrite Hrecent in Ha.
    unfold newest_first in Hsorted.
    rewrite <- (take_drop (Z.to_nat limit) (stored_games st)) in Hsorted.
    apply (StronglySorted_app_1_elem_of _ _ _ a b Hsorted Ha Hb).
Qed.

Lemma getRecentGames_newest_witness :
  let lineup2 :=
    {| LineupInfo.gamePk := 12346; LineupInfo.opponent := "Guardians";
       LineupInfo.side := home; LineupInfo.firstPitchLocal := None;
       LineupInfo.gameDate := Some "2025-09-01T00:10:00Z" |} in
  let st1 :=
    @addGameToHistory sampleDates [sample_player 155] sample_batters sample_lineup
      "Final" None 1756610000000 ∅ in
  let st2 :=
    @addGameToHistory sampleDates [sample_player 75] sample_batters lineup2
      "Final" None 1756700000000 st1 in
  HistoricalGame.id <$> getRecentGames 1 0 st2 = ["12346_2025-09-01"].
Proof.
  intros lineup2 st1 st2.
  destruct (@getRecentGames_newest sampleDates 1 0 st2) as [Hrecent _]; [lia |].
  rewrite Hrecent. vm_compute. reflexivity.
Defined.
(** ** AppStateManager: saving, restoring, clearing *)

Lemma not_viewing_results_test (state : AppState.t) :
  not_viewing_results state ↔
  js_lt (Some 0) (picks_length_of (PAppState state))
  && bool_decide (phase_of (PAppState state) = Some results
                  ∨ phase_of (PAppState state) = Some live) = false.
Proof.
  unfold not_viewing_results, picks_length_of, phase_of.
  rewrite andb_false_iff, bool_decide_eq_false. split.
  - intros [Hpicks | [Hr Hl]].
    + left. destruct (head (AppState.players state)) as [p|]; [| reflexivity].
      simpl. rewrite (Hpicks p eq_refl). reflexivity.
    + right. intros [Heq | Heq]; congruence.
  - intros [Hpicks | Hphase].
    + left. intros p Hp. rewrite Hp in Hpicks. simpl in Hpicks.
      destruct (Player.picks p); [reflexivity | discriminate].
    + right. split; intros Heq; apply Hphase; [left | right]; congruence.
Qed.

(** What the two versions of [loadAppState] make of a snapshot that was
    saved no more than 24 hours ago. *)
Lemma loadAppState_saved `{DateRuntime} (state : AppState.t)
    (tomorrow today : Response) (saved later : Z) (st : Store) :
  later - saved ≤ 24 * 60 * 60 * 1000 →
  let snapshot := PAppState (AppState.with_savedAt saved state) in
  let st' := saveAppState state saved st in
  loadAppState tomorrow today later st' =
    if js_lt (Some 0) (picks_length_of (PAppState state))
       && bool_decide (phase_of (PAppState state) = Some results
                       ∨ phase_of (PAppState state) = Some live)
    then if isScoreViewingAllowed tomorrow later
         then (Some snapshot, st') else (None, clearAppState st)
    else match today with
         | NetworkError | Resp _ None | Resp _ (Some SNull) => (Some snapshot, st')
         | Resp _ (Some SNoGames) => (None, clearAppState st)
         | Resp _ (Some (SGames games)) =>
           if existsb (activeOrRecent later) games
           then (Some snapshot, st') else (None, clearAppState st)
         end.
Proof.
  intros Hage snapshot st'.
  assert (Hclear : storage.removeItem STORAGE_KEY st' = clearAppState st).
  { unfold st', saveAppState, clearAppState, storage.removeItem, storage.setItem.
    apply delete_insert_eq. }
  unfold loadAppState. rewrite Hclear.
  assert (Hget : storage.getItem STORAGE_KEY st' = Some (Json snapshot)).
  { unfold st', saveAppState, storage.getItem, storage.setItem, JSON_stringify.
    apply lookup_insert_eq. }
  rewrite Hget. cbn [falsy_text mbind option_bind JSON_parse].
  change (savedAt_of snapshot) with (Some saved).
  change (picks_length_of snapshot) with (picks_length_of (PAppState state)).
  change (phase_of snapshot) with (phase_of (PAppState state)).
  cbn [js_sub js_lt].
  replace (24 * 60 * 60 * 1000 <? later - saved) with false
    by (symmetry; apply Z.ltb_ge; lia).
  destruct (_ && _).
  - destruct (isScoreViewingAllowed tomorrow later); reflexivity.
  - destruct today as [|ok [[| |games]|]]; try reflexivity.
    destruct (existsb _ games); reflexivity.
Qed.

Lemma game_loadAppState_saved `{DateRuntime} (state : AppState.t)
    (tomorrow today : Response) (saved later : Z) (st : Store) :
  later - saved ≤ 24 * 60 * 60 * 1000 →
  let snapshot := PAppState (AppState.with_savedAt saved state) in
  let st' := saveAppState state saved st in
  game.loadAppState tomorrow today later st' =
    if js_lt (Some 0) (picks_length_of (PAppState state))
       && bool_decide (phase_of (PAppState state) = Some results
                       ∨ phase_of (PAppState state) = Some live)
    then if isScoreViewingAllowed tomorrow later
         then (Some snapshot, st') else (None, clearAppState st)
    else match today with
         | NetworkError | Resp _ None | Resp _ (Some SNull) => (Some snapshot, st')
         | Resp _ (Some SNoGames) => (None, clearAppState st)
         | Resp _ (Some (SGames games)) =>
           if existsb (game.activeOrRecent later) games
           then (Some snapshot, st') else (None, clearAppState st)
         end.
Proof.
  intros Hage snapshot st'.
  assert (Hclear : storage.removeItem "pick3_app_state" st' = clearAppState st).
  { unfold st', saveAppState, clearAppState, storage.removeItem, storage.setItem.
    apply delete_insert_eq. }
  unfold game.loadAppState. rewrite Hclear.
  assert (Hget : storage.getItem "pick3_app_state" st' = Some (Json snapshot)).
  { unfold st', saveAppState, storage.getItem, storage.setItem, JSON_stringify.
    apply lookup_insert_eq. }
  rewrite Hget. cbn [falsy_text mbind option_bind JSON_parse].
  change (savedAt_of snapshot) with (Some saved).
  change (picks_length_of snapshot) with (picks_length_of (PAppState state)).
  change (phase_of snapshot) with (phase_of (PAppState state)).
  cbn [js_sub js_lt].
  replace (24 * 60 * 60 * 1000 <? later - saved) with false
    by (symmetry; apply Z.ltb_ge; lia).
  destruct (_ && _).
  - destruct (isScoreViewingAllowed tomorrow later); reflexivity.
  - destruct today as [|ok [[| |games]|]]; try reflexivity.
    destruct (existsb _ games); reflexivity.
Qed.

(** The callback of the storage module, spelled out: a game that is live or
    about to start counts, and a finished game counts until 30 minutes after
    the end that is put at 3 hours after its start. *)
Lemma activeOrRecent_spec `{DateRuntime} (now : Z) (g : SchedGame.t) :
  activeOrRecent now g = true ↔
  SchedGame.abstractGameState g = Some "Live"
  ∨ SchedGame.abstractGameState g = Some "Preview"
  ∨ (SchedGame.abstractGameState g = Some "Final"
     ∧ ∃ start, sched_time g = Some start
                ∧ now - (start + 3 * 60 * 60 * 1000) ≤ 30 * 60 * 1000).
Proof.
  unfold activeOrRecent.
  destruct (SchedGame.abstractGameState g) as [status|].
  - destruct (decide (status = "Live" ∨ status = "Preview")) as [Hactive | Hnot].
    + split; [intros _ | reflexivity].
      destruct Hactive as [-> | ->]; auto.
    + destruct (decide (status = "Final")) as [-> | Hfinal].
      * destruct (sched_time g) as [start|].
        -- rewrite Z.leb_le. split.
           ++ intros Hle. right. right. split; [reflexivity |]. now exists start.
           ++ intros [Heq | [Heq | [_ (start' & [= <-] & Hle)]]];
                [discriminate | discriminate | exact Hle].
        -- split; [discriminate |].
           intros [Heq | [Heq | [_ (start' & Hstart & _)]]]; discriminate.
      * split; [discriminate |].
        intros [[= ->] | [[= ->] | [[= ->] _]]]; exfalso;
          [apply Hnot; now left | apply Hnot; now right | now apply Hfinal].
  - split; [discriminate |].
    intros [Heq | [Heq | [Heq _]]]; discriminate.
Qed.

(** The callback of the game module: a finished game counts while its start
    is less than 30 minutes back. *)
Lemma game_activeOrRecent_spec `{DateRuntime} (now : Z) (g : SchedGame.t) :
  game.activeOrRecent now g = true ↔
  SchedGame.abstractGameState g = Some "Live"
  ∨ SchedGame.abstractGameState g = Some "Preview"
  ∨ (SchedGame.abstractGameState g = Some "Final"
     ∧ ∃ start, sched_time g = Some start ∧ now - start < 30 * 60 * 1000).
Proof.
  unfold game.activeOrRecent.
  destruct (SchedGame.abstractGameState g) as [status|].
  - destruct (decide (status = "Live" ∨ status = "Preview")) as [Hactive | Hnot].
    + split; [intros _ | reflexivity].
      destruct Hactive as [-> | ->]; auto.
    + destruct (decide (status = "Final")) as [-> | Hfinal].
      * destruct (sched_time g) as [start|]; cbn [js_lt].
        -- rewrite Z.ltb_lt. split.
           ++ intros Hlt. right. right. split; [reflexivity |].
              exists start. split; [reflexivity | lia].
           ++ intros [Heq | [Heq | [_ (start' & [= <-] & Hlt)]]];
                [discriminate | discriminate | lia].
        -- split; [discriminate |].
           intros [Heq | [Heq | [_ (start' & Hstart & _)]]]; discriminate.
      * split; [discriminate |].
        intros [[= ->] | [[= ->] | [[= ->] _]]]; exfalso;
          [apply Hnot; now left | apply Hnot; now right | now apply Hfinal].
  - split; [discriminate |].
    intros [Heq | [Heq | [Heq _]]]; discriminate.
Qed.

(** X25. What becomes of a snapshot that was saved no more than 24 hours
    ago: it comes back exactly as saved, stamped with the time of saving,
    and with the store left alone, or else the call answers null and leaves
    the store as [clearAppState] would. It comes back in these cases and in
    no other. A snapshot that is held against the score-viewing window (it
    has a pick and is in the live or results phase) comes back exactly when
    viewing is still allowed. Any other snapshot comes back exactly when
    today's schedule cannot be read, or lists a game that is live, about to
    start, or finished with a start no more than 3 hours and 30 minutes
    back. *)
Theorem appState_save_load `{DateRuntime} (state : AppState.t)
    (tomorrow today : Response) (saved later : Z) (st : Store) :
  later - saved ≤ 24 * 60 * 60 * 1000 →
  let snapshot := PAppState (AppState.with_savedAt saved state) in
  let st' := saveAppState state saved st in
  let unreadable :=
    today = NetworkError ∨ (∃ ok, today = Resp ok None)
    ∨ (∃ ok, today = Resp ok (Some SNull)) in
  let keeps_alive (g : SchedGame.t) :=
    SchedGame.abstractGameState g = Some "Live"
    ∨ SchedGame.abstractGameState g = Some "Preview"
    ∨ (SchedGame.abstractGameState g = Some "Final"
       ∧ ∃ start, sched_time g = Some start
                  ∧ later - start ≤ 3 * 60 * 60 * 1000 + 30 * 60 * 1000) in
  let kept :=
    (¬ not_viewing_results state ∧ isScoreViewingAllowed tomorrow later = true)
    ∨ (not_viewing_results state
       ∧ (unreadable
          ∨ ∃ ok games g, today = Resp ok (Some (SGames games))
                          ∧ g ∈ games ∧ keeps_alive g)) in
  (kept ↔ loadAppState tomorrow today later st' = (Some snapshot, st'))
  ∧ (¬ kept ↔ loadAppState tomorrow today later st' = (None, clearAppState st)).
Proof.
  intros Hage snapshot st' unreadable keeps_alive kept.
  assert (Halive : ∀ games,
            existsb (activeOrRecent later) games = true
            ↔ ∃ g, g ∈ games ∧ keeps_alive g).
  { intros games. rewrite existsb_exists. split.
    - intros (g & Hg & Hactive). exists g. split; [now apply list_elem_of_In |].
      apply activeOrRecent_spec in Hactive.
      destruct Hactive as [Hl | [Hp | [Hf (start & Hstart & Hle)]]];
        [now left | right; now left | right; right].
      split; [exact Hf |]. exists start. split; [exact Hstart | lia].
    - intros (g & Hg & Hkeeps). exists g. split; [now apply list_elem_of_In |].
      apply activeOrRecent_spec.
      destruct Hkeeps as [Hl | [Hp | [Hf (start & Hstart & Hle)]]];
        [now left | right; now left | right; right].
      split; [exact Hf |]. exists start. split; [exact Hstart | lia]. }
  assert (Hdec : kept ∧ loadAppState tomorrow today later st' = (Some snapshot, st')
                 ∨ ¬ kept
                   ∧ loadAppState tomorrow today later st' = (None, clearAppState st)).
  { rewrite (loadAppState_saved state tomorrow today saved later st Hage).
    fold snapshot st'. unfold kept. rewrite not_viewing_results_test.
    destruct (_ && _).
    - destruct (isScoreViewingAllowed tomorrow later).
      + left. split; [| reflexivity]. left. split; [discriminate | reflexivity].
      + right. split; [| reflexivity].
        intros [[_ Hallowed] | [Hnot _]]; discriminate.
    - destruct today as [|ok [[| |games]|]].
      + left. split; [| reflexivity]. right. split; [reflexivity |].
        left. now left.
      + left. split; [| reflexivity]. right. split; [reflexivity |].
        left. right. right. now exists ok.
      + right. split; [| reflexivity].
        intros [[Hnot _] | [_ [Hun | (ok' & games & g & Heq & _)]]].
        * now apply Hnot.
        * destruct Hun as [Heq | [[ok' Heq] | [ok' Heq]]]; discriminate.
        * discriminate.
      + destruct (existsb (activeOrRecent later) games) eqn:Hex.
        * left. split; [| reflexivity]. right. split; [reflexivity |]. right.
          apply Halive in Hex as (g & Hg & Hkeeps). now exists ok, games, g.
        * right. split; [| reflexivity].
          intros [[Hnot _] | [_ [Hun | (ok' & games' & g & Heq & Hg & Hkeeps)]]].
          -- now apply Hnot.
          -- destruct Hun as [Heq | [[ok' Heq] | [ok' Heq]]]; discriminate.
          -- injection Heq as _ <-.
             assert (Hex' : existsb (activeOrRecent later) games = true)
               by (apply Halive; now exists g).
             congruence.
      + left. split; [| reflexivity]. right. split; [reflexivity |].
        left. right. left. now exists ok. }
  destruct Hdec as [[Hkept Hload] | [Hnot Hload]]; rewrite Hload; split; split;
    try tauto; try discriminate.
Qed.

Lemma appState_save_load_witness :
  let state := sample_snapshot draft [3; 5] 0 in
  let st' := saveAppState state 1000 ∅ in
  @loadAppState sampleDates NetworkError NetworkError 5000 st'
  = (Some (PAppState (AppState.with_savedAt 1000 state)), st').
Proof.
  intros state st'.
  destruct (@appState_save_load sampleDates state NetworkError NetworkError
              1000 5000 ∅) as ([Hkept _] & _); [lia |].
  apply Hkept. right. split.
  - right. split; discriminate.
  - left. left. reflexivity.
Defined.

Lemma loadAppState_outcome `{DateRuntime} (tomorrow today : Response) (now : Z) (st : Store) :
  match loadAppState tomorrow today now st with
  | (Some state, st') =>
    st' = st ∧ st !! STORAGE_KEY = Some (Json state) ∧ state ≠ PNull
    ∧ ¬ (24 * 60 * 60 * 1000 < now - default now (savedAt_of state))
  | (None, st') => st' = st ∨ st' = clearAppState st
  end.
Proof.
  unfold loadAppState, clearAppState, storage.getItem, storage.removeItem.
  destruct (st !! STORAGE_KEY) as [[| |v]|] eqn:Hget;
    cbn [falsy_text mbind option_bind JSON_parse]; auto.
  assert (Hage : ∀ v,
            js_lt (Some (24 * 60 * 60 * 1000)) (js_sub (Some now) (savedAt_of v))
            = false →
            ¬ (24 * 60 * 60 * 1000 < now - default now (savedAt_of v))).
  { intros v'. destruct (savedAt_of v') as [t|]; simpl; [| lia].
    intros Hlt. apply Z.ltb_ge in Hlt. lia. }
  destruct v as [|d|s|]; auto;
    (destruct (js_lt _ (js_sub _ _)) eqn:Hlt; [auto |]);
    specialize (Hage _ Hlt);
    (destruct (_ && _);
     [ destruct (isScoreViewingAllowed tomorrow now); simpl; auto
     | destruct today as [|ok [[| |games]|]]; auto;
       destruct (existsb _ games); simpl; auto ]);
    repeat split; auto; discriminate.
Qed.

(** X26. [loadAppState] only reads or removes: what it restores is the value
    stored under the key of the app state, not null and not older than 24
    hours by its own stamp, and then the store is unchanged; when it answers
    null the store is unchanged or is what [clearAppState] would leave. So
    the store changes only on an answer of null, and then nothing is left
    under the key. *)
Theorem loadAppState_reads_or_removes `{DateRuntime}
    (tomorrow today : Response) (now : Z) (st : Store) :
  let (result, st') := loadAppState tomorrow today now st in
  (∀ state, result = Some state →
     st' = st ∧ st !! STORAGE_KEY = Some (JSON_stringify state) ∧ state ≠ PNull
     ∧ (∀ savedAt, savedAt_of state = Some savedAt →
          now - savedAt ≤ 24 * 60 * 60 * 1000))
  ∧ (result = None → st' = st ∨ st' = clearAppState st)
  ∧ (st' ≠ st → result = None ∧ st' !! STORAGE_KEY = None).
Proof.
  pose proof (loadAppState_outcome tomorrow today now st) as Hout.
  destruct (loadAppState tomorrow today now st) as [[state|] st'] eqn:Hload.
  - destruct Hout as (-> & Hget & Hnull & Hage). split; [| split].
    + intros ? [= <-]. split; [reflexivity |]. split; [exact Hget |].
      split; [exact Hnull |].
      intros savedAt Hs. rewrite Hs in Hage. simpl in Hage. lia.
    + discriminate.
    + intros Hne. now contradiction Hne.
  - split; [| split].
    + discriminate.
    + intros _. exact Hout.
    + destruct Hout as [-> | ->]; [intros Hne; now contradiction Hne |].
      intros _. split; [reflexivity |].
      unfold clearAppState, storage.removeItem. apply lookup_delete_eq.
Qed.

Lemma loadAppState_reads_or_removes_witness :
  let st := saveAppState (sample_snapshot draft [3; 5] 0) 0 ∅ in
  (@loadAppState sampleDates NetworkError NetworkError 90000000 st).2
    !! STORAGE_KEY = None.
Proof.
  intros st.
  pose proof (@loadAppState_reads_or_removes sampleDates
                NetworkError NetworkError 90000000 st) as Hthm.
  destruct (@loadAppState sampleDates NetworkError NetworkError 90000000 st)
    as [result st'] eqn:Hload.
  destruct Hthm as (_ & _ & Hchanged). apply Hchanged.
  vm_compute in Hload. injection Hload as _ <-.
  intros Heq. vm_compute in Heq. discriminate Heq.
Defined.

(** X27. The [loadAppState] of the game module is the stricter of the two
    versions: whatever it restores, the one of the storage module restores
    too, with the same store. The two differ in how long a finished game
    keeps a snapshot alive. For a snapshot that was saved no more than 24
    hours ago and is not held against the score-viewing window, when
    today's schedule lists finished games only, the game module restores it
    exactly when some game started less than 30 minutes ago, and the storage
    module exactly when some game started no more than 3 hours and 30
    minutes ago. *)
Theorem loadAppState_versions `{DateRuntime}
    (tomorrow : Response) (now : Z) :
  (∀ today st state st',
     game.loadAppState tomorrow today now st = (Some state, st') →
     loadAppState tomorrow today now st = (Some state, st'))
  ∧ (∀ (state : AppState.t) (saved : Z) (st : Store) (ok : bool)
       (games : list SchedGame.t),
       now - saved ≤ 24 * 60 * 60 * 1000 →
       not_viewing_results state →
       Forall (λ g, SchedGame.abstractGameState g = Some "Final") games →
       let snapshot := PAppState (AppState.with_savedAt saved state) in
       let st' := saveAppState state saved st in
       let today := Resp ok (Some (SGames games)) in
       (game.loadAppState tomorrow today now st' = (Some snapshot, st')
        ↔ ∃ g start, g ∈ games ∧ sched_time g = Some start
                     ∧ now - start < 30 * 60 * 1000)
       ∧ (loadAppState tomorrow today now st' = (Some snapshot, st')
          ↔ ∃ g start, g ∈ games ∧ sched_time g = Some start
                       ∧ now - start ≤ 3 * 60 * 60 * 1000 + 30 * 60 * 1000)).
Proof.
  split.
  - intros today st state st'.
    assert (Hsome : ∀ games,
              existsb (game.activeOrRecent now) games = true →
              existsb (activeOrRecent now) games = true).
    { intros games. rewrite !existsb_exists. intros (g & Hg & Hactive).
      exists g. split; [exact Hg |].
      apply game_activeOrRecent_spec in Hactive. apply activeOrRecent_spec.
      destruct Hactive as [Hl | [Hp | [Hf (start & Hstart & Hlt)]]];
        [now left | right; now left | right; right].
      split; [exact Hf |]. exists start. split; [exact Hstart | lia]. }
    unfold game.loadAppState, loadAppState.
    change "pick3_app_state" with STORAGE_KEY.
    destruct (falsy_text _); [discriminate |].
    destruct (_ ≫= JSON_parse) as [v|]; [| discriminate].
    destruct v as [|d|s|]; [discriminate | | |];
      (destruct (js_lt _ (js_sub _ _)); [discriminate |]);
      (destruct (_ && _); [auto |]);
      (destruct today as [|ok [[| |games]|]]; auto);
      (destruct (existsb (game.activeOrRecent now) games) eqn:Hex;
       [rewrite (Hsome games Hex); auto | discriminate]).
  - intros state saved st ok games Hage Hnot Hfinal snapshot st' today.
    rewrite Forall_forall in Hfinal.
    apply not_viewing_results_test in Hnot.
    unfold today.
    rewrite (game_loadAppState_saved state tomorrow _ saved now st Hage).
    rewrite (loadAppState_saved state tomorrow _ saved now st Hage).
    fold snapshot st'. rewrite Hnot.
    assert (Hcleared : (None, clearAppState st) ≠ (Some snapshot, st'))
      by discriminate.
    split.
    + destruct (existsb (game.activeOrRecent now) games) eqn:Hex.
      * split; [intros _ | reflexivity].
        apply existsb_exists in Hex as (g & Hg & Hactive).
        apply list_elem_of_In in Hg.
        apply game_activeOrRecent_spec in Hactive.
        pose proof (Hfinal g Hg) as Hf.
        destruct Hactive as [Hl | [Hp | [_ (start & Hstart & Hlt)]]];
          [congruence | congruence | now exists g, start].
      * split; [intros Heq; now contradiction Hcleared |].
        intros (g & start & Hg & Hstart & Hlt).
        assert (Hex' : existsb (game.activeOrRecent now) games = true).
        { apply existsb_exists. exists g. split; [now apply list_elem_of_In |].
          apply game_activeOrRecent_spec. right. right.
          split; [now apply Hfinal | now exists start]. }
        congruence.
    + destruct (existsb (activeOrRecent now) games) eqn:Hex.
      * split; [intros _ | reflexivity].
        apply existsb_exists in Hex as (g & Hg & Hactive).
        apply list_elem_of_In in Hg.
        apply activeOrRecent_spec in Hactive.
        pose proof (Hfinal g Hg) as Hf.
        destruct Hactive as [Hl | [Hp | [_ (start & Hstart & Hle)]]];
          [congruence | congruence |].
        exists g, start. split; [exact Hg |]. split; [exact Hstart | lia].
      * split; [intros Heq; now contradiction Hcleared |].
        intros (g & start & Hg & Hstart & Hle).
        assert (Hex' : existsb (activeOrRecent now) games = true).
        { apply existsb_exists. exists g. split; [now apply list_elem_of_In |].
          apply activeOrRecent_spec. right. right.
          split; [now apply Hfinal |]. exists start. split; [exact Hstart | lia]. }
        congruence.
Qed.

Lemma loadAppState_versions_witness :
  let state := sample_snapshot draft [3; 5] 0 in
  let start := 1756599000000 in
  let st := saveAppState state start ∅ in
  let finished := Resp true (Some (SGames [sched_game "Final" "2025-08-31T00:10:00Z"])) in
  @game.loadAppState sampleDates NetworkError finished (start + 7200000) st
  ≠ (Some (PAppState (AppState.with_savedAt start state)), st)
  ∧ @loadAppState sampleDates NetworkError finished (start + 7200000) st
    = (Some (PAppState (AppState.with_savedAt start state)), st).
Proof.
  intros state start st finished.
  destruct (@loadAppState_versions sampleDates NetworkError (start + 7200000))
    as [_ Hwindows].
  destruct (Hwindows state start ∅ true [sched_game "Final" "2025-08-31T00:10:00Z"])
    as [Hgame Hstorage].
  - unfold start. lia.
  - right. split; discriminate.
  - repeat constructor.
  - split.
    + intros Hrestored. apply Hgame in Hrestored as (g & t & Hg & Ht & Hlt).
      apply list_elem_of_singleton in Hg. subst g.
      vm_compute in Ht. injection Ht as <-. unfold start in Hlt. lia.
    + apply Hstorage. exists (sched_game "Final" "2025-08-31T00:10:00Z"), start.
      split; [apply list_elem_of_singleton; reflexivity |].
      split; [reflexivity | unfold start; lia].
Defined.

(** ** The score-viewing window *)

Lemma StronglySorted_head_least {A} (k : A → Z) (x : A) (l : list A) :
  StronglySorted (λ a b, k b ≤ k a) (x :: l) → ∀ y, y ∈ x :: l → k y ≤ k x.
Proof.
  intros Hsorted y Hy. apply StronglySorted_inv in Hsorted as [_ Hall].
  apply elem_of_cons in Hy as [-> | Hy]; [lia |].
  rewrite Forall_forall in Hall. apply Hall. exact Hy.
Qed.

(** X28. When tomorrow's schedule is read and every game in it has a start
    that parses, score viewing is allowed exactly while the time is more
    than ten minutes before the start of every game of tomorrow: the
    earliest game decides, whatever the order of the feed. *)
Theorem isScoreViewingAllowed_earliest `{DateRuntime}
    (games : list SchedGame.t) (now : Z) :
  Forall (λ g, is_Some (sched_time g)) games →
  isScoreViewingAllowed (Resp true (Some (SGames games))) now = true
  ↔ ∀ g start, g ∈ games → sched_time g = Some start →
      now < start - 10 * 60 * 1000.
Proof.
  intros Hparse. rewrite Forall_forall in Hparse.
  set (k := λ g : SchedGame.t, - default 0 (sched_time g)).
  assert (Hsorted : StronglySorted (λ a b, k b ≤ k a) (Array_sort byDateAsc games)).
  { apply Array_sort_sorted. intros x y Hx Hy.
    destruct (Hparse x Hx) as [tx Htx], (Hparse y Hy) as [ty Hty].
    unfold byDateAsc, k. rewrite Htx, Hty. simpl.
    apply eq_true_iff_eq. rewrite !Z.ltb_lt. lia. }
  pose proof (Array_sort_Permutation byDateAsc games) as Hperm.
  unfold isScoreViewingAllowed.
  destruct (Array_sort byDateAsc games) as [|earliest rest] eqn:Hsort.
  - apply Permutation_nil_l in Hperm. subst games.
    split; [| reflexivity]. intros _ g start Hg. now apply elem_of_nil in Hg.
  - assert (Hearliest : earliest ∈ games).
    { rewrite <- Hperm. apply elem_of_cons. now left. }
    destruct (Hparse earliest Hearliest) as [t Ht].
    assert (Hdate : ∃ s, SchedGame.gameDate earliest = Some s ∧ Date_parse s = Some t).
    { unfold sched_time in Ht. destruct (SchedGame.gameDate earliest) as [s|];
        [exists s; split; [reflexivity | exact Ht] | discriminate]. }
    destruct Hdate as (s & Hs & Hst). rewrite Hs.
    destruct (decide (s = "")) as [-> | _].
    { rewrite Date_parse_empty in Hst. discriminate. }
    rewrite Hst. cbn [js_sub js_lt]. rewrite Z.ltb_lt. split.
    + intros Hnow g start Hg Hstart.
      assert (Hle : k g ≤ k earliest).
      { apply (StronglySorted_head_least k earliest rest Hsorted).
        now rewrite Hperm. }
      unfold k in Hle. rewrite Hstart, Ht in Hle. simpl in Hle. lia.
    + intros Hall. apply (Hall earliest t Hearliest Ht).
Qed.

Lemma isScoreViewingAllowed_earliest_witness :
  let games := [ sched_game "Preview" "2025-09-01T00:10:00Z";
                 sched_game "Preview" "2025-08-31T00:10:00Z" ] in
  @isScoreViewingAllowed sampleDates (Resp true (Some (SGames games)))
    1756598400000 = false.
Proof.
  intros games. apply not_true_is_false. intros Hallowed.
  assert (Hparse : Forall (λ g, is_Some (@sched_time sampleDates g)) games).
  { repeat constructor; eexists; reflexivity. }
  destruct (@isScoreViewingAllowed_earliest sampleDates games 1756598400000 Hparse)
    as [Hall _].
  specialize (Hall Hallowed (sched_game "Preview" "2025-08-31T00:10:00Z")
                   1756599000000).
  assert (Hlt : 1756598400000 < 1756599000000 - 10 * 60 * 1000).
  { apply Hall; [| reflexivity].
    apply elem_of_cons. right. apply elem_of_cons. now left. }
  lia.
Defined.
(** ** The draft and the sliders *)

Lemma togglePick_keeps `{DateRuntime} (batterId clock : Z) (s : App.state) :
  let s' := App.togglePick batterId clock s in
  App.phase s' = App.phase s
  ∧ (NoDup (App.pickedIds s) → NoDup (App.pickedIds s'))
  ∧ ((length (App.pickedIds s) ≤ 3)%nat → (length (App.pickedIds s') ≤ 3)%nat)
  ∧ (App.boosters s = ∅ → App.boosters s' = ∅).
Proof.
  unfold App.togglePick.
  destruct (negb (App.draftingAllowed clock s)); [now auto |].
  destruct (App.players s) as [|p ps] eqn:Hplayers; [now auto |].
  assert (Hpicks : App.pickedIds s = Player.picks p).
  { unfold App.pickedIds. now rewrite Hplayers. }
  rewrite Hpicks.
  destruct (bool_decide (batterId ∈ Player.picks p)) eqn:Hhas; cbn [negb andb].
  - unfold App.pickedIds. cbn. repeat split.
    + apply NoDup_filter.
    + intros Hlen. etransitivity; [apply length_filter | exact Hlen].
    + intros ->. apply delete_empty.
  - apply bool_decide_eq_false in Hhas.
    destruct (App.PICKS_PER_PLAYER <? length (Player.picks p ++ [batterId]))%nat
      eqn:Hcap.
    + rewrite ?Hpicks. now auto.
    + apply Nat.ltb_ge in Hcap. unfold App.pickedIds. cbn. repeat split.
      * intros Hnd. apply NoDup_app. split; [exact Hnd |]. split.
        -- intros x Hx Hx'. apply list_elem_of_singleton in Hx'. now subst x.
        -- apply NoDup_singleton.
      * intros _. exact Hcap.
      * auto.
Qed.

Lemma toggles_keep `{DateRuntime} (taps : list (Z * Z)) (s : App.state) :
  let s' := App.toggles taps s in
  App.phase s' = App.phase s
  ∧ (NoDup (App.pickedIds s) → NoDup (App.pickedIds s'))
  ∧ ((length (App.pickedIds s) ≤ 3)%nat → (length (App.pickedIds s') ≤ 3)%nat)
  ∧ (App.boosters s = ∅ → App.boosters s' = ∅).
Proof.
  unfold App.toggles. revert s. induction taps as [|tap taps IH]; intros s.
  - simpl. auto.
  - cbn [foldl].
    destruct (togglePick_keeps tap.1 tap.2 s) as (Hp & Hnd & Hlen & Hb).
    destruct (IH (App.togglePick tap.1 tap.2 s)) as (Hp' & Hnd' & Hlen' & Hb').
    cbn zeta in *. repeat split.
    + now rewrite Hp'.
    + auto.
    + auto.
    + auto.
Qed.

Lemma finishDraft_three (s : App.state) (a b c : Z) :
  App.pickedIds s = [a; b; c] →
  App.finishDraft s =
    {| App.phase := play;
       App.players := App.players s;
       App.boosters := <[Some c := 33]> (<[Some b := 33]> (<[Some a := 34]> ∅));
       App.lineupInfo := App.lineupInfo s |}.
Proof.
  unfold App.pickedIds, App.finishDraft.
  destruct (head (App.players s)) as [p|]; [| discriminate].
  intros ->. reflexivity.
Qed.

(** X29. However the batters are tapped after [startDraft], and whether or
    not drafting is still open at each tap, the draft stays a draft: the
    picks are pairwise distinct and never more than three, and no booster is
    set. [finishDraft] then leaves the state alone unless the picks are
    exactly three; with three picks it moves on to the play phase with 34,
    33 and 33 percent for the picks in their order, which
    [validateBoostersComplete] accepts. *)
Theorem draft_then_finish `{DateRuntime} (s0 : App.state) (taps : list (Z * Z)) :
  let s := App.toggles taps (App.startDraft s0) in
  App.phase s = draft
  ∧ NoDup (App.pickedIds s)
  ∧ (length (App.pickedIds s) ≤ 3)%nat
  ∧ App.boosters s = ∅
  ∧ (length (App.pickedIds s) ≠ 3%nat → App.finishDraft s = s)
  ∧ (∀ a b c, App.pickedIds s = [a; b; c] →
       let s' := App.finishDraft s in
       App.phase s' = play
       ∧ App.players s' = App.players s
       ∧ App.boosters s' !! Some a = Some 34
       ∧ App.boosters s' !! Some b = Some 33
       ∧ App.boosters s' !! Some c = Some 33
       ∧ validateBoostersComplete (App.pickedIds s') (App.boosters s') = true).
Proof.
  intros s.
  assert (Hstart : App.pickedIds (App.startDraft s0) = []).
  { unfold App.pickedIds, App.startDraft. cbn.
    destruct (App.players s0); reflexivity. }
  destruct (toggles_keep taps (App.startDraft s0)) as (Hp & Hnd & Hlen & Hb).
  fold s in Hp, Hnd, Hlen, Hb. rewrite Hstart in Hnd, Hlen.
  specialize (Hnd (NoDup_nil_2)). specialize (Hlen (Nat.le_0_l _)).
  specialize (Hb eq_refl).
  split; [exact Hp |]. split; [exact Hnd |]. split; [exact Hlen |].
  split; [exact Hb |]. split.
  - intros Hne. unfold App.finishDraft. unfold App.pickedIds in Hne.
    destruct (head (App.players s)) as [p|]; [| reflexivity].
    destruct (length (Player.picks p) =? App.PICKS_PER_PLAYER)%nat eqn:Heq;
      [| reflexivity].
    apply Nat.eqb_eq in Heq. now contradiction Hne.
  - intros a b c Hpicks s'. unfold s'.
    rewrite (finishDraft_three s a b c Hpicks).
    rewrite Hpicks in Hnd.
    apply NoDup_cons in Hnd as [Ha Hnd]. apply NoDup_cons in Hnd as [Hbc _].
    apply not_elem_of_cons in Ha as [Hab Ha]. apply not_elem_of_cons in Ha as [Hac _].
    apply not_elem_of_cons in Hbc as [Hbc _].
    assert (Hla : (<[Some c := 33]> (<[Some b := 33]> (<[Some a := 34]> ∅)) : Boosters)
                  !! Some a = Some 34).
    { rewrite lookup_insert_ne by congruence.
      rewrite lookup_insert_ne by congruence. apply lookup_insert_eq. }
    assert (Hlb : (<[Some c := 33]> (<[Some b := 33]> (<[Some a := 34]> ∅)) : Boosters)
                  !! Some b = Some 33).
    { rewrite lookup_insert_ne by congruence. apply lookup_insert_eq. }
    assert (Hlc : (<[Some c := 33]> (<[Some b := 33]> (<[Some a := 34]> ∅)) : Boosters)
                  !! Some c = Some 33) by apply lookup_insert_eq.
    cbn [App.phase App.players App.boosters].
    split; [reflexivity |]. split; [reflexivity |].
    split; [exact Hla |]. split; [exact Hlb |]. split; [exact Hlc |].
    unfold App.pickedIds. cbn [App.players]. fold (App.pickedIds s). rewrite Hpicks.
    now apply (validate_of_lookups a b c 34 33 33).
Qed.

Lemma draft_then_finish_witness :
  let s := @App.toggles sampleDates [(4, 0); (7, 0); (4, 0); (2, 0); (9, 0); (4, 0)]
             (App.startDraft App.initial) in
  App.pickedIds s = [7; 2; 9]
  ∧ App.boosters (App.finishDraft s) !! Some 7 = Some 34
  ∧ validateBoostersComplete (App.pickedIds (App.finishDraft s))
      (App.boosters (App.finishDraft s)) = true.
Proof.
  intros s.
  assert (Hpicks : App.pickedIds s = [7; 2; 9]) by (vm_compute; reflexivity).
  destruct (@draft_then_finish sampleDates App.initial
              [(4, 0); (7, 0); (4, 0); (2, 0); (9, 0); (4, 0)])
    as (_ & _ & _ & _ & _ & Hfinish).
  destruct (Hfinish 7 2 9 Hpicks) as (_ & _ & H7 & _ & _ & Hvalid).
  split; [exact Hpicks |]. split; [exact H7 | exact Hvalid].
Defined.
Lemma setBooster_step (targetId : Z) (rawValue : Q) (s : App.state) :
  let s' := App.setBoosterWithNormalization targetId rawValue s in
  App.phase s' = App.phase s
  ∧ App.players s' = App.players s
  ∧ App.lineupInfo s' = App.lineupInfo s
  ∧ App.boosters s' =
      normalizeBoostersToHundred targetId rawValue (App.pickedIds s) (App.boosters s).
Proof.
  unfold App.setBoosterWithNormalization, normalizeBoostersToHundred.
  destruct (App.pickedIds s) as [|a [|b [|c [|d rest]]]]; cbn; auto.
Qed.

Lemma normalize_keeps_hundred (targetId : Z) (rawValue : Q) (pickedIds : list Z)
    (currentBoosters : Boosters) :
  NoDup pickedIds → targetId ∈ pickedIds →
  sums_to_hundred pickedIds currentBoosters →
  sums_to_hundred pickedIds
    (normalizeBoostersToHundred targetId rawValue pickedIds currentBoosters).
Proof.
  intros Hnd Hin (a & b & c & x & y & z & -> & Ha & Hb & Hc & Hx & Hy & Hz & Hsum).
  destruct (target_shape targetId a b c Hin) as (o1 & o2 & Hshape).
  destruct (normalize_lookup3 targetId o1 o2 rawValue [a; b; c] currentBoosters
              Hnd Hshape) as (Ht & H1 & H2).
  pose proof (clamp_bounds (JS.Math_round rawValue)) as Hcl.
  assert (Hcur : 0 ≤ get0 currentBoosters (Some o1)
                 ∧ 0 ≤ get0 currentBoosters (Some o2)).
  { unfold get0.
    destruct Hshape as [Heq | [Heq | Heq]]; injection Heq as -> -> ->;
      rewrite ?Ha, ?Hb, ?Hc; simpl; lia. }
  destruct Hcur as [Hcur0 Hcur1].
  pose proof (newOther1_bounds
                (100 - Z.max 0 (Z.min 100 (JS.Math_round rawValue)))
                (get0 currentBoosters (Some o1)) (get0 currentBoosters (Some o2))
                ltac:(lia) Hcur0 Hcur1) as Hn1.
  exists a, b, c.
  destruct Hshape as [Heq | [Heq | Heq]]; injection Heq as -> -> ->;
    do 3 eexists; (split; [reflexivity |]);
    (split; [eassumption |]); (split; [eassumption |]); (split; [eassumption |]);
    lia.
Qed.

(** X30. The sliders keep the boosters at one hundred. From a state whose
    three picks are pairwise distinct and hold shares between 0 and 100 that
    add up to 100, as [finishDraft] leaves it, any run of slider moves on
    picked batters, with any raw values, leaves the phase and the players
    alone, yields the boosters that [normalizeBoostersToHundred] computes
    move by move, and ends again with shares between 0 and 100 that add up
    to 100, which [validateBoostersComplete] accepts. *)
Theorem sliders_keep_hundred (s : App.state) (moves : list (Z * Q)) :
  NoDup (App.pickedIds s) →
  sums_to_hundred (App.pickedIds s) (App.boosters s) →
  Forall (λ move, move.1 ∈ App.pickedIds s) moves →
  let s' := App.slides moves s in
  App.phase s' = App.phase s
  ∧ App.players s' = App.players s
  ∧ App.boosters s' =
      foldl (λ m move, normalizeBoostersToHundred move.1 move.2 (App.pickedIds s) m)
            (App.boosters s) moves
  ∧ sums_to_hundred (App.pickedIds s') (App.boosters s')
  ∧ validateBoostersComplete (App.pickedIds s') (App.boosters s') = true.
Proof.
  intros Hnd Hsum Hmoves.
  assert (Hrun : let s' := App.slides moves s in
            App.phase s' = App.phase s
            ∧ App.players s' = App.players s
            ∧ App.boosters s' =
                foldl (λ m move,
                         normalizeBoostersToHundred move.1 move.2 (App.pickedIds s) m)
                      (App.boosters s) moves
            ∧ sums_to_hundred (App.pickedIds s') (App.boosters s')).
  { unfold App.slides. revert s Hnd Hsum Hmoves.
    induction moves as [|move moves IH]; intros s Hnd Hsum Hmoves.
    - simpl. auto.
    - apply Forall_cons in Hmoves as [Hmove Hmoves]. cbn [foldl].
      destruct (setBooster_step move.1 move.2 s) as (Hp & Hpl & _ & Hb).
      cbn zeta in Hp, Hpl, Hb.
      set (s1 := App.setBoosterWithNormalization move.1 move.2 s) in *.
      assert (Hpicks : App.pickedIds s1 = App.pickedIds s).
      { unfold App.pickedIds. now rewrite Hpl. }
      destruct (IH s1) as (Hp' & Hpl' & Hb' & Hsum').
      + now rewrite Hpicks.
      + rewrite Hpicks, Hb. now apply normalize_keeps_hundred.
      + now rewrite Hpicks.
      + cbn zeta in *. rewrite Hpicks, Hb in Hb'.
        split; [congruence |]. split; [congruence |]. split; [exact Hb' |].
        exact Hsum'. }
  cbn zeta in *. destruct Hrun as (Hp & Hpl & Hb & Hsum').
  split; [exact Hp |]. split; [exact Hpl |]. split; [exact Hb |].
  split; [exact Hsum' |].
  destruct Hsum' as (a & b & c & x & y & z & -> & Ha & Hb' & Hc & _ & _ & _ & Hxyz).
  now apply (validate_of_lookups a b c x y z).
Qed.

Lemma sliders_keep_hundred_witness :
  let s := App.finishDraft
             (@App.toggles sampleDates [(7, 0); (2, 0); (9, 0)]
                (App.startDraft App.initial)) in
  let s' := App.slides [(2, inject_Z 61); (9, (-5 # 2)%Q); (7, inject_Z 250)] s in
  App.pickedIds s' = [7; 2; 9]
  ∧ validateBoostersComplete (App.pickedIds s') (App.boosters s') = true.
Proof.
  intros s s'. split; [vm_compute; reflexivity |].
  apply (sliders_keep_hundred s
           [(2, inject_Z 61); (9, (-5 # 2)%Q); (7, inject_Z 250)]).
  - vm_compute. repeat constructor; rewrite ?elem_of_cons, ?elem_of_nil; intuition lia.
  - exists 7, 2, 9, 34, 33, 33. vm_compute. repeat split; discriminate.
  - repeat constructor; vm_compute; rewrite !elem_of_cons; auto.
Defined.
